(** * my_projects: the WebAPI fetcher and the MyPreprocessor table cleaner

    A shallow embedding of [my_internet_resource.py] and [my_preprocessor.py].

    The two classes are glue code around [requests] and [pandas].  Their own
    control flow (argument checks, loops, the try/except of [data_import],
    the row counter) is embedded statement by statement.  The library calls
    they delegate to are modelled in the modules [requests] and [pd] below,
    following the behaviour of pandas 2.x (the code needs it: it passes
    [ignore_index] to [dropna]) on the following value model:

    - a cell is an integer, a string, or the missing value NaN; a float
      that carries an integer of magnitude up to 2^53 is identified with
      that integer, other floats, booleans and nested objects are outside
      the model.  The type of a column is read off its cells: a column
      with a missing value and no string is a column of floats;
    - column labels are strings, row labels are integers: the frames the
      program builds are labelled 0, 1, 2, ..., [drop] only removes
      labels, and of the row labels that [read_csv] takes from a file the
      model has those that one leading column of integers gives;
    - a Python [dict] is an association list in insertion order whose keys
      are pairwise distinct; NaN is the single object [np.nan];
    - the file system is a flat finite map from paths to files, a file
      being a text or a workbook of typed cells; which directories exist
      is part of the environment, and so is what [pd.unique] does with a
      selection of several columns, which pandas leaves open.

    Logging is modelled by appending records to a log held in the state; a
    record keeps the level, the f-string of the source as written, and the
    values interpolated into it. *)

From Stdlib Require Import Ascii String.
From stdpp Require Import base strings list gmap pretty.

#[local] Set Warnings "-register-all,-clear-no-such-hyp".

Open Scope Z_scope.

(** ** Python values, dictionaries, exceptions *)

Inductive value : Type :=
  | VInt (z : Z)
  | VStr (s : string)
  | VNaN.

#[global] Instance value_eq_dec : EqDecision value.
Proof. solve_decision. Defined.

#[global] Instance value_inhabited : Inhabited value := populate VNaN.

(** Element-wise [==] of Python and numpy: NaN is unequal to everything,
    itself included.  (Hash-table based pandas routines such as [unique],
    [duplicated] and [replace] treat NaN as one value instead; those use
    the structural equality of [value].) *)
Definition py_eq (a b : value) : bool :=
  match a, b with
  | VNaN, _ | _, VNaN => false
  | _, _ => bool_decide (a = b)
  end.

(** A [dict]: insertion-ordered, keys pairwise distinct. *)
Abbreviation dict K V := (list (K * V)) (only parsing).

Definition dict_keys {K V} (d : dict K V) : list K := d.*1.

Fixpoint dict_get {K V} `{EqDecision K} (d : dict K V) (k : K) : option V :=
  match d with
  | [] => None
  | (k', v) :: d' => if decide (k' = k) then Some v else dict_get d' k
  end.

(** [d[k] = v]: overwrite in place when the key is present, append otherwise. *)
Fixpoint dict_set {K V} `{EqDecision K} (d : dict K V) (k : K) (v : V) : dict K V :=
  match d with
  | [] => [(k, v)]
  | (k', v') :: d' =>
      if decide (k' = k) then (k', v) :: d' else (k', v') :: dict_set d' k v
  end.

(** Truthiness ([bool(x)]) of the argument types the methods test. *)
Class Truthy (A : Type) := bool_of : A → bool.

#[global] Instance truthy_bool : Truthy bool := λ b, b.
#[global] Instance truthy_string : Truthy string :=
  λ s, match s with EmptyString => false | _ => true end.
#[global] Instance truthy_list {A} : Truthy (list A) :=
  λ l, match l with [] => false | _ => true end.

(** A keyword argument whose default is [False]: [None] stands for the
    default (argument omitted), [Some a] for a passed object. *)
Definition truthy {A} `{Truthy A} (x : option A) : bool :=
  match x with Some a => bool_of a | None => false end.

Inductive exn : Type :=
  | Exception
  | ValueError
  | TypeError
  | KeyError
  | JSONDecodeError
  | FileNotFoundError
  | UnicodeDecodeError
  | EmptyDataError
  | ParserError
  | IndexError
  | OSError
  | IllegalCharacterError
  | KeyboardInterrupt
  | SystemExit.

(** [isinstance(e, Exception)]: everything but the two classes that derive
    from [BaseException] directly. *)
Definition isinstance_Exception (e : exn) : bool :=
  match e with
  | KeyboardInterrupt | SystemExit => false
  | _ => true
  end.

Inductive result (A : Type) : Type :=
  | Return (a : A)
  | Raise (e : exn).
Arguments Return {A} a.
Arguments Raise {A} e.

(** ** Logging *)

Inductive level : Type := DEBUG | INFO | ERROR.

Inductive arg : Type :=
  | AStr (s : string)
  | AInt (z : Z)
  | AVal (v : value)
  | ADict (d : dict value value).

Record log_record : Type := LogRecord {
  levelname : level;
  msg : string;          (* the f-string as written in the source *)
  args : list arg        (* the values of its replacement fields, in order *)
}.

#[global] Instance level_eq_dec : EqDecision level.
Proof. solve_decision. Defined.
#[global] Instance arg_eq_dec : EqDecision arg.
Proof. solve_decision. Defined.
#[global] Instance log_record_eq_dec : EqDecision log_record.
Proof. solve_decision. Defined.

(** ** A state-and-exception monad for the method bodies *)

Definition M (S A : Type) : Type := S → result A * S.

Definition ret {S A} (a : A) : M S A := λ s, (Return a, s).

Definition bind {S A B} (m : M S A) (k : A → M S B) : M S B :=
  λ s, match m s with
       | (Return a, s') => k a s'
       | (Raise e, s') => (Raise e, s')
       end.

Definition raise {S A} (e : exn) : M S A := λ s, (Raise e, s).

Definition lift {S A} (r : result A) : M S A := λ s, (r, s).

Notation "x <- c ;; k" := (bind c (λ x, k))
  (at level 100, c at next level, right associativity).
Notation "c ;; k" := (bind c (λ _, k))
  (at level 100, right associativity).

(** [try: body  except Exception: handler] *)
Definition try_except_Exception {S A} (body handler : M S A) : M S A :=
  λ s, match body s with
       | (Raise e, s') =>
           if isinstance_Exception e then handler s' else (Raise e, s')
       | r => r
       end.

(** [for x in l: body x] *)
Fixpoint for_ {S A} (l : list A) (body : A → M S unit) : M S unit :=
  match l with
  | [] => ret tt
  | x :: l' => body x ;; for_ l' body
  end.

Class Logging (S : Type) := emit : log_record → S → S.

Definition logger_log {S} `{Logging S} (lv : level) (m : string) (a : list arg)
  : M S unit :=
  λ s, (Return tt, emit (LogRecord lv m a) s).

Definition logger_info {S} `{Logging S} := logger_log (S:=S) INFO.
Definition logger_debug {S} `{Logging S} := logger_log (S:=S) DEBUG.
Definition logger_error {S} `{Logging S} := logger_log (S:=S) ERROR.

(** ** my_internet_resource.py *)

Module requests.

(** The object [Response.json()] builds; [JNull] is Python's [None]. *)
Inductive JSON : Type :=
  | JNull
  | JBool (b : bool)
  | JInt (z : Z)
  | JString (s : string)
  | JArray (l : list JSON)
  | JObject (m : list (string * JSON)).

(** A received response.  [json] is the outcome of calling [.json()] on
    it: the parsed body, or the exception the parser raises. *)
Record Response : Type := {
  status_code : Z;
  reason : string;
  json : result JSON
}.

End requests.

Module WebAPI.
Import requests.

Record t : Type := { my_data : Response }.

Definition logs : Type := list log_record.

#[global] Instance logs_logging : Logging logs := λ r l, l ++ [r].

(** A method that falls off its end returns [None]. *)
Definition data_import (self : t) : M logs JSON :=
  logger_info "Method 'data_import' invoked." [] ;;
  try_except_Exception
    (if bool_decide (status_code (my_data self) ≠ 200) then
       logger_debug "Connection failed." [] ;;
       raise Exception
     else
       logger_debug "Connection succeeded." [] ;;
       lift (json (my_data self)))
    (logger_error "Code of responded HTTP Status: {self.my_data.status_code}"
       [AInt (status_code (my_data self))] ;;
     logger_error "Reason of responded HTTP Status: {self.my_data.reason}"
       [AStr (reason (my_data self))] ;;
     ret JNull).

(** [requests.get(url, headers = headers)]: what the network answers to a
    request, a response (of any status) or the exception of a request that
    could not be completed. *)
Definition network : Type := string → dict string string → result Response.

(** [__init__], over a network [net]. *)
Definition init (net : network) (url : string) (headers : dict string string)
  : M logs t :=
  logger_info "WebAPI class instance created." [] ;;
  response <- lift (net url headers) ;;
  ret {| my_data := response |}.

End WebAPI.

(** ** The pandas operations the preprocessor calls *)

Module pd.

(** A frame, row by row: [columns] are the column labels, and each element
    of [rows] is a row label with the cells of that row, one per column. *)
Record DataFrame : Type := {
  columns : list string;
  rows : list (Z * list value)
}.

#[global] Instance DataFrame_eq_dec : EqDecision DataFrame.
Proof. solve_decision. Defined.

(** Every row has one cell per column. *)
Definition wf (df : DataFrame) : Prop :=
  Forall (λ r, length r.2 = length (columns df)) (rows df).

Definition index (df : DataFrame) : list Z := (rows df).*1.

(** [df.shape[0]] *)
Definition shape0 (df : DataFrame) : Z := Z.of_nat (length (rows df)).

(** [pd.DataFrame()] *)
Definition DataFrame_ : DataFrame := {| columns := []; rows := [] |}.

(** [df.empty]: one of the two axes has length 0. *)
Definition empty (df : DataFrame) : bool :=
  bool_decide (columns df = []) || bool_decide (rows df = []).

(** Label the rows 0, 1, 2, ... (a fresh RangeIndex). *)
Definition default_index (cells : list (list value)) : list (Z * list value) :=
  imap (λ i r, (Z.of_nat i, r)) cells.

(** Column-major to row-major: row [i] takes cell [i] of every column. *)
Definition transpose {A} (dflt : A) (n : nat) (cols : list (list A)) : list (list A) :=
  map (λ i, map (λ col, default dflt (col !! i)) cols) (seq 0 n).

(** [pd.DataFrame.from_dict(d)] for a dict of equally long lists; lists of
    different lengths are rejected with a ValueError. *)
Definition from_dict (d : dict string (list value)) : result DataFrame :=
  let n := match d with [] => 0%nat | kc :: _ => length kc.2 end in
  if forallb (λ kc : string * list value, bool_decide (length kc.2 = n)) d then
    Return {| columns := dict_keys d;
              rows := default_index (transpose VNaN n d.*2) |}
  else Raise ValueError.

Fixpoint mask_select {A} (mask : list bool) (l : list A) : list A :=
  match mask, l with
  | b :: mask', x :: l' =>
      if b then x :: mask_select mask' l' else mask_select mask' l'
  | _, _ => []
  end.

(** The sub-frame made of the columns that satisfy [p]. *)
Definition select_columns (p : string → bool) (df : DataFrame) : DataFrame :=
  let keep := map p (columns df) in
  {| columns := mask_select keep (columns df);
     rows := map (λ r, (r.1, mask_select keep r.2)) (rows df) |}.

(** [label in df.columns] *)
Definition in_columns (label : string) (df : DataFrame) : bool :=
  bool_decide (label ∈ columns df).

(** [df.drop(columns = label, inplace = True)]: removes every column that
    carries the label; an absent label is a KeyError. *)
Definition drop_columns (label : string) (df : DataFrame) : result DataFrame :=
  if in_columns label df then
    Return (select_columns (λ c, bool_decide (c ≠ label)) df)
  else Raise KeyError.

(** [df.rename(columns = mapper, inplace = True)]: every column whose label
    is a key gets the mapped label; other labels stay, absent keys are
    ignored.  No uniqueness check is made on the result. *)
Definition rename_columns (mapper : dict string string) (df : DataFrame) : DataFrame :=
  {| columns := map (λ c, default c (dict_get mapper c)) (columns df);
     rows := rows df |}.

(** Keep the elements whose key was not met before, in order. *)
Fixpoint keep_first {A B} `{EqDecision B} (key : A → B) (seen : list B) (l : list A)
  : list A :=
  match l with
  | [] => []
  | x :: l' =>
      if decide (key x ∈ seen) then keep_first key seen l'
      else x :: keep_first key (key x :: seen) l'
  end.

(** [df.drop_duplicates(inplace = True, ignore_index = True)].  pandas
    returns early on an empty frame ([if self.empty: return self.copy()]),
    before anything is updated in place, so an empty frame keeps its index.
    Otherwise rows are compared on all their cells (NaN equal to NaN), the
    first of each group is kept, and the rows are relabelled from 0. *)
Definition drop_duplicates (df : DataFrame) : DataFrame :=
  if empty df then df
  else {| columns := columns df;
          rows := default_index (keep_first snd [] (rows df)).*2 |}.

(** [df.dropna(inplace = True, ignore_index = True)]: rows with a missing
    cell are removed and the rest relabelled from 0. *)
Definition dropna (df : DataFrame) : DataFrame :=
  {| columns := columns df;
     rows := default_index (filter (λ r, VNaN ∉ r.2) (rows df)).*2 |}.

(** [label in df.index], for an integer index. *)
Definition in_index (label : value) (df : DataFrame) : bool :=
  match label with
  | VInt z => bool_decide (z ∈ index df)
  | _ => false
  end.

(** [df.drop(index = label, inplace = True)] *)
Definition drop_index (label : value) (df : DataFrame) : result DataFrame :=
  if in_index label df then
    Return {| columns := columns df;
              rows := filter (λ r, VInt r.1 ≠ label) (rows df) |}
  else Raise KeyError.

(** [df[label]] is a Series when one column carries the label and a
    sub-frame when several do. *)
Inductive selection : Type :=
  | Series (cells : list value)
  | Frame (df : DataFrame).

Definition getitem (label : string) (df : DataFrame) : result selection :=
  let sub := select_columns (λ c, bool_decide (c = label)) df in
  match columns sub with
  | [] => Raise KeyError
  | [_] => Return (Series (map (λ r, default VNaN (head r.2)) (rows sub)))
  | _ => Return (Frame sub)
  end.

(** [pd.unique]: on a column, the distinct values in order of first
    appearance, NaN counting as one value.  On a selection of several
    columns the function is used outside its documented domain, and what it
    does there depends on the pandas and numpy at hand (it may raise, or
    return values that are not the cells'): the model leaves that outcome
    open, as the function [of_frame] of the environment. *)
Definition unique (of_frame : DataFrame → result (list value)) (x : selection)
  : result (list value) :=
  match x with
  | Series cells => Return (keep_first id [] cells)
  | Frame df => of_frame df
  end.

(** [key in arr] for a numpy array: [(arr == key).any()]. *)
Definition ndarray_contains (key : value) (arr : list value) : bool :=
  existsb (λ v, py_eq v key) arr.

(** [df.replace(to_replace = {label: d}, inplace = True)]: in every column
    carrying the label, each cell that is a key of [d] becomes the mapped
    value.  All keys are matched against the original cells (the masks are
    computed before anything is written), so the substitution is
    simultaneous; a NaN key matches the missing cells. *)
Definition replace_cell (d : dict value value) (v : value) : value :=
  default v (dict_get d v).

Definition replace (label : string) (d : dict value value) (df : DataFrame) : DataFrame :=
  {| columns := columns df;
     rows := map (λ r, (r.1, zip_with (λ c v, if decide (c = label)
                                              then replace_cell d v else v)
                               (columns df) r.2))
                 (rows df) |}.

End pd.

(** ** The file codecs of pandas *)

Module io.
Import pd.

(** A file: a text, or a workbook sheet of typed cells (an empty cell is
    the missing value). *)
Inductive file : Type :=
  | TextFile (text : string)
  | Workbook (sheet : list (list value)).

Definition dquote : ascii := "034"%char.
Definition LF : ascii := "010"%char.
Definition CR : ascii := "013"%char.
Definition TAB : ascii := "009"%char.
Definition comma : ascii := ","%char.

Definition newline : string := String LF EmptyString.

(** *** Writing ([DataFrame.to_csv] with its defaults)

    The first line is the header: one empty field for the unnamed index,
    then the column labels.  Every row follows as its row label and its
    cells, NaN written as an empty field.  A column that holds a missing
    value and no string is a column of floats, and its numbers are written
    with a decimal point.  (The type of a column is read off its cells
    here; pandas keeps it with the column, so that a column of floats
    without a missing value, as [dropna] can leave one, is written without
    the point by the model.)  Fields are separated by commas, lines end in
    a line feed, and a field is quoted exactly when it holds a comma, a
    quote or a line feed (embedded quotes are doubled); a line made of a
    single empty field is written as a pair of quotes. *)

Definition str (v : value) : string :=
  match v with
  | VInt z => pretty z
  | VStr s => s
  | VNaN => EmptyString
  end.

Definition float_column (col : list value) : bool :=
  bool_decide (VNaN ∈ col)
  && forallb (λ v, match v with VStr _ => false | _ => true end) col.

Definition cell_text (as_float : bool) (v : value) : string :=
  match v with
  | VInt z => if as_float then pretty z +:+ ".0" else pretty z
  | _ => str v
  end.

Definition needs_quoting (s : string) : bool :=
  existsb (λ c, bool_decide (c = comma ∨ c = dquote ∨ c = LF))
          (list_ascii_of_string s).

Definition quote_field (s : string) : string :=
  String dquote
    (string_of_list_ascii
       (flat_map (λ c, if decide (c = dquote) then [dquote; dquote] else [c])
                 (list_ascii_of_string s))
     +:+ String dquote EmptyString).

Definition csv_field (s : string) : string :=
  if needs_quoting s then quote_field s else s.

Definition csv_line (fields : list string) : string :=
  match fields with
  | [EmptyString] => quote_field EmptyString
  | _ => String.concat "," (map csv_field fields)
  end +:+ newline.

Definition to_csv (df : DataFrame) : string :=
  let floats :=
    map float_column (transpose VNaN (length (columns df)) (rows df).*2) in
  csv_line (EmptyString :: columns df)
  +:+ String.concat EmptyString
        (map (λ r, csv_line (pretty r.1 :: zip_with cell_text floats r.2)) (rows df)).

(** *** Reading ([pd.read_csv] with its defaults)

    The tokenizer splits the text into records of fields.  A field that
    starts with a quote runs to the closing quote, a doubled quote inside
    standing for one quote; a line feed or a carriage return ends a record
    outside quotes, and lines that are empty or hold only blanks are
    skipped.  A text that ends inside a quoted field is rejected. *)

Inductive mode : Type :=
  | RecordStart       (* at the start of a line *)
  | BlankLine         (* only blanks so far in this line *)
  | FieldStart        (* after a comma *)
  | InField
  | InQuoted
  | QuoteSeen.

Definition field_of (rev_chars : list ascii) : string :=
  string_of_list_ascii (rev rev_chars).

Fixpoint tokenize (m : mode) (fld : list ascii) (rcd : list string) (cs : list ascii)
  : option (list (list string)) :=
  match cs with
  | [] =>
      match m with
      | RecordStart | BlankLine => Some []
      | InQuoted => None
      | _ => Some [rev (field_of fld :: rcd)]
      end
  | c :: cs' =>
      match m with
      | InQuoted =>
          if decide (c = dquote) then tokenize QuoteSeen fld rcd cs'
          else tokenize InQuoted (c :: fld) rcd cs'
      | _ =>
          if decide (c = comma) then
            tokenize FieldStart [] (field_of fld :: rcd) cs'
          else if decide (c = LF ∨ c = CR) then
            match m with
            | RecordStart | BlankLine => tokenize RecordStart [] [] cs'
            | _ => cons (rev (field_of fld :: rcd)) <$> tokenize RecordStart [] [] cs'
            end
          else if decide (c = " "%char ∨ c = TAB) then
            match m with
            | RecordStart | BlankLine => tokenize BlankLine (c :: fld) rcd cs'
            | _ => tokenize InField (c :: fld) rcd cs'
            end
          else if decide (c = dquote) then
            match m with
            | RecordStart | FieldStart => tokenize InQuoted fld rcd cs'
            | QuoteSeen => tokenize InQuoted (dquote :: fld) rcd cs'
            | _ => tokenize InField (c :: fld) rcd cs'
            end
          else tokenize InField (c :: fld) rcd cs'
      end
  end.

(** The records of a text; none when the text ends inside a quoted field. *)
Definition records (text : string) : option (list (list string)) :=
  tokenize RecordStart [] [] (list_ascii_of_string text).

(** Header names.  An empty name at position [i] becomes [Unnamed: i].
    Then the positions are visited, those with a given name before those
    with a placeholder, and a name that was given out already is replaced
    by the first of [name.1], [name.2], ... that no position holds. *)
Definition fresh_name (seen : list string) (name : string) : string :=
  default name
    (head (filter (λ c, c ∉ seen)
                  (map (λ k, name +:+ "." +:+ pretty k) (seq 1 (S (length seen)))))).

Definition placeholder (i : nat) (s : string) : string :=
  if decide (s = EmptyString) then "Unnamed: " +:+ pretty i else s.

Definition mangle_at (st : list string * list string) (i : nat)
  : list string * list string :=
  match st.1 !! i with
  | Some col =>
      let col' := if decide (col ∈ st.2) then fresh_name st.1 col else col in
      (<[i := col']> st.1, col' :: st.2)
  | None => st
  end.

Definition visiting_order (hdr : list string) : list nat :=
  filter (λ i, hdr !! i ≠ Some EmptyString) (seq 0 (length hdr))
  ++ filter (λ i, hdr !! i = Some EmptyString) (seq 0 (length hdr)).

Definition header_names (hdr : list string) : list string :=
  (fold_left mangle_at (visiting_order hdr) (imap placeholder hdr, [])).1.

(** The strings read as a missing value. *)
Definition na_values : list string :=
  [ EmptyString; "#N/A"; "#N/A N/A"; "#NA"; "-1.#IND"; "-1.#QNAN"; "-NaN";
    "-nan"; "1.#IND"; "1.#QNAN"; "<NA>"; "N/A"; "NA"; "NULL"; "NaN"; "None";
    "n/a"; "nan"; "null" ]%string.

Definition is_na (s : string) : bool := bool_decide (s ∈ na_values).

Definition digit (c : ascii) : option Z :=
  let n := Z.of_nat (nat_of_ascii c) in
  if bool_decide (48 ≤ n ≤ 57) then Some (n - 48) else None.

Definition blank (c : ascii) : bool :=
  let n := Z.of_nat (nat_of_ascii c) in
  bool_decide (n = 32 ∨ 9 ≤ n ≤ 13).

Fixpoint skip_blanks (cs : list ascii) : list ascii :=
  match cs with
  | c :: cs' => if blank c then skip_blanks cs' else cs
  | [] => []
  end.

Definition starts_with_digit (cs : list ascii) : bool :=
  match cs with c :: _ => bool_decide (is_Some (digit c)) | [] => false end.

(** What a field is to one of the passes below. *)
Inductive token : Type :=
  | Missing
  | Number (z : Z)
  | Negative
  | Invalid
  | Overflow.

#[global] Instance token_eq_dec : EqDecision token.
Proof. solve_decision. Defined.

(** The digits of an integer of magnitude up to [bound], and the blanks
    after them.  A digit that takes the number beyond the bound ends the
    scan, whatever follows. *)
Fixpoint scan_digits (bound acc : Z) (cs : list ascii) : token :=
  match cs with
  | [] => Number acc
  | c :: cs' =>
      match digit c with
      | Some d =>
          if bool_decide (10 * acc + d ≤ bound) then scan_digits bound (10 * acc + d) cs'
          else Overflow
      | None => if forallb blank cs then Number acc else Invalid
      end
  end.

(** A signed 64-bit integer: blanks, a sign, digits, blanks. *)
Definition scan_signed (s : string) : token :=
  match skip_blanks (list_ascii_of_string s) with
  | c :: cs =>
      if decide (c = "-"%char) then
        if starts_with_digit cs then
          match scan_digits (2 ^ 63) 0 cs with
          | Number z => Number (- z)
          | t => t
          end
        else Invalid
      else
        let cs' := if decide (c = "+"%char) then cs else c :: cs in
        if starts_with_digit cs' then scan_digits (2 ^ 63 - 1) 0 cs' else Invalid
  | [] => Invalid
  end.

(** An unsigned 64-bit integer; of a field that starts with a minus sign
    only the sign is noted. *)
Definition scan_unsigned (s : string) : token :=
  match skip_blanks (list_ascii_of_string s) with
  | c :: cs =>
      if decide (c = "-"%char) then Negative
      else
        let cs' := if decide (c = "+"%char) then cs else c :: cs in
        if starts_with_digit cs' then scan_digits (2 ^ 64 - 1) 0 cs' else Invalid
  | [] => Invalid
  end.

(** A float that carries an integer exactly: digits, possibly a point and
    zeros, at least one digit in all, and a magnitude of at most 2^53.
    Other floats are outside the value model, and the scan fails on
    them. *)
Fixpoint only_zeros (cs : list ascii) : bool :=
  match cs with
  | [] => true
  | c :: cs' => if decide (c = "0"%char) then only_zeros cs' else forallb blank cs
  end.

Fixpoint scan_float_digits (seen : bool) (acc : Z) (cs : list ascii) : token :=
  match cs with
  | [] => if seen then Number acc else Invalid
  | c :: cs' =>
      match digit c with
      | Some d => scan_float_digits true (10 * acc + d) cs'
      | None =>
          if decide (c = "."%char) then
            if (seen || starts_with_digit cs') && only_zeros cs' then Number acc
            else Invalid
          else if seen && forallb blank cs then Number acc
          else Invalid
      end
  end.

Definition exact_float (z : Z) : bool := bool_decide (- 2 ^ 53 ≤ z ≤ 2 ^ 53).

Definition scan_float (s : string) : token :=
  let scan cs :=
    match scan_float_digits false 0 cs with
    | Number z => if exact_float z then Number z else Invalid
    | t => t
    end in
  match skip_blanks (list_ascii_of_string s) with
  | c :: cs =>
      if decide (c = "-"%char) then
        match scan cs with Number z => Number (- z) | t => t end
      else scan (if decide (c = "+"%char) then cs else c :: cs)
  | [] => Invalid
  end.

(** A pass stops at the first field it cannot take. *)
Definition first_error (ts : list token) : option token :=
  head (filter (λ t, t = Invalid ∨ t = Overflow) ts).

Definition numbers (ts : list token) : list value :=
  map (λ t, match t with Number z => VInt z | _ => VNaN end) ts.

Definition seen_uint (ts : list token) : bool :=
  existsb (λ t, match t with Number z => bool_decide (2 ^ 63 ≤ z) | _ => false end) ts.

Definition seen_sint (ts : list token) : bool :=
  existsb (λ t, match t with Number z => bool_decide (z < 0) | Negative => true | _ => false end) ts.

Definition seen_null (ts : list token) : bool := bool_decide (Missing ∈ ts).

(** Type inference for the fields of a column, in this order:
    - as signed 64-bit integers, the missing fields aside;
    - if an integer was too large for that, as unsigned 64-bit integers;
      when one of them is beyond that range too, or the column has a
      negative or a missing field, every field stays the string it is,
      the missing ones too;
    - as floats;
    - as strings, the missing fields becoming NaN.  (This is also what the
      model gives for a column that pandas reads as floats that carry no
      integer or as booleans, which the value model has not.) *)
Definition convert_column (fields : list string) : list value :=
  let pass scan := (λ s, if is_na s then Missing else scan s) <$> fields in
  let floats :=
    match first_error (pass scan_float) with
    | None => numbers (pass scan_float)
    | Some _ => (λ s, if is_na s then VNaN else VStr s) <$> fields
    end in
  match first_error (pass scan_signed) with
  | None => numbers (pass scan_signed)
  | Some Overflow =>
      let ts := pass scan_unsigned in
      match first_error ts with
      | None =>
          if seen_sint ts || seen_uint ts && seen_null ts then VStr <$> fields
          else numbers ts
      | Some Overflow => VStr <$> fields
      | Some _ => floats
      end
  | Some _ => floats
  end.

(** The integers of a column of row labels, if that is what it holds. *)
Definition integers (col : list value) : option (list Z) :=
  mapM (λ v, match v with VInt z => Some z | _ => None end) col.

(** The first record is the header.  The first data record may be longer
    than the header: its leading fields, and those of the records below,
    are then the row labels (one leading field of integers is what the
    model has; other row labels are outside it, and the model answers
    with the reader's error).  Records shorter than the first data record
    (or than the header, when that is longer) are padded with missing
    fields, longer ones are rejected. *)
Definition read_csv_text (text : string) : result DataFrame :=
  match records text with
  | None => Raise ParserError
  | Some [] => Raise EmptyDataError
  | Some (hdr :: recs) =>
      let w := length hdr in
      let f := (w `max` from_option length 0 (head recs))%nat in
      if forallb (λ r : list string, bool_decide (length r ≤ f)%nat) recs then
        let cols := map convert_column (transpose EmptyString f recs) in
        if decide (f = w) then
          Return {| columns := header_names hdr;
                    rows := default_index (transpose VNaN (length recs) cols) |}
        else
          match integers (default [] (head cols)) with
          | Some labels =>
              if decide (f = S w) then
                Return {| columns := header_names hdr;
                          rows := zip labels
                                      (transpose VNaN (length recs) (drop 1 cols)) |}
              else Raise ParserError
          | None => Raise ParserError
          end
      else Raise ParserError
  end.

Definition read_csv (content : option file) : result DataFrame :=
  match content with
  | None => Raise FileNotFoundError
  | Some (TextFile text) => read_csv_text text
  | Some (Workbook _) => Raise UnicodeDecodeError
  end.

(** *** Workbooks ([DataFrame.to_excel], [pd.read_excel])

    The sheet written has the same layout as the csv text: a header row
    with an empty cell for the index, then the rows with their labels.
    The writer sets the cells one by one: the column labels, then the row
    labels, then the cells column by column.  A string is cut to 32767
    characters; it is rejected when it holds a control character; and it
    is no text to the workbook, and reads as an empty cell, when it is an
    error code or starts with an equals sign (a formula).  When a string
    is rejected, the cells set before it make up the sheet. *)
Definition illegal (c : ascii) : bool :=
  let n := Z.of_nat (nat_of_ascii c) in
  bool_decide (n ≤ 8 ∨ 11 ≤ n ≤ 12 ∨ 14 ≤ n ≤ 31).

Definition error_codes : list string :=
  [ "#NULL!"; "#DIV/0!"; "#VALUE!"; "#REF!"; "#NAME?"; "#NUM!"; "#N/A" ]%string.

Definition stored (v : value) : result value :=
  match v with
  | VStr s =>
      let cs := take (Z.to_nat 32767) (list_ascii_of_string s) in
      if existsb illegal cs then Raise IllegalCharacterError
      else match cs with
           | "="%char :: _ :: _ => Return VNaN
           | _ =>
               if bool_decide (string_of_list_ascii cs ∈ error_codes) then Return VNaN
               else Return (VStr (string_of_list_ascii cs))
           end
  | _ => Return v
  end.

Definition cells_in_order (df : DataFrame) : list (nat * nat * value) :=
  imap (λ j c, (0%nat, S j, VStr c)) (columns df)
  ++ imap (λ i (r : Z * list value), (S i, 0%nat, VInt r.1)) (rows df)
  ++ concat (imap (λ j _, imap (λ i (r : Z * list value),
                                  (S i, S j, default VNaN (r.2 !! j)))
                               (rows df))
                  (columns df)).

Fixpoint store_cells (cs : list (nat * nat * value))
  : dict (nat * nat) value * option exn :=
  match cs with
  | [] => ([], None)
  | (at_, v) :: cs' =>
      match stored v with
      | Return v' => let '(sheet, failure) := store_cells cs' in ((at_, v') :: sheet, failure)
      | Raise e => ([], Some e)
      end
  end.

(** The sheet written, and the exception that ended the writing, if any. *)
Definition to_excel (df : DataFrame) : list (list value) * option exn :=
  let '(sheet, failure) := store_cells (cells_in_order df) in
  (map (λ i, map (λ j, default VNaN (dict_get sheet (i, j)))
                 (seq 0 (S (length (columns df)))))
       (seq 0 (S (length (rows df)))),
   failure).

(** Sheets have at most 2^20 rows and 2^14 columns. *)
Definition sheet_too_large (df : DataFrame) : bool :=
  bool_decide (2 ^ 20 < shape0 df ∨ 2 ^ 14 < Z.of_nat (length (columns df))).

(** The reader drops the empty cells that end a row and the empty rows
    that end the sheet, and pads the rows to one width; a sheet without a
    cell gives the empty table.  The first row gives the header names.
    Type inference takes a column as numbers when every cell is a number,
    a string that spells one, or missing; otherwise the cells stay as they
    are, the missing ones becoming NaN.  Unsigned 64-bit integers next to
    a negative number or a missing cell leave the column untouched. *)
Definition empty_cell (v : value) : bool :=
  bool_decide (v = VNaN ∨ v = VStr EmptyString).

Fixpoint trim {A} (is_empty : A → bool) (l : list A) : list A :=
  match l with
  | [] => []
  | x :: l' =>
      match trim is_empty l' with
      | [] => if is_empty x then [] else [x]
      | t => x :: t
      end
  end.

Definition sheet_data (sheet : list (list value)) : list (list value) :=
  let data := trim (λ r, bool_decide (r = [])) (trim empty_cell <$> sheet) in
  let width := foldr (λ r, max (length r)) 0%nat data in
  resize width VNaN <$> data.

Definition scan_cell (v : value) : token :=
  match v with
  | VNaN => Missing
  | VInt z => Number z
  | VStr s =>
      if is_na s then Missing
      else match scan_signed s, scan_unsigned s with
           | Number z, _ | _, Number z => Number z
           | _, _ => scan_float s
           end
  end.

Definition convert_cells (cells : list value) : list value :=
  let ts := scan_cell <$> cells in
  match first_error ts with
  | Some _ => (λ v, if bool_decide (scan_cell v = Missing) then VNaN else v) <$> cells
  | None =>
      if seen_uint ts && (seen_sint ts || seen_null ts) then cells else numbers ts
  end.

Definition read_excel (content : option file) : result DataFrame :=
  match content with
  | None => Raise FileNotFoundError
  | Some (TextFile _) => Raise ValueError
  | Some (Workbook sheet) =>
      match sheet_data sheet with
      | [] => Return DataFrame_
      | hdr :: body =>
          let cols := map convert_cells (transpose VNaN (length hdr) body) in
          Return {| columns := header_names (map str hdr);
                    rows := default_index (transpose VNaN (length body) cols) |}
      end
  end.

End io.

(** ** my_preprocessor.py *)

Module MyPreprocessor.
Import pd io.

(** [s.rsplit(sep)] without a limit cuts at every separator. *)
Fixpoint rsplit (sep : ascii) (cs : list ascii) : list (list ascii) :=
  match cs with
  | [] => [[]]
  | c :: cs' =>
      if decide (c = sep) then [] :: rsplit sep cs'
      else match rsplit sep cs' with
           | p :: ps => (c :: p) :: ps
           | [] => [[c]]
           end
  end.

(** What the methods meet outside the instance and is fixed during a run:
    - [unique_of_frame]: the outcome of [pd.unique] on a selection of
      several columns (a label that occurs more than once selects all its
      columns).  pandas documents [pd.unique] for one-dimensional input
      only, so nothing is assumed about this outcome;
    - [directory]: the directories that exist. *)
Record environment : Type := {
  unique_of_frame : DataFrame → result (list value);
  directory : string → bool
}.

(** An environment in which every directory exists and [pd.unique] raises
    on a selection of several columns. *)
Definition plain : environment :=
  {| unique_of_frame := λ _, Raise IndexError; directory := λ _, true |}.

(** The directory part of a path: what precedes its last slash. *)
Definition dirname (path : string) : string :=
  String.concat "/"
    (string_of_list_ascii <$> removelast (rsplit "/"%char (list_ascii_of_string path))).

(** A file can be written where the path names no directory or one that
    exists.  (Other failures of the file system, such as missing
    permissions, are not modelled.) *)
Definition writable (e : environment) (path : string) : bool :=
  bool_decide (dirname path = EmptyString) || directory e (dirname path).

(** The instance ([my_df], [my_df_rows]) together with what its methods
    act on: the log, the file system and the environment. *)
Record state : Type := {
  my_df : DataFrame;
  my_df_rows : Z;
  log : list log_record;
  fs : gmap string file;
  env : environment
}.

#[global] Instance state_logging : Logging state :=
  λ r s, {| my_df := my_df s; my_df_rows := my_df_rows s;
            log := log s ++ [r]; fs := fs s; env := env s |}.

Definition get : M state state := λ s, (Return s, s).

Definition set_my_df (df : DataFrame) : M state unit :=
  λ s, (Return tt, {| my_df := df; my_df_rows := my_df_rows s;
                      log := log s; fs := fs s; env := env s |}).

Definition set_my_df_rows (n : Z) : M state unit :=
  λ s, (Return tt, {| my_df := my_df s; my_df_rows := n;
                      log := log s; fs := fs s; env := env s |}).

(** Writing a file, as [to_csv] and [to_excel] do: pandas raises an
    OSError when the directory of the path does not exist. *)
Definition write_file (path : string) (f : file) : M state unit :=
  λ s, if writable (env s) path then
         (Return tt, {| my_df := my_df s; my_df_rows := my_df_rows s;
                        log := log s; fs := <[path := f]> (fs s); env := env s |})
       else (Raise OSError, s).

(** [df.to_excel(path)]: the size of the table is checked, the file is
    opened, the cells are set, and what was set is saved, also when a cell
    was rejected. *)
Definition to_excel_file (path : string) (df : DataFrame) : M state unit :=
  (if sheet_too_large df then raise ValueError else ret tt) ;;
  let '(sheet, failure) := to_excel df in
  write_file path (Workbook sheet) ;;
  match failure with
  | Some e => raise e
  | None => ret tt
  end.

(** [__init__], with the log [l] so far, the files [files] and the
    environment [e]. *)
Definition init (l : list log_record) (files : gmap string file) (e : environment)
  : state :=
  let df := DataFrame_ in
  {| my_df := df;
     my_df_rows := shape0 df;
     log := l ++ [LogRecord INFO "MyPreprocessor class instance created." []];
     fs := files;
     env := e |}.

(** [d[k]] *)
Definition dict_getitem {K V} `{EqDecision K} (d : dict K V) (k : K) : result V :=
  match dict_get d k with
  | Some v => Return v
  | None => Raise KeyError
  end.

(** [if x: body], for a keyword argument [x]. *)
Definition if_truthy {A} `{Truthy A} (x : option A) (body : A → M state unit)
  : M state unit :=
  match x with
  | Some a => if bool_of a then body a else ret tt
  | None => ret tt
  end.

(** [for x in l: acc = body x acc], for a loop that updates local variables. *)
Fixpoint for_fold {A B} (l : list A) (acc : B) (body : A → B → M state B) : M state B :=
  match l with
  | [] => ret acc
  | x :: l' => acc' <- body x acc ;; for_fold l' acc' body
  end.

(** [path.rsplit(".")[-1]] *)
Definition file_extension (path : string) : string :=
  string_of_list_ascii (default [] (last (rsplit "."%char (list_ascii_of_string path)))).

Definition create_df (dictionary : option (dict string (list value)))
                     (path : option string) : M state unit :=
  logger_info "Method 'create_df' invoked." [] ;;
  if negb (truthy dictionary) && negb (truthy path) then
    logger_error "No data import scheme specified." []
  else if truthy dictionary && truthy path then
    logger_error "Too many data import schemes specified." []
  else
    if_truthy dictionary (λ dictionary,
      logger_debug "Dictionary was passed." [] ;;
      df <- lift (from_dict dictionary) ;;
      set_my_df df ;;
      logger_info "Created data frame from dictionary." []) ;;
    if_truthy path (λ path,
      let file_extension := file_extension path in
      if decide (file_extension = "csv") then
        logger_debug "File extension '.{file_extension}' was identified."
          [AStr file_extension] ;;
        s <- get ;;
        df <- lift (read_csv (fs s !! path)) ;;
        set_my_df df ;;
        logger_info "csv file read into data frame." []
      else if decide (file_extension = "xlsx") then
        logger_debug "File extension '.{file_extension}' was identified."
          [AStr file_extension] ;;
        s <- get ;;
        df <- lift (read_excel (fs s !! path)) ;;
        set_my_df df ;;
        logger_info "Excel file read into data frame." []
      else
        logger_error "File extension '.{file_extension}' is not supported."
          [AStr file_extension]).

(** The default of [path] is ["./my_data.csv"]. *)
Definition save_df (path : string) : M state unit :=
  logger_info "Method 'save_df' invoked." [] ;;
  let file_extension := file_extension path in
  if decide (file_extension = "csv") then
    logger_debug "File extension '.{file_extension}' was identified."
      [AStr file_extension] ;;
    s <- get ;;
    write_file path (TextFile (to_csv (my_df s))) ;;
    logger_info "Data frame saved to '{path}'." [AStr path]
  else if decide (file_extension = "xlsx") then
    logger_debug "File extension '.{file_extension}' was identified."
      [AStr file_extension] ;;
    s <- get ;;
    to_excel_file path (my_df s) ;;
    logger_info "Data frame saved to '{path}'." [AStr path]
  else
    logger_error "File extension '.{file_extension}' is not supported."
      [AStr file_extension].

Definition drop_cols (labels : list string) : M state unit :=
  logger_info "Method 'drop_cols' invoked." [] ;;
  for_ labels (λ label,
    s <- get ;;
    if in_columns label (my_df s) then
      logger_debug "Column '{label}' is existent." [AStr label] ;;
      df <- lift (drop_columns label (my_df s)) ;;
      set_my_df df ;;
      logger_info "Dropped column '{label}'." [AStr label]
    else
      logger_error "Column '{label}' is non-existent." [AStr label]).

Definition rename_cols (labels : dict string string) : M state unit :=
  logger_info "Method 'rename_cols' invoked." [] ;;
  for_ (dict_keys labels) (λ key,
    s <- get ;;
    if in_columns key (my_df s) then
      logger_debug "Column '{key}' is existent." [AStr key] ;;
      new <- lift (dict_getitem labels key) ;;
      set_my_df (rename_columns [(key, new)] (my_df s)) ;;
      logger_info "Renamed column '{key}' to '{labels[key]}'." [AStr key; AStr new]
    else
      logger_error "Column '{key}' is non-existent." [AStr key]).

(** The two statements that close each phase of [drop_rows]:
    [self.my_df_rows -= self.my_df_rows - self.my_df.shape[0]] and the
    log line that follows it. *)
Definition update_my_df_rows : M state unit :=
  s <- get ;;
  set_my_df_rows (my_df_rows s - (my_df_rows s - shape0 (my_df s))) ;;
  s <- get ;;
  logger_info "Remaining rows: {self.my_df_rows}." [AInt (my_df_rows s)].

Definition drop_rows (dupl na : bool) (labels : option (list value)) : M state unit :=
  logger_info "Method 'drop_rows' invoked." [] ;;
  (if dupl then
     s <- get ;;
     set_my_df (drop_duplicates (my_df s)) ;;
     s <- get ;;
     logger_info "Duplicate rows dropped: {self.my_df_rows - self.my_df.shape[0]}."
       [AInt (my_df_rows s - shape0 (my_df s))] ;;
     update_my_df_rows
   else ret tt) ;;
  (if na then
     s <- get ;;
     set_my_df (dropna (my_df s)) ;;
     s <- get ;;
     logger_info
       "Rows containing missing values dropped: {self.my_df_rows - self.my_df.shape[0]}."
       [AInt (my_df_rows s - shape0 (my_df s))] ;;
     update_my_df_rows
   else ret tt) ;;
  if_truthy labels (λ labels,
    for_ labels (λ label,
      s <- get ;;
      if in_index label (my_df s) then
        logger_debug "Label '{label}' is existent." [AVal label] ;;
        df <- lift (drop_index label (my_df s)) ;;
        set_my_df df ;;
        logger_info "Dropped row '{label}'." [AVal label]
      else
        logger_error "Row '{label}' is non-existent." [AVal label]) ;;
    s <- get ;;
    logger_info "user-defined rows dropped: {self.my_df_rows - self.my_df.shape[0]}."
      [AInt (my_df_rows s - shape0 (my_df s))] ;;
    update_my_df_rows).

(** [pd.unique(self.my_df[col_name])] *)
Definition unique_values (col_name : string) : M state (list value) :=
  s <- get ;;
  column <- lift (getitem col_name (my_df s)) ;;
  lift (unique (unique_of_frame (env s)) column).

(** The loop that fills [auto_dict]; it carries [(auto_dict, my_counter)]. *)
Definition auto_plan (values : list value) : dict value value * Z :=
  fold_left (λ '(auto_dict, my_counter) value,
               (dict_set auto_dict value (VInt my_counter), my_counter + 1))
            values ([], 0).

Definition recode (col_name : string) (auto : bool)
                  (customized : option (dict value value)) : M state unit :=
  logger_info "Method 'recode' invoked." [] ;;
  s <- get ;;
  if in_columns col_name (my_df s) then
    logger_debug "Column '{col_name}' is existent." [AStr col_name] ;;
    if negb (truthy customized) && negb (bool_of auto) then
      logger_error "No recoding scheme specified." []
    else if truthy customized && bool_of auto then
      logger_error "Too many recoding schemes specified." []
    else
      (if auto then
         values <- unique_values col_name ;;
         logger_debug
           "Unique values in column '{col_name}': {len(pd.unique(self.my_df[col_name]))}."
           [AStr col_name; AInt (Z.of_nat (length values))] ;;
         values <- unique_values col_name ;;
         let '(auto_dict, my_counter) := auto_plan values in
         s <- get ;;
         set_my_df (replace col_name auto_dict (my_df s)) ;;
         logger_debug "Unique values in column '{col_name}' auto recoded: {my_counter}."
           [AStr col_name; AInt my_counter] ;;
         logger_info "Coding plan: {auto_dict}" [ADict auto_dict]
       else ret tt) ;;
      if_truthy customized (λ customized,
        values <- unique_values col_name ;;
        logger_debug
          "Unique values in column '{col_name}': {len(pd.unique(self.my_df[col_name]))}."
          [AStr col_name; AInt (Z.of_nat (length values))] ;;
        plan <-
          for_fold (dict_keys customized) ([], 0) (λ key '(corr_dict, my_counter),
            values <- unique_values col_name ;;
            if ndarray_contains key values then
              logger_debug "Unique value '{key}' is existent." [AVal key] ;;
              new <- lift (dict_getitem customized key) ;;
              ret (dict_set corr_dict key new, my_counter + 1)
            else
              logger_error "Unique value '{key}' is non-existent." [AVal key] ;;
              ret (corr_dict, my_counter)) ;;
        let '(corr_dict, my_counter) := plan in
        s <- get ;;
        set_my_df (replace col_name corr_dict (my_df s)) ;;
        logger_debug
          "Unique values in column '{col_name}' user user-defined recoded: {my_counter}."
          [AStr col_name; AInt my_counter] ;;
        logger_info "Coding plan: {corr_dict}" [ADict corr_dict])
  else
    logger_error "Column '{col_name}' is non-existent." [AStr col_name].

End MyPreprocessor.

(** * Vocabulary of the specification *)

Import pd io MyPreprocessor.

(** ** Outcomes of a method body *)

(** [wp m Q E s]: run from [s], the body [m] either returns a result and
    a state that satisfy [Q], or raises in a state that satisfies [E]. *)
Definition wp {A} (m : M state A) (Q : A → state → Prop) (E : state → Prop)
    (s : state) : Prop :=
  match m s with
  | (Return a, s') => Q a s'
  | (Raise _, s') => E s'
  end.

(** No exception is raised. *)
Definition never : state → Prop := λ _, False.

(** The state [s] after the records [l] were logged and nothing else
    happened. *)
Definition logged (s : state) (l : list log_record) : state :=
  {| my_df := my_df s; my_df_rows := my_df_rows s; log := log s ++ l; fs := fs s; env := env s |}.

(** A state holding the table [df], with an empty log and no files, in the
    environment [plain]. *)
Definition holding (df : DataFrame) : state :=
  {| my_df := df; my_df_rows := shape0 df; log := []; fs := ∅; env := plain |}.

(** ** Calls and reachable states *)

(** The public operations, as calls, and the states a Preprocessor
    reaches through them.  An instance starts with an empty table, with
    any log, any files and any environment.  [admitted c s] says which
    calls [c] are considered in a state [s]. *)
Inductive call : Type :=
  | CreateDf (dictionary : option (dict string (list value))) (path : option string)
  | SaveDf (path : string)
  | DropCols (labels : list string)
  | RenameCols (labels : dict string string)
  | DropRows (dupl na : bool) (labels : option (list value))
  | Recode (col_name : string) (auto : bool) (customized : option (dict value value)).

Definition exec (c : call) : M state unit :=
  match c with
  | CreateDf dictionary path => create_df dictionary path
  | SaveDf path => save_df path
  | DropCols labels => drop_cols labels
  | RenameCols labels => rename_cols labels
  | DropRows dupl na labels => drop_rows dupl na labels
  | Recode col_name auto customized => recode col_name auto customized
  end.

Inductive reachable (admitted : call → state → Prop) : state → Prop :=
  | reachable_init (l : list log_record) (files : gmap string file) (e : environment) :
      reachable admitted (init l files e)
  | reachable_call (s : state) (c : call) :
      reachable admitted s → admitted c s → reachable admitted (exec c s).2.

(** The dicts passed for a table and for a renaming are dicts: their keys
    are pairwise distinct. *)
Definition proper_dicts (c : call) : Prop :=
  match c with
  | CreateDf (Some d) _ => NoDup (dict_keys d)
  | RenameCols labels => NoDup (dict_keys labels)
  | _ => True
  end.

(** A renaming introduces only new labels: the replacement labels are
    pairwise distinct and none of them labels a column already. *)
Definition renames_to_new_labels (c : call) (s : state) : Prop :=
  match c with
  | RenameCols labels =>
      NoDup labels.*2 ∧ ∀ new, new ∈ labels.*2 → new ∉ columns (my_df s)
  | _ => True
  end.

(** The rows of a table loaded from a csv file carry pairwise distinct
    labels.  (pandas takes the row labels from the file when the first
    data line has more fields than the header line.) *)
Definition loads_distinct_rows (c : call) (s : state) : Prop :=
  match c with
  | CreateDf _ (Some path) =>
      file_extension path = "csv"%string →
      ∀ df, read_csv (fs s !! path) = Return df → NoDup (index df)
  | _ => True
  end.

(** The calls that neither load a table nor drop rows. *)
Definition keeps_rows (c : call) : Prop :=
  match c with
  | CreateDf _ _ | DropRows _ _ _ => False
  | _ => True
  end.

(** ** Tables *)

(** The cells of a frame, row by row, without the row labels. *)
Definition cells (df : DataFrame) : list (list value) := (rows df).*2.

(** The labels [0, 1, ..., n-1]. *)
Definition range (n : nat) : list Z := Z.of_nat <$> seq 0 n.

(** The table held is well formed. *)
Definition well_formed (s : state) : Prop := wf (my_df s).

(** The column labels are pairwise distinct, when [with_columns] is set,
    and so are the row labels, when [with_rows] is set. *)
Definition distinct_labels (with_columns with_rows : bool) (df : DataFrame) : Prop :=
  (with_columns = true → NoDup (columns df)) ∧ (with_rows = true → NoDup (index df)).

Definition unique_labels (df : DataFrame) : Prop := distinct_labels true true df.

Definition labelled (with_columns with_rows : bool) (s : state) : Prop :=
  distinct_labels with_columns with_rows (my_df s).

(** The names given out so far are those at the positions visited, and no
    two of these positions hold the same name. *)
Definition given_at (visited : list nat) (st : list string * list string) : Prop :=
  (∀ x, x ∈ st.2 ↔ ∃ i, i ∈ visited ∧ st.1 !! i = Some x) ∧
  (∀ i j x, i ∈ visited → j ∈ visited →
            st.1 !! i = Some x → st.1 !! j = Some x → i = j).

(** The counter agrees with the table. *)
Definition synced (s : state) : Prop := my_df_rows s = shape0 (my_df s).

(** The counter is [n] and the table has [m] rows. *)
Definition row_count (n m : Z) (s : state) : Prop :=
  my_df_rows s = n ∧ shape0 (my_df s) = m.

(** "Keep the first occurrence": the head stays, and its later copies are
    removed from what follows. *)
Fixpoint first_occurrences {A} `{EqDecision A} (l : list A) : list A :=
  match l with
  | [] => []
  | x :: l' => x :: filter (λ y, y ≠ x) (first_occurrences l')
  end.

(** "First-encounter order": the code of a value is the number of distinct
    values the column shows above the first occurrence of that value. *)
Fixpoint before_first (v : value) (col : list value) : list value :=
  match col with
  | [] => []
  | x :: col' => if decide (x = v) then [] else x :: before_first v col'
  end.

Definition first_encounter_code (col : list value) (v : value) : value :=
  VInt (Z.of_nat (length (remove_dups (before_first v col)))).

(** The entries of [customized] that [recode] finds among the cells [col]
    of the column. *)
Definition found (col : list value) (kv : value * value) : bool :=
  ndarray_contains kv.1 (keep_first id [] col).

Definition applied_entries (col : list value) (customized : dict value value)
  : dict value value :=
  filter (λ kv, found col kv = true) customized.

(** ** What the calls log *)

(** [data_import] when the connection is reported failed: the two error
    records carry the status code and the reason phrase. *)
Definition failure_log (self : WebAPI.t) (connection : string) : list log_record :=
  [ LogRecord INFO "Method 'data_import' invoked." [];
    LogRecord DEBUG connection [];
    LogRecord ERROR "Code of responded HTTP Status: {self.my_data.status_code}"
      [AInt (requests.status_code (WebAPI.my_data self))];
    LogRecord ERROR "Reason of responded HTTP Status: {self.my_data.reason}"
      [AStr (requests.reason (WebAPI.my_data self))] ].

(** An automatic recoding of column [c], with cells [col]. *)
Definition auto_recoding_log (c : string) (col : list value) : list log_record :=
  let values := keep_first id [] col in
  [ LogRecord INFO "Method 'recode' invoked." [];
    LogRecord DEBUG "Column '{col_name}' is existent." [AStr c];
    LogRecord DEBUG
      "Unique values in column '{col_name}': {len(pd.unique(self.my_df[col_name]))}."
      [AStr c; AInt (Z.of_nat (length values))];
    LogRecord DEBUG "Unique values in column '{col_name}' auto recoded: {my_counter}."
      [AStr c; AInt (auto_plan values).2];
    LogRecord INFO "Coding plan: {auto_dict}" [ADict (auto_plan values).1] ].

(** A recoding of column [c], with cells [col], by the dict [customized]:
    one record for each entry. *)
Definition entry_record (col : list value) (kv : value * value) : log_record :=
  if found col kv
  then LogRecord DEBUG "Unique value '{key}' is existent." [AVal kv.1]
  else LogRecord ERROR "Unique value '{key}' is non-existent." [AVal kv.1].

Definition customized_recoding_log (c : string) (col : list value)
    (customized : dict value value) : list log_record :=
  [ LogRecord INFO "Method 'recode' invoked." [];
    LogRecord DEBUG "Column '{col_name}' is existent." [AStr c];
    LogRecord DEBUG
      "Unique values in column '{col_name}': {len(pd.unique(self.my_df[col_name]))}."
      [AStr c; AInt (Z.of_nat (length (keep_first id [] col)))] ]
  ++ (entry_record col <$> customized)
  ++ [ LogRecord DEBUG
         "Unique values in column '{col_name}' user user-defined recoded: {my_counter}."
         [AStr c; AInt (Z.of_nat (length (applied_entries col customized)))];
       LogRecord INFO "Coding plan: {corr_dict}"
         [ADict (applied_entries col customized)] ].

(** ** Scenarios *)

(** A 200 response with the body [{"a": 1}], a 404 response, and a 200
    response whose body does not parse. *)
Definition response_a1 : requests.Response :=
  {| requests.status_code := 200; requests.reason := "OK";
     requests.json := Return (requests.JObject [("a"%string, requests.JInt 1)]) |}.

Definition response_404 : requests.Response :=
  {| requests.status_code := 404; requests.reason := "Not Found";
     requests.json := Raise JSONDecodeError |}.

Definition response_bad_body : requests.Response :=
  {| requests.status_code := 200; requests.reason := "OK";
     requests.json := Raise JSONDecodeError |}.

(** The table of the duplicate-rows scenario: rows [[1,2],[1,2],[3,4]]. *)
Definition table_122134 : DataFrame :=
  {| columns := ["p"; "q"]%string;
     rows := [(0, [VInt 1; VInt 2]); (1, [VInt 1; VInt 2]); (2, [VInt 3; VInt 4])] |}.

(** A table that lost its only column after row 1 was dropped: it is
    reached by [create_df], [drop_rows(labels=[1])], [drop_cols(["x"])]. *)
Definition state_without_columns : state :=
  (drop_cols ["x"%string]
     (drop_rows false false (Some [VInt 1])
        (create_df (Some [("x"%string, [VInt 1; VInt 2; VInt 3])]) None
           (init [] ∅ plain)).2).2).2.

(** The table of the recoding scenarios: one column [c] with the values
    ["b", "a", "b", "c"]; and the state after that table was saved. *)
Definition table_babc : DataFrame :=
  {| columns := ["c"%string];
     rows := [(0, [VStr "b"]); (1, [VStr "a"]); (2, [VStr "b"]); (3, [VStr "c"])] |}.

Definition state_babc_saved : state := (save_df "out.csv" (holding table_babc)).2.

(** A column [c] that holds the number 1 and a missing value. *)
Definition table_1_nan : DataFrame :=
  {| columns := ["c"%string]; rows := [(0, [VInt 1]); (1, [VNaN])] |}.

(** The state of the stale-counter scenario: a fresh instance that loaded
    the column [x = [1, 1, 2]]. *)
Definition state_x112 : state :=
  (create_df (Some [("x"%string, [VInt 1; VInt 1; VInt 2])]) None (init [] ∅ plain)).2.

(** Two columns [a] and [b], then [a] renamed to [b]. *)
Definition state_ab : state :=
  (exec (CreateDf (Some [("a"%string, [VInt 1]); ("b"%string, [VInt 2])]) None)
        (init [] ∅ plain)).2.

Definition state_ab_renamed : state :=
  (exec (RenameCols [("a"%string, "b"%string)]) state_ab).2.

(** The same, in an environment [e]; and an environment in which
    [pd.unique], given a selection of several columns, returns their
    distinct labels. *)
Definition state_bb (e : environment) : state :=
  (exec (RenameCols [("a"%string, "b"%string)])
     (exec (CreateDf (Some [("a"%string, [VInt 1]); ("b"%string, [VInt 2])]) None)
           (init [] ∅ e)).2).2.

Definition naming : environment :=
  {| unique_of_frame := λ df, Return (keep_first id [] (VStr <$> columns df));
     directory := λ _, true |}.

(** The same two columns, then [a] renamed to the new label [c]. *)
Definition state_ac : state :=
  (exec (RenameCols [("a"%string, "c"%string)]) state_ab).2.

(** A csv file whose data lines are longer than its header line, loaded
    by a fresh instance. *)
Definition state_rows_of_file : state :=
  (exec (CreateDf None (Some "in.csv"%string))
        (init [] {[ "in.csv"%string :=
                      TextFile ("a" +:+ newline +:+ "1,2" +:+ newline
                                +:+ "1,3" +:+ newline) ]}
              plain)).2.

(** ** Further vocabulary *)

(** [WebAPI(url = url, headers = headers).data_import()] *)
Definition fetch (net : WebAPI.network) (url : string) (headers : dict string string)
  : M WebAPI.logs requests.JSON :=
  self <- WebAPI.init net url headers ;;
  WebAPI.data_import self.

(** The string holds no dot. *)
Definition dotless (s : string) : Prop := "."%char ∉ list_ascii_of_string s.

(** The first record every method writes. *)
Definition method_name (c : call) : string :=
  match c with
  | CreateDf _ _ => "create_df"
  | SaveDf _ => "save_df"
  | DropCols _ => "drop_cols"
  | RenameCols _ => "rename_cols"
  | DropRows _ _ _ => "drop_rows"
  | Recode _ _ _ => "recode"
  end.

Definition invoked (c : call) : log_record :=
  LogRecord INFO ("Method '" +:+ method_name c +:+ "' invoked.") [].

(** [s'] continues [s]: the log of [s] was extended, starting with the
    record [r]; with [same_files], the files are those of [s]. *)
Definition continues (same_files : bool) (s : state) (r : log_record) (s' : state)
  : Prop :=
  (same_files = true → fs s' = fs s) ∧ ∃ l, log s' = log s ++ r :: l.

(** * Properties *)

(** ** WebAPI.data_import *)

Section data_import.
Import requests WebAPI.

(** C2. With status code 200 the method returns the parsed JSON body; with
    any other status code it logs the status code and the reason phrase as
    errors and returns None, and no exception leaves the method. *)
Theorem data_import_by_status (self : WebAPI.t) (l : logs) :
  (∀ body, status_code (my_data self) = 200 →
           json (my_data self) = Return body →
           (data_import self l).1 = Return body) ∧
  (status_code (my_data self) ≠ 200 →
     data_import self l = (Return JNull, l ++ failure_log self "Connection failed.")).
Proof.
  split.
  - intros body Hcode Hbody.
    unfold data_import, try_except_Exception, bind, lift, logger_info,
      logger_debug, logger_log; simpl.
    rewrite bool_decide_eq_false_2 by (intros H; apply H, Hcode).
    simpl. by rewrite Hbody.
  - intros Hcode.
    unfold data_import, try_except_Exception, bind, raise, ret, logger_info,
      logger_debug, logger_error, logger_log, emit, logs_logging; simpl.
    rewrite bool_decide_eq_true_2 by done.
    simpl. by rewrite <- !app_assoc.
Qed.

Lemma data_import_by_status_witness :
  (data_import {| my_data := response_a1 |} []).1 = Return (JObject [("a"%string, JInt 1)]) ∧
  data_import {| my_data := response_404 |} []
  = (Return JNull, failure_log {| my_data := response_404 |} "Connection failed.").
Proof.
  split.
  - apply (proj1 (data_import_by_status {| my_data := response_a1 |} []));
      reflexivity.
  - apply (proj2 (data_import_by_status {| my_data := response_404 |} [])).
    simpl. lia.
Defined.

(** C3, as stated, fails: a body that does not parse on a 200 response does
    not make the method raise.  The call to [json()] stands inside the [try]
    block, so the parser's exception reaches [except Exception]. *)
Lemma data_import_parse_error_not_raised :
  (data_import {| my_data := response_bad_body |} []).1 ≠ Raise JSONDecodeError ∧
  (data_import {| my_data := response_bad_body |} []).1 = Return JNull.
Proof. split; [discriminate | reflexivity]. Qed.

(** C3, amended.  When the status code is 200 and [json()] raises an
    exception deriving from [Exception] (as the JSON decoding errors do),
    the handler of the method catches it: the status code and the reason
    are logged as errors and the method returns None. *)
Theorem data_import_parse_error_caught (self : WebAPI.t) (l : logs) (e : exn) :
  status_code (my_data self) = 200 →
  json (my_data self) = Raise e →
  isinstance_Exception e = true →
  data_import self l
  = (Return JNull, l ++ failure_log self "Connection succeeded.").
Proof.
  intros Hcode Hjson He.
  unfold data_import, try_except_Exception, bind, lift, ret, logger_info,
    logger_debug, logger_error, logger_log, emit, logs_logging; simpl.
  rewrite bool_decide_eq_false_2 by (intros H; apply H, Hcode).
  simpl. rewrite Hjson, He. simpl. by rewrite <- !app_assoc.
Qed.

Lemma data_import_parse_error_caught_witness :
  data_import {| my_data := response_bad_body |} []
  = (Return JNull, failure_log {| my_data := response_bad_body |} "Connection succeeded.").
Proof.
  apply (data_import_parse_error_caught {| my_data := response_bad_body |} []
           JSONDecodeError); reflexivity.
Defined.

End data_import.

(** ** Lists: first occurrences and fresh row labels *)

Section list_facts.
Context {A : Type} `{EqDecision A}.

Lemma keep_first_filter (seen l : list A) :
  keep_first id seen l = filter (λ x, x ∉ seen) (first_occurrences l).
Proof.
  revert seen. induction l as [|x l IH]; intros seen; [done|].
  cbn [keep_first first_occurrences id]. rewrite filter_cons.
  destruct (decide (x ∈ seen)) as [Hx|Hx].
  - rewrite decide_False by tauto. rewrite IH.
    symmetry. apply list_filter_filter_l. intros y Hy ->. done.
  - rewrite decide_True by done. f_equal. rewrite IH.
    rewrite list_filter_filter. apply list_filter_iff.
    intros y. rewrite not_elem_of_cons. tauto.
Qed.

Lemma keep_first_first_occurrences (l : list A) :
  keep_first id [] l = first_occurrences l.
Proof.
  rewrite keep_first_filter. induction (first_occurrences l) as [|x k IH]; [done|].
  rewrite filter_cons, decide_True by apply not_elem_of_nil. by rewrite IH.
Qed.

Lemma keep_first_snd {L : Type} (seen : list A) (l : list (L * A)) :
  (keep_first snd seen l).*2 = keep_first id seen l.*2.
Proof.
  revert seen. induction l as [|[i x] l IH]; intros seen; [done|].
  cbn [keep_first fmap list_fmap snd id]. destruct (decide (x ∈ seen)).
  - apply IH.
  - cbn. f_equal. apply IH.
Qed.

Lemma first_occurrences_elem (x : A) (l : list A) :
  x ∈ first_occurrences l ↔ x ∈ l.
Proof.
  induction l as [|y l IH]; [done|].
  cbn. rewrite !elem_of_cons, list_elem_of_filter, IH.
  destruct (decide (x = y)); naive_solver.
Qed.

Lemma first_occurrences_NoDup (l : list A) : NoDup (first_occurrences l).
Proof.
  induction l as [|y l IH]; cbn; constructor.
  - rewrite list_elem_of_filter. naive_solver.
  - by apply NoDup_filter.
Qed.

Lemma first_occurrences_sublist (l : list A) : sublist (first_occurrences l) l.
Proof.
  induction l as [|y l IH]; cbn; [done|].
  apply sublist_skip. etrans; [apply sublist_filter|done].
Qed.

End list_facts.

Lemma default_index_labels (l : list (list value)) :
  (default_index l).*1 = range (length l).
Proof.
  unfold default_index, range. rewrite fmap_imap.
  by rewrite <- (imap_seq_0 l Z.of_nat).
Qed.

Lemma default_index_cells (l : list (list value)) : (default_index l).*2 = l.
Proof.
  unfold default_index. rewrite fmap_imap.
  rewrite <- (list_fmap_id l) at 2. by rewrite <- imap_const.
Qed.

Lemma range_NoDup (n : nat) : NoDup (range n).
Proof. apply (NoDup_fmap_2 _), NoDup_seq. Qed.

(** ** Running a method body *)

Ltac run :=
  cbv beta iota zeta delta
    [create_df save_df drop_cols rename_cols drop_rows recode update_my_df_rows
     unique_values if_truthy truthy bool_of truthy_bool truthy_string truthy_list
     bind ret raise lift get set_my_df set_my_df_rows write_file to_excel_file
     logger_info logger_debug logger_error logger_log emit state_logging
     unique negb andb orb fst snd];
  cbn [my_df my_df_rows log fs env fst snd].

(** ** drop_rows(dupl=True) *)

Lemma drop_duplicates_nonempty (df : DataFrame) :
  empty df = false →
  columns (drop_duplicates df) = columns df ∧
  cells (drop_duplicates df) = first_occurrences (cells df) ∧
  index (drop_duplicates df) = range (length (first_occurrences (cells df))).
Proof.
  intros Hne. unfold drop_duplicates. rewrite Hne.
  unfold cells, index. cbn [columns rows].
  rewrite default_index_cells, default_index_labels, keep_first_snd.
  by rewrite keep_first_first_occurrences.
Qed.

(** On a table without columns pandas leaves the frame as it is, so the
    row labels 0 and 2 of the two remaining rows are not renumbered (and
    no row is removed). *)
Lemma drop_rows_dupl_keeps_labels_of_empty_frame :
  let s' := (drop_rows true false None state_without_columns).2 in
  index (my_df state_without_columns) = [0; 2] ∧
  index (my_df s') = [0; 2] ∧
  index (my_df s') ≠ range (length (rows (my_df s'))).
Proof. vm_compute. split_and!; [done..|discriminate]. Qed.

Lemma drop_duplicates_with_columns (df : DataFrame) :
  columns df ≠ [] →
  columns (drop_duplicates df) = columns df ∧
  cells (drop_duplicates df) = first_occurrences (cells df) ∧
  index (drop_duplicates df) = range (length (first_occurrences (cells df))).
Proof.
  intros Hcols. destruct (empty df) eqn:Hempty; [|by apply drop_duplicates_nonempty].
  unfold drop_duplicates. rewrite Hempty.
  unfold empty in Hempty. apply orb_true_iff in Hempty as [H|H];
    apply bool_decide_eq_true in H; [done|].
  unfold cells, index. by rewrite H.
Qed.

(** C6.  For every table with at least one column,
    [drop_rows(dupl=True)] returns normally, keeps the columns, keeps of
    the rows (compared on all their cells) exactly the first occurrence of
    each, in their order, and labels the remaining rows 0, 1, 2, ...; the
    counter [my_df_rows] ends as the number of remaining rows.  On the rows
    [[1,2],[1,2],[3,4]] the result is [[1,2],[3,4]] with row labels 0, 1.
    On a table without columns the call does not renumber: the statement
    [drop_duplicates(inplace=True, ignore_index=True)] asks for new labels,
    but pandas leaves a frame without columns as it is.  The rows labelled
    0 and 2 keep these labels, where [drop_rows(na=True)], which asks for
    new labels in the same way, gives the labels 0 and 1. *)
Theorem drop_rows_dupl_first_occurrences :
  (∀ s : state,
     columns (my_df s) ≠ [] →
     let r := drop_rows true false None s in
     r.1 = Return tt ∧
     columns (my_df r.2) = columns (my_df s) ∧
     cells (my_df r.2) = first_occurrences (cells (my_df s)) ∧
     index (my_df r.2) = range (length (cells (my_df r.2))) ∧
     my_df_rows r.2 = Z.of_nat (length (cells (my_df r.2)))) ∧
  my_df (drop_rows true false None (holding table_122134)).2
  = {| columns := ["p"; "q"]%string;
       rows := [(0, [VInt 1; VInt 2]); (1, [VInt 3; VInt 4])] |} ∧
  (columns (my_df state_without_columns) = [] ∧
   index (my_df state_without_columns) = [0; 2] ∧
   index (my_df (drop_rows true false None state_without_columns).2) = [0; 2] ∧
   index (my_df (drop_rows false true None state_without_columns).2) = [0; 1]).
Proof.
  split_and!; try by vm_compute.
  intros s Hne. run.
  destruct (drop_duplicates_with_columns (my_df s) Hne) as (Hc & Hr & Hi).
  rewrite Hc, Hr, Hi. split_and!; try done.
  unfold shape0. rewrite <- Hr. unfold cells. rewrite length_fmap. lia.
Qed.

Lemma drop_rows_dupl_first_occurrences_witness :
  columns table_122134 ≠ [] ∧
  cells (my_df (drop_rows true false None (holding table_122134)).2)
  = first_occurrences (cells table_122134).
Proof.
  split; [done|].
  apply (proj1 drop_rows_dupl_first_occurrences (holding table_122134)).
  done.
Defined.

(** ** Dictionaries *)

Section dict_facts.
Context {K V : Type} `{EqDecision K}.

Lemma dict_set_fresh (d : dict K V) (k : K) (v : V) :
  k ∉ dict_keys d → dict_set d k v = d ++ [(k, v)].
Proof.
  induction d as [|[k' v'] d IH]; [done|].
  cbn. rewrite not_elem_of_cons. intros [Hne Hk].
  rewrite decide_False by done. f_equal. by apply IH.
Qed.

Lemma dict_get_app_r (d1 d2 : dict K V) (k : K) :
  k ∉ dict_keys d1 → dict_get (d1 ++ d2) k = dict_get d2 k.
Proof.
  induction d1 as [|[k' v'] d1 IH]; [done|].
  cbn. rewrite not_elem_of_cons. intros [Hne Hk].
  rewrite decide_False by done. by apply IH.
Qed.

Lemma dict_get_None (d : dict K V) (k : K) :
  k ∉ dict_keys d → dict_get d k = None.
Proof.
  induction d as [|[k' v'] d IH]; [done|].
  cbn. rewrite not_elem_of_cons. intros [Hne Hk].
  rewrite decide_False by done. by apply IH.
Qed.

Lemma dict_get_Some_key (d : dict K V) (k : K) (v : V) :
  dict_get d k = Some v → k ∈ dict_keys d.
Proof.
  destruct (decide (k ∈ dict_keys d)) as [|Hk]; [done|].
  by rewrite dict_get_None.
Qed.

(** In a dict, every stored pair is what its key looks up. *)
Lemma dict_get_elem (d : dict K V) (k : K) (v : V) :
  NoDup (dict_keys d) → (k, v) ∈ d → dict_get d k = Some v.
Proof.
  induction d as [|[k' v'] d IH]; [by intros _ ?%elem_of_nil|].
  cbn. rewrite NoDup_cons, elem_of_cons. intros [Hk' Hd] [Heq|Hin].
  - injection Heq as -> ->. by rewrite decide_True.
  - rewrite decide_False; [by apply IH|].
    intros ->. apply Hk'. apply list_elem_of_fmap. by exists (k, v).
Qed.

End dict_facts.

(** ** recode(auto=True): the coding plan *)

Lemma first_occurrences_before_first (v : value) (col : list value) :
  v ∈ col →
  ∃ rest, first_occurrences col
          = first_occurrences (before_first v col) ++ v :: rest.
Proof.
  induction col as [|x col IH]; [by intros ?%elem_of_nil|].
  rewrite elem_of_cons. intros Hv. cbn [before_first first_occurrences].
  destruct (decide (x = v)) as [->|Hne].
  - eexists. reflexivity.
  - destruct IH as [rest Hrest]; [naive_solver|].
    exists (filter (λ y, y ≠ x) rest). cbn [first_occurrences].
    rewrite Hrest, filter_app, filter_cons, decide_True by done.
    by rewrite app_comm_cons.
Qed.

Lemma before_first_not_elem (v : value) (col : list value) :
  v ∉ before_first v col.
Proof.
  induction col as [|x col IH]; cbn; [apply not_elem_of_nil|].
  destruct (decide (x = v)); [apply not_elem_of_nil|].
  rewrite not_elem_of_cons. split; [congruence|done].
Qed.

Lemma length_first_occurrences (l : list value) :
  length (first_occurrences l) = length (remove_dups l).
Proof.
  apply Permutation_length, NoDup_Permutation.
  - apply first_occurrences_NoDup.
  - apply NoDup_remove_dups.
  - intros x. by rewrite first_occurrences_elem, elem_of_remove_dups.
Qed.

(** The loop of [recode] numbers distinct values in the order it meets them. *)
Lemma auto_plan_loop (u : list value) (acc : dict value value) (n : Z) :
  NoDup u → (∀ v, v ∈ u → v ∉ dict_keys acc) →
  fold_left (λ '(auto_dict, my_counter) value,
               (dict_set auto_dict value (VInt my_counter), my_counter + 1))
            u (acc, n)
  = (acc ++ imap (λ i v, (v, VInt (n + Z.of_nat i))) u, n + Z.of_nat (length u)).
Proof.
  revert acc n. induction u as [|x u IH]; intros acc n Hnd Hfresh.
  - cbn. by rewrite app_nil_r, Z.add_0_r.
  - apply NoDup_cons in Hnd as [Hx Hnd]. cbn [fold_left].
    rewrite dict_set_fresh by (apply Hfresh; left).
    rewrite IH; [|done|].
    + cbn [imap length]. rewrite <- app_assoc. cbn. f_equal; [|lia].
      f_equal. rewrite Z.add_0_r. f_equal.
      apply imap_ext. intros i y _. cbn. do 2 f_equal. lia.
    + intros v Hv. unfold dict_keys. rewrite fmap_app, not_elem_of_app. split.
      * apply Hfresh. by right.
      * cbn. rewrite not_elem_of_cons. split; [|apply not_elem_of_nil].
        intros ->. done.
Qed.

Lemma auto_plan_numbering (u : list value) :
  NoDup u →
  auto_plan u = (imap (λ i v, (v, VInt (Z.of_nat i))) u, Z.of_nat (length u)).
Proof.
  intros Hnd. unfold auto_plan. rewrite auto_plan_loop; [done|done|].
  intros v _. apply not_elem_of_nil.
Qed.

Lemma auto_plan_code (col : list value) (v : value) :
  v ∈ col →
  dict_get (auto_plan (keep_first id [] col)).1 v = Some (first_encounter_code col v).
Proof.
  intros Hv. rewrite keep_first_first_occurrences.
  rewrite auto_plan_numbering by apply first_occurrences_NoDup.
  destruct (first_occurrences_before_first v col Hv) as [rest ->].
  cbn [fst]. rewrite imap_app. rewrite dict_get_app_r.
  - cbn. rewrite decide_True by done. unfold first_encounter_code.
    by rewrite Nat.add_0_r, length_first_occurrences.
  - unfold dict_keys. rewrite fmap_imap.
    rewrite (imap_ext _ (const id)) by done. rewrite imap_const, list_fmap_id.
    rewrite first_occurrences_elem. apply before_first_not_elem.
Qed.

(** ** Selecting and replacing in one column *)

Section one_column.
Variables (c : string) (d : dict value value).

Let substitute (c' : string) (v : value) : value :=
  if decide (c' = c) then replace_cell d v else v.

Lemma mask_select_replace_same (cols : list string) (cs : list value) :
  mask_select (map (λ c', bool_decide (c' = c)) cols) (zip_with substitute cols cs)
  = replace_cell d <$> mask_select (map (λ c', bool_decide (c' = c)) cols) cs.
Proof.
  revert cs. induction cols as [|x cols IH]; intros [|v cs]; try done.
  cbn. unfold substitute at 1. destruct (decide (x = c)) as [->|Hne].
  - rewrite bool_decide_eq_true_2 by done. cbn. by rewrite IH.
  - rewrite bool_decide_eq_false_2 by done. apply IH.
Qed.

Lemma mask_select_replace_other (cols : list string) (cs : list value) :
  mask_select (map (λ c', bool_decide (c' ≠ c)) cols) (zip_with substitute cols cs)
  = mask_select (map (λ c', bool_decide (c' ≠ c)) cols) cs.
Proof.
  revert cs. induction cols as [|x cols IH]; intros [|v cs]; try done.
  cbn. unfold substitute at 1. destruct (decide (x = c)) as [->|Hne].
  - rewrite bool_decide_eq_false_2 by tauto. apply IH.
  - rewrite bool_decide_eq_true_2 by done. by rewrite IH.
Qed.

Lemma length_mask_select {A B} (mask : list bool) (l : list A) (k : list B) :
  length l = length k → length (mask_select mask l) = length (mask_select mask k).
Proof.
  revert l k. induction mask as [|b mask IH]; intros [|x l] [|y k]; try done.
  cbn. intros [= Hlen]. destruct b; cbn; auto.
Qed.

Lemma replace_columns (df : DataFrame) : columns (replace c d df) = columns df.
Proof. done. Qed.

Lemma replace_index (df : DataFrame) : index (replace c d df) = index df.
Proof.
  unfold index, replace. cbn [rows]. rewrite <- list_fmap_compose.
  by apply list_fmap_ext.
Qed.

Lemma replace_other_columns (df : DataFrame) :
  select_columns (λ c', bool_decide (c' ≠ c)) (replace c d df)
  = select_columns (λ c', bool_decide (c' ≠ c)) df.
Proof.
  unfold select_columns, replace. cbn [columns rows]. f_equal.
  rewrite <- list_fmap_compose. apply list_fmap_ext. intros _ [i cs] _.
  cbn. f_equal. apply mask_select_replace_other.
Qed.

Lemma getitem_replace (df : DataFrame) (col : list value) :
  wf df →
  getitem c df = Return (Series col) →
  getitem c (replace c d df) = Return (Series (replace_cell d <$> col)).
Proof.
  intros Hwf. unfold getitem, select_columns, replace. cbn [columns rows].
  destruct (mask_select _ (columns df)) as [|x [|y l]] eqn:Hsel; try done.
  intros [= <-]. do 2 f_equal.
  rewrite <- !list_fmap_compose. apply list_fmap_ext.
  intros _ [i cs] Hin%list_elem_of_lookup_2. cbn.
  fold substitute. rewrite mask_select_replace_same.
  pose proof (proj1 (Forall_forall _ _) Hwf _ Hin) as Hlen. cbn in Hlen.
  pose proof (length_mask_select (map (λ c', bool_decide (c' = c)) (columns df))
                _ _ Hlen) as Hlen'.
  rewrite Hsel in Hlen'.
  destruct (mask_select _ cs) as [|v [|??]]; done.
Qed.

Lemma getitem_Series_in_columns (df : DataFrame) (col : list value) :
  getitem c df = Return (Series col) → in_columns c df = true.
Proof.
  unfold getitem, select_columns, in_columns. cbn [columns].
  intros Hget. apply bool_decide_eq_true.
  destruct (decide (c ∈ columns df)) as [|Hc]; [done|]. exfalso.
  assert (mask_select (map (λ c', bool_decide (c' = c)) (columns df)) (columns df) = [])
    as Hnil.
  { clear Hget. induction (columns df) as [|x cols IH]; [done|].
    apply not_elem_of_cons in Hc as [Hne Hc]. cbn.
    rewrite bool_decide_eq_false_2 by done. by apply IH. }
  by rewrite Hnil in Hget.
Qed.

Lemma mask_select_absent {A} (cols : list string) (l : list A) :
  c ∉ cols → mask_select (map (λ c', bool_decide (c' = c)) cols) l = [].
Proof.
  revert l. induction cols as [|x cols IH]; intros [|a l] Hc; try done.
  apply not_elem_of_cons in Hc as [Hne Hc]. cbn.
  rewrite bool_decide_eq_false_2 by done. by apply IH.
Qed.

Lemma mask_select_present (cols : list string) :
  NoDup cols → c ∈ cols →
  mask_select (map (λ c', bool_decide (c' = c)) cols) cols = [c].
Proof.
  induction cols as [|x cols IH]; [by intros _ ?%elem_of_nil|].
  rewrite NoDup_cons. intros [Hx Hnd] Hc. cbn.
  destruct (decide (x = c)) as [->|Hne].
  - rewrite bool_decide_eq_true_2 by done. f_equal. by apply mask_select_absent.
  - rewrite bool_decide_eq_false_2 by done. apply IH; [done|].
    apply elem_of_cons in Hc as [?|?]; [congruence|done].
Qed.

(** With distinct column labels, the label of an existing column selects a
    Series. *)
Lemma getitem_existing_column (df : DataFrame) :
  NoDup (columns df) → c ∈ columns df →
  ∃ col, getitem c df = Return (Series col).
Proof.
  intros Hnd Hc. unfold getitem, select_columns. cbn [columns rows].
  rewrite mask_select_present by done. eauto.
Qed.

End one_column.

(** ** recode(auto=True) *)

(** The whole effect of an automatic recoding, for any [customized] that is
    not truthy (omitted, or an empty dict). *)
Lemma recode_auto_run (s : state) (c : string) (col : list value)
    (customized : option (dict value value)) :
  truthy customized = false →
  getitem c (my_df s) = Return (Series col) →
  recode c true customized s
  = (Return tt,
     {| my_df := replace c (auto_plan (keep_first id [] col)).1 (my_df s);
        my_df_rows := my_df_rows s;
        log := log s ++ auto_recoding_log c col;
        fs := fs s; env := env s |}).
Proof.
  intros Hcust Hget.
  pose proof (getitem_Series_in_columns _ _ _ Hget) as Hin.
  unfold auto_recoding_log.
  destruct (auto_plan (keep_first id [] col)) as [auto_dict n] eqn:Hplan.
  destruct customized as [[|kv customized]|]; try discriminate Hcust;
    run; rewrite Hin; run; rewrite !Hget; run; rewrite !Hget; run;
    rewrite Hplan; run; by rewrite <- !app_assoc.
Qed.

Lemma first_encounter_recoding (col : list value) :
  replace_cell (auto_plan (keep_first id [] col)).1 <$> col
  = first_encounter_code col <$> col.
Proof.
  apply list_fmap_ext. intros i v Hv%list_elem_of_lookup_2.
  unfold replace_cell. by rewrite auto_plan_code.
Qed.

Lemma mask_select_filter {A} (p : A → bool) (l : list A) :
  mask_select (map p l) l = filter (λ x, p x = true) l.
Proof.
  induction l as [|x l IH]; [done|]. rewrite filter_cons.
  cbn [map mask_select]. destruct (p x).
  - rewrite decide_True by done. by f_equal.
  - by rewrite decide_False by done.
Qed.

(** [df[c]] is a column exactly when one column carries the label [c]. *)
Lemma getitem_one_column (c : string) (df : DataFrame) :
  (∃ col, getitem c df = Return (Series col))
  ↔ filter (λ c', c' = c) (columns df) = [c].
Proof.
  assert (columns (select_columns (λ c', bool_decide (c' = c)) df)
          = filter (λ c', c' = c) (columns df)) as Hsub.
  { unfold select_columns. cbn [columns]. rewrite mask_select_filter.
    apply list_filter_iff. intros x. apply bool_decide_eq_true. }
  unfold getitem. rewrite Hsub.
  destruct (filter (λ c', c' = c) (columns df)) as [|x [|y l]] eqn:Hf.
  - split; [by intros [col ?]|done].
  - assert (x = c) as ->.
    { assert (x ∈ filter (λ c', c' = c) (columns df)) as Hx by (rewrite Hf; left).
      by apply list_elem_of_filter in Hx as [? _]. }
    split; [done|]. intros _. by eexists.
  - split; [by intros [col ?]|done].
Qed.




(** ** The argument checks of create_df and recode *)

(** C5, as stated, fails when "supplied" means "passed": an empty dict is
    passed together with [auto=True] (or with a path), both arguments are
    supplied, and the operation is carried out all the same. *)
Lemma both_supplied_not_skipped :
  my_df (recode "c" true (Some []) (holding table_babc)).2
  ≠ my_df (holding table_babc) ∧
  my_df (create_df (Some []) (Some "out.csv"%string) state_babc_saved).2
  ≠ my_df state_babc_saved.
Proof. split; vm_compute; discriminate. Qed.

(** C5, amended.  The checks look at the truth value of the arguments.
    When [dictionary] and [path] are both falsy or both truthy, [create_df]
    logs an error and changes nothing else; when column [col_name] exists
    and [customized] and [auto] are both falsy or both truthy, [recode] logs
    an error and changes nothing else.  The table is unchanged in both. *)
Theorem exclusive_arguments_by_truth_value :
  (∀ (s : state) dictionary (path : option string),
     truthy dictionary = truthy path →
     create_df dictionary path s
     = (Return tt,
        logged s
          [ LogRecord INFO "Method 'create_df' invoked." [];
            LogRecord ERROR
              (if truthy path then "Too many data import schemes specified."
               else "No data import scheme specified.") [] ])) ∧
  (∀ (s : state) (col_name : string) (auto : bool) customized,
     in_columns col_name (my_df s) = true →
     truthy customized = auto →
     recode col_name auto customized s
     = (Return tt,
        logged s
          [ LogRecord INFO "Method 'recode' invoked." [];
            LogRecord DEBUG "Column '{col_name}' is existent." [AStr col_name];
            LogRecord ERROR
              (if auto then "Too many recoding schemes specified."
               else "No recoding scheme specified.") [] ])).
Proof.
  split.
  - intros s dictionary path Heq. unfold logged.
    destruct dictionary as [[|kc dictionary]|], path as [[|a path]|];
      try discriminate Heq; run; by rewrite <- !app_assoc.
  - intros s col_name auto customized Hin Heq. unfold logged.
    destruct customized as [[|kv customized]|], auto;
      try discriminate Heq; run; rewrite Hin; run; by rewrite <- !app_assoc.
Qed.

Lemma exclusive_arguments_by_truth_value_witness :
  my_df (create_df (Some [("x"%string, [VInt 1])]) (Some "out.csv"%string)
           (holding table_babc)).2 = table_babc ∧
  my_df (recode "c" true (Some [(VStr "a", VStr "X")]) (holding table_babc)).2
  = table_babc.
Proof.
  split.
  - rewrite (proj1 exclusive_arguments_by_truth_value (holding table_babc)
               (Some [("x"%string, [VInt 1])]) (Some "out.csv"%string));
      reflexivity.
  - rewrite (proj2 exclusive_arguments_by_truth_value (holding table_babc)
               "c"%string true (Some [(VStr "a", VStr "X")]));
      reflexivity.
Defined.

(** C10.  Presence of an argument is its truth value.  [create_df] with an
    empty dict, or with an empty path, and nothing else logs "No data import
    scheme specified." and leaves the table as it was.  [recode] with
    [auto=True] and an empty dict for [customized] does exactly what
    [recode] with [auto=True] alone does: on a column [c] with cells [col]
    it carries out the automatic recoding, and no record about too many
    recoding schemes is logged. *)
Theorem presence_is_truthiness :
  (∀ s : state,
     create_df (Some []) None s
     = (Return tt, logged s [ LogRecord INFO "Method 'create_df' invoked." [];
                              LogRecord ERROR "No data import scheme specified." [] ]) ∧
     create_df None (Some EmptyString) s = create_df (Some []) None s ∧
     create_df (Some []) (Some EmptyString) s = create_df (Some []) None s) ∧
  (∀ (s : state) (c : string),
     recode c true (Some []) s = recode c true None s) ∧
  (∀ (s : state) (c : string) (col : list value),
     wf (my_df s) →
     getitem c (my_df s) = Return (Series col) →
     let r := recode c true (Some []) s in
     r.1 = Return tt ∧
     getitem c (my_df r.2) = Return (Series (first_encounter_code col <$> col)) ∧
     log r.2 = log s ++ auto_recoding_log c col ∧
     LogRecord ERROR "Too many recoding schemes specified." []
       ∉ auto_recoding_log c col).
Proof.
  split_and!.
  - intros s. split_and!; unfold logged; run; by rewrite <- ?app_assoc.
  - intros s c. unfold recode. run. reflexivity.
  - intros s c col Hwf Hget. cbv zeta.
    rewrite (recode_auto_run s c col (Some [])) by done. cbn [fst snd my_df log].
    split_and!; try done.
    + rewrite <- first_encounter_recoding. by apply getitem_replace.
    + unfold auto_recoding_log. rewrite !not_elem_of_cons.
      split_and!; try discriminate. apply not_elem_of_nil.
Qed.

Lemma presence_is_truthiness_witness :
  getitem "c" (my_df (recode "c" true (Some []) (holding table_babc)).2)
  = Return (Series (first_encounter_code [VStr "b"; VStr "a"; VStr "b"; VStr "c"]
                      <$> [VStr "b"; VStr "a"; VStr "b"; VStr "c"])).
Proof.
  apply (proj2 (proj2 presence_is_truthiness) (holding table_babc) "c"%string
           [VStr "b"; VStr "a"; VStr "b"; VStr "c"]).
  - repeat constructor.
  - reflexivity.
Defined.

(** ** Reasoning rules for method bodies *)

Section wp_rules.
Context {A B : Type}.
Implicit Types (Q : A → state → Prop) (E : state → Prop) (s : state).

Lemma wp_ret Q E s (a : A) : Q a s → wp (ret a) Q E s.
Proof. done. Qed.

Lemma wp_bind (m : M state B) (k : B → M state A) Q E s :
  wp m (λ b, wp (k b) Q E) E s → wp (bind m k) Q E s.
Proof. unfold wp, bind. by destruct (m s) as [[b|e] s']. Qed.

Lemma wp_lift Q E s (r : result A) :
  match r with Return a => Q a s | Raise _ => E s end → wp (lift r) Q E s.
Proof. unfold wp, lift. by destruct r. Qed.

Lemma wp_mono (m : M state A) Q Q' E E' s :
  wp m Q E s → (∀ a s', Q a s' → Q' a s') → (∀ s', E s' → E' s') → wp m Q' E' s.
Proof. unfold wp. destruct (m s) as [[a|e] s']; auto. Qed.

(** Whatever the outcome, a property established on both exits holds. *)
Lemma wp_always (m : M state A) (I : state → Prop) s :
  wp m (λ _, I) I s → I (m s).2.
Proof. unfold wp. by destruct (m s) as [[a|e] s']. Qed.

End wp_rules.

Lemma wp_returns (m : M state unit) (Q : state → Prop) s :
  wp m (λ _, Q) never s → (m s).1 = Return tt ∧ Q (m s).2.
Proof. unfold wp. by destruct (m s) as [[[]|e] s']. Qed.

Lemma wp_get (Q : state → state → Prop) E s : Q s s → wp get Q E s.
Proof. done. Qed.

Lemma wp_set_my_df df (Q : unit → state → Prop) E s :
  Q tt {| my_df := df; my_df_rows := my_df_rows s; log := log s; fs := fs s; env := env s |} →
  wp (set_my_df df) Q E s.
Proof. done. Qed.

Lemma wp_set_my_df_rows n (Q : unit → state → Prop) E s :
  Q tt {| my_df := my_df s; my_df_rows := n; log := log s; fs := fs s; env := env s |} →
  wp (set_my_df_rows n) Q E s.
Proof. done. Qed.

Lemma wp_write_file path f (Q : unit → state → Prop) E s :
  (if writable (env s) path
   then Q tt {| my_df := my_df s; my_df_rows := my_df_rows s; log := log s;
                fs := <[path := f]> (fs s); env := env s |}
   else E s) →
  wp (write_file path f) Q E s.
Proof. unfold wp, write_file. by destruct (writable (env s) path). Qed.

(** Writing a workbook either fails and leaves the state, or it saves
    some sheet and then returns or fails. *)
Lemma wp_to_excel_file path df (Q : unit → state → Prop) (E : state → Prop) s :
  E s →
  (∀ sheet, Q tt {| my_df := my_df s; my_df_rows := my_df_rows s; log := log s;
                    fs := <[path := Workbook sheet]> (fs s); env := env s |}) →
  (∀ sheet, E {| my_df := my_df s; my_df_rows := my_df_rows s; log := log s;
                 fs := <[path := Workbook sheet]> (fs s); env := env s |}) →
  wp (to_excel_file path df) Q E s.
Proof.
  intros HE HQ HE'. unfold to_excel_file, wp, bind, raise, ret, write_file.
  destruct (sheet_too_large df); [done|].
  destruct (to_excel df) as [sheet failure].
  destruct (writable (env s) path); [|done].
  destruct failure; [apply HE'|apply HQ].
Qed.

Lemma wp_logger lv m a (Q : unit → state → Prop) E s :
  Q tt (logged s [LogRecord lv m a]) → wp (logger_log lv m a) Q E s.
Proof. done. Qed.

(** A loop keeps an invariant that every pass keeps. *)
Lemma wp_for {A} (I : state → Prop) (l : list A) (body : A → M state unit)
    (Q : unit → state → Prop) E s :
  I s →
  (∀ x s', x ∈ l → I s' → wp (body x) (λ _, I) E s') →
  (∀ s', I s' → Q tt s') →
  wp (for_ l body) Q E s.
Proof.
  intros Hs Hbody HQ. revert s Hs.
  induction l as [|x l IH]; intros s Hs; [by apply HQ|].
  cbn [for_]. apply wp_bind. eapply wp_mono.
  - apply Hbody; [left|done].
  - intros [] s' Hs'. apply IH; [|done].
    intros y s'' Hy. apply Hbody. by right.
  - done.
Qed.

Lemma wp_for_fold {A B} (I : state → Prop) (l : list A) (acc : B)
    (body : A → B → M state B) (Q : B → state → Prop) E s :
  I s →
  (∀ x acc' s', x ∈ l → I s' → wp (body x acc') (λ _, I) E s') →
  (∀ acc' s', I s' → Q acc' s') →
  wp (for_fold l acc body) Q E s.
Proof.
  intros Hs Hbody HQ. revert acc s Hs.
  induction l as [|x l IH]; intros acc s Hs; [by apply HQ|].
  cbn [for_fold]. apply wp_bind. eapply wp_mono.
  - apply Hbody; [left|done].
  - intros acc' s' Hs'. apply IH; [|done].
    intros y acc'' s'' Hy. apply Hbody. by right.
  - done.
Qed.

Ltac wp_step :=
  lazymatch goal with
  | |- wp (bind _ _) _ _ _ => apply wp_bind
  | |- wp (ret _) _ _ _ => apply wp_ret
  | |- wp get _ _ _ => apply wp_get
  | |- wp (set_my_df _) _ _ _ => apply wp_set_my_df
  | |- wp (set_my_df_rows _) _ _ _ => apply wp_set_my_df_rows
  | |- wp (write_file _ _) _ _ _ =>
      apply wp_write_file; destruct (writable _ _) eqn:?
  | |- wp (to_excel_file _ _) _ _ _ =>
      apply wp_to_excel_file; [|intros ?|intros ?]
  | |- wp (logger_info _ _) _ _ _ => apply wp_logger
  | |- wp (logger_debug _ _) _ _ _ => apply wp_logger
  | |- wp (logger_error _ _) _ _ _ => apply wp_logger
  | |- wp (lift _) _ _ _ => apply wp_lift
  | |- wp update_my_df_rows _ _ _ => unfold update_my_df_rows
  end; cbn [my_df my_df_rows log fs env logged].

Ltac wp_run := repeat wp_step.

Ltac st_simpl := cbn [my_df my_df_rows log fs env logged] in *.

(** ** The row counter *)

(** The loop of [drop_rows] over the labels returns normally, touches
    neither the counter nor the files, and only appends to the log. *)
Lemma wp_drop_rows_loop (labels : list value) (Q : unit → state → Prop) E s :
  (∀ s', my_df_rows s' = my_df_rows s → (∃ l, log s' = log s ++ l) → Q tt s') →
  wp (for_ labels (λ label,
        s <- get ;;
        if in_index label (my_df s) then
          logger_debug "Label '{label}' is existent." [AVal label] ;;
          df <- lift (drop_index label (my_df s)) ;;
          set_my_df df ;;
          logger_info "Dropped row '{label}'." [AVal label]
        else
          logger_error "Row '{label}' is non-existent." [AVal label]))
     Q E s.
Proof.
  intros HQ.
  apply (wp_for (λ s', my_df_rows s' = my_df_rows s ∧ ∃ l, log s' = log s ++ l)).
  - split; [done|]. exists []. by rewrite app_nil_r.
  - intros x s' Hx [Hrows [l Hl]]. wp_run.
    destruct (in_index x (my_df s')) eqn:Hin.
    + wp_run. unfold drop_index. rewrite Hin. wp_run.
      split; [done|]. rewrite Hl, <- !app_assoc. eauto.
    + wp_run. split; [done|]. rewrite Hl, <- !app_assoc. eauto.
  - intros s' [? ?]. by apply HQ.
Qed.

Lemma drop_rows_resync (s : state) (dupl na : bool) (labels : option (list value)) :
  dupl || na || truthy labels = true →
  wp (drop_rows dupl na labels) (λ _, synced) never s.
Proof.
  intros Hran. unfold drop_rows, synced.
  destruct dupl, na, labels as [[|x l]|]; try discriminate Hran;
    cbn [if_truthy bool_of truthy_list]; wp_run;
    try (apply wp_drop_rows_loop; intros s' _ _; wp_run);
    lia.
Qed.

Lemma create_df_keeps_counter (s : state) dictionary (path : option string) :
  my_df_rows (create_df dictionary path s).2 = my_df_rows s.
Proof.
  apply (wp_always _ (λ s', my_df_rows s' = my_df_rows s)).
  unfold create_df.
  destruct dictionary as [[|kc d]|], path as [[|a p]|];
    cbn [truthy bool_of truthy_list truthy_string negb andb if_truthy];
    wp_run; try done;
    repeat first [ case_decide | progress wp_run | case_match ]; done.
Qed.

(** The first difference of row counts that a call of [drop_rows] logs, by
    the phase that runs first, is taken from the counter the call found. *)
Lemma drop_rows_first_delta_dupl (s : state) (na : bool) labels :
  wp (drop_rows true na labels)
     (λ _ s', ∃ l, log s'
        = log s ++ [ LogRecord INFO "Method 'drop_rows' invoked." [];
                     LogRecord INFO
                       "Duplicate rows dropped: {self.my_df_rows - self.my_df.shape[0]}."
                       [AInt (my_df_rows s - shape0 (drop_duplicates (my_df s)))] ]
                 ++ l)
     never s.
Proof.
  unfold drop_rows. destruct na, labels as [[|x l]|];
    cbn [if_truthy bool_of truthy_list]; wp_run;
    try (apply wp_drop_rows_loop; st_simpl; intros s' _ [l' Hl'];
         wp_run; rewrite Hl');
    rewrite <- !app_assoc; cbn [app]; eauto.
Qed.

Lemma drop_rows_first_delta_na (s : state) labels :
  wp (drop_rows false true labels)
     (λ _ s', ∃ l, log s'
        = log s ++ [ LogRecord INFO "Method 'drop_rows' invoked." [];
                     LogRecord INFO
                       "Rows containing missing values dropped: {self.my_df_rows - self.my_df.shape[0]}."
                       [AInt (my_df_rows s - shape0 (dropna (my_df s)))] ]
                 ++ l)
     never s.
Proof.
  unfold drop_rows. destruct labels as [[|x l]|];
    cbn [if_truthy bool_of truthy_list]; wp_run;
    try (apply wp_drop_rows_loop; st_simpl; intros s' _ [l' Hl'];
         wp_run; rewrite Hl');
    rewrite <- !app_assoc; cbn [app]; eauto.
Qed.

Lemma drop_rows_first_delta_labels (s : state) (labels : list value) :
  bool_of labels = true →
  wp (drop_rows false false (Some labels))
     (λ _ s', ∃ l, log s'
        = log s ++ LogRecord INFO "Method 'drop_rows' invoked." [] :: l
                ++ [ LogRecord INFO
                       "user-defined rows dropped: {self.my_df_rows - self.my_df.shape[0]}."
                       [AInt (my_df_rows s - shape0 (my_df s'))];
                     LogRecord INFO "Remaining rows: {self.my_df_rows}."
                       [AInt (shape0 (my_df s'))] ])
     never s.
Proof.
  intros Hl. unfold drop_rows. cbn [if_truthy]. rewrite Hl. wp_run.
  apply wp_drop_rows_loop. st_simpl. intros s' Hrows [l' Hl']. wp_run.
  exists l'. rewrite Hl', Hrows, <- !app_assoc. cbn [app]. repeat f_equal. lia.
Qed.

(** Calls other than [create_df] and [drop_rows] change neither the
    counter nor the number of rows. *)
Lemma shape0_select_columns (p : string → bool) (df : DataFrame) :
  shape0 (select_columns p df) = shape0 df.
Proof. unfold shape0, select_columns. cbn. by rewrite length_map. Qed.

Lemma shape0_replace (c : string) (d : dict value value) (df : DataFrame) :
  shape0 (replace c d df) = shape0 df.
Proof. unfold shape0, replace. cbn. by rewrite length_map. Qed.

Lemma shape0_drop_columns (label : string) (df df' : DataFrame) :
  drop_columns label df = Return df' → shape0 df' = shape0 df.
Proof.
  unfold drop_columns. case_match; [|done].
  intros [= <-]. apply shape0_select_columns.
Qed.

Section row_count.
Variables n m : Z.

Ltac wp_rows :=
  repeat first
    [ progress wp_run
    | lazymatch goal with
      | |- match ?r with Return _ => _ | Raise _ => _ end => destruct r eqn:?
      | |- wp (if ?c then _ else _) _ _ _ => destruct c eqn:?
      | |- wp (let '(_, _) := ?p in _) _ _ _ => destruct p
      | |- wp (unique_values _) _ _ _ => unfold unique_values
      end ];
  unfold row_count in *; st_simpl;
  rewrite ?shape0_replace, ?shape0_select_columns;
  try match goal with
      | H : drop_columns _ _ = Return _ |- _ => rewrite (shape0_drop_columns _ _ _ H)
      end;
  try done.

Lemma keeps_rows_row_count (c : call) (s : state) :
  keeps_rows c → row_count n m s →
  wp (exec c) (λ _, row_count n m) (row_count n m) s.
Proof.
  intros Hc Hs. destruct c as [| path | labels | labels | | col_name auto customized];
    try done; cbn [exec].
  - unfold save_df. wp_rows.
  - unfold drop_cols. wp_run.
    apply (wp_for (row_count n m)); [done| |done].
    intros x s' _ Hs'. wp_rows.
  - unfold rename_cols. wp_run.
    apply (wp_for (row_count n m)); [done| |done].
    intros x s' _ Hs'. wp_rows.
  - unfold recode. wp_run.
    destruct (in_columns col_name (my_df s)); [|wp_rows].
    wp_run.
    destruct customized as [[|kv d]|], auto;
      cbn [truthy bool_of truthy_list truthy_bool negb andb if_truthy];
      try (wp_rows; fail).
    wp_rows.
    apply (wp_for_fold (row_count n m)); [done| |].
    + intros key [corr_dict my_counter] s' _ Hs'. wp_rows.
    + intros [corr_dict my_counter] s' Hs'. wp_rows.
Qed.

End row_count.

(** C9, as stated, fails in its middle part: the counter need not differ
    from the number of rows until the next [drop_rows].  A fresh instance
    that loads three rows has the counter 0; it then loads a table without
    rows, which changes the number of rows, and the counter agrees with
    the table again, no [drop_rows] having been called. *)
Lemma second_load_restores_agreement :
  my_df_rows state_x112 = 0 ∧ shape0 (my_df state_x112) = 3 ∧
  my_df_rows (create_df (Some [("x"%string, [])]) None state_x112).2 = 0 ∧
  shape0 (my_df (create_df (Some [("x"%string, [])]) None state_x112).2) = 0.
Proof. by vm_compute. Qed.

(** C9, amended.  A call of [drop_rows] in which one of the three phases runs
    returns with [my_df_rows] equal to the number of rows of the table.
    [create_df] never assigns [my_df_rows]: after a load that changes the
    number of rows of a table the counter agreed with, the counter
    differs from the number of rows, and no call other than [drop_rows]
    (or another load) changes either of the two.  The first difference that
    the next [drop_rows] logs is computed from the counter as the call
    found it.
    So a fresh instance that loads three rows, two of them equal, keeps the
    counter 0, and [drop_rows(dupl=True)] then logs -2 rows as dropped
    before it sets the counter to 2. *)
Theorem my_df_rows_resynchronised_by_drop_rows_only :
  (∀ (s : state) (dupl na : bool) labels,
     dupl || na || truthy labels = true →
     let r := drop_rows dupl na labels s in
     r.1 = Return tt ∧ my_df_rows r.2 = shape0 (my_df r.2)) ∧
  (∀ (s : state) dictionary (path : option string),
     my_df_rows (create_df dictionary path s).2 = my_df_rows s) ∧
  (∀ (s : state) dictionary (path : option string),
     synced s →
     shape0 (my_df (create_df dictionary path s).2) ≠ shape0 (my_df s) →
     ¬ synced (create_df dictionary path s).2) ∧
  (∀ (s : state) (c : call),
     keeps_rows c →
     my_df_rows (exec c s).2 = my_df_rows s ∧
     shape0 (my_df (exec c s).2) = shape0 (my_df s)) ∧
  (∀ (s : state) (na : bool) labels,
     ∃ l, log (drop_rows true na labels s).2
          = log s ++ [ LogRecord INFO "Method 'drop_rows' invoked." [];
                       LogRecord INFO
                         "Duplicate rows dropped: {self.my_df_rows - self.my_df.shape[0]}."
                         [AInt (my_df_rows s - shape0 (drop_duplicates (my_df s)))] ]
                   ++ l) ∧
  (∀ (s : state) labels,
     ∃ l, log (drop_rows false true labels s).2
          = log s ++ [ LogRecord INFO "Method 'drop_rows' invoked." [];
                       LogRecord INFO
                         "Rows containing missing values dropped: {self.my_df_rows - self.my_df.shape[0]}."
                         [AInt (my_df_rows s - shape0 (dropna (my_df s)))] ]
                   ++ l) ∧
  (∀ (s : state) (labels : list value),
     bool_of labels = true →
     let r := drop_rows false false (Some labels) s in
     ∃ l, log r.2
          = log s ++ LogRecord INFO "Method 'drop_rows' invoked." [] :: l
                  ++ [ LogRecord INFO
                         "user-defined rows dropped: {self.my_df_rows - self.my_df.shape[0]}."
                         [AInt (my_df_rows s - shape0 (my_df r.2))];
                       LogRecord INFO "Remaining rows: {self.my_df_rows}."
                         [AInt (shape0 (my_df r.2))] ]) ∧
  (my_df_rows state_x112 = 0 ∧ shape0 (my_df state_x112) = 3 ∧
   let r := drop_rows true false None state_x112 in
   log r.2
   = log state_x112
     ++ [ LogRecord INFO "Method 'drop_rows' invoked." [];
          LogRecord INFO
            "Duplicate rows dropped: {self.my_df_rows - self.my_df.shape[0]}."
            [AInt (-2)];
          LogRecord INFO "Remaining rows: {self.my_df_rows}." [AInt 2] ] ∧
   my_df_rows r.2 = 2 ∧ shape0 (my_df r.2) = 2).
Proof.
  split; [|split; [|split; [|split; [|split; [|split; [|split]]]]]].
  - intros s dupl na labels Hran.
    apply (wp_returns _ synced), drop_rows_resync, Hran.
  - apply create_df_keeps_counter.
  - intros s dictionary path Hs Hshape. unfold synced in *.
    rewrite create_df_keeps_counter. congruence.
  - intros s c Hc.
    apply (wp_always _ (row_count (my_df_rows s) (shape0 (my_df s)))).
    by apply keeps_rows_row_count.
  - intros s na labels.
    by destruct (wp_returns _ _ _ (drop_rows_first_delta_dupl s na labels)).
  - intros s labels.
    by destruct (wp_returns _ _ _ (drop_rows_first_delta_na s labels)).
  - intros s labels Hl.
    by destruct (wp_returns _ _ _ (drop_rows_first_delta_labels s labels Hl)).
  - by vm_compute.
Qed.

Lemma my_df_rows_resynchronised_by_drop_rows_only_witness :
  my_df_rows (drop_rows true false None state_x112).2
  = shape0 (my_df (drop_rows true false None state_x112).2).
Proof.
  apply (proj1 my_df_rows_resynchronised_by_drop_rows_only state_x112 true false None).
  reflexivity.
Defined.

(** ** Loading and saving *)

Lemma create_df_from_dict (s : state) (d : dict string (list value)) (df : DataFrame) :
  bool_of d = true →
  from_dict d = Return df →
  create_df (Some d) None s
  = (Return tt,
     {| my_df := df; my_df_rows := my_df_rows s;
        log := log s ++ [ LogRecord INFO "Method 'create_df' invoked." [];
                          LogRecord DEBUG "Dictionary was passed." [];
                          LogRecord INFO "Created data frame from dictionary." [] ];
        fs := fs s; env := env s |}).
Proof.
  intros Hd Hdf. unfold create_df. cbn [truthy if_truthy]. rewrite Hd, Hdf.
  run. by rewrite <- !app_assoc.
Qed.

Lemma save_df_csv (s : state) (path : string) :
  file_extension path = "csv"%string →
  writable (env s) path = true →
  save_df path s
  = (Return tt,
     {| my_df := my_df s; my_df_rows := my_df_rows s;
        log := log s ++ [ LogRecord INFO "Method 'save_df' invoked." [];
                          LogRecord DEBUG
                            "File extension '.{file_extension}' was identified."
                            [AStr "csv"];
                          LogRecord INFO "Data frame saved to '{path}'." [AStr path] ];
        fs := <[path := TextFile (to_csv (my_df s))]> (fs s);
        env := env s |}).
Proof.
  intros Hext Hw. unfold save_df. rewrite Hext. rewrite decide_True by done.
  run. rewrite Hw. run. by rewrite <- !app_assoc.
Qed.

Lemma create_df_from_csv (s : state) (path : string) (df : DataFrame) :
  bool_of path = true →
  file_extension path = "csv"%string →
  read_csv (fs s !! path) = Return df →
  create_df None (Some path) s
  = (Return tt,
     {| my_df := df; my_df_rows := my_df_rows s;
        log := log s ++ [ LogRecord INFO "Method 'create_df' invoked." [];
                          LogRecord DEBUG
                            "File extension '.{file_extension}' was identified."
                            [AStr "csv"];
                          LogRecord INFO "csv file read into data frame." [] ];
        fs := fs s; env := env s |}).
Proof.
  intros Hpath Hext Hdf. unfold create_df. cbn [truthy if_truthy].
  rewrite Hpath, Hext. rewrite decide_True by done.
  run. rewrite Hdf. run. by rewrite <- !app_assoc.
Qed.

(** C8.  From any state, [create_df(dictionary={"x":[1,2]})], then
    [save_df(path="out.csv")], then [create_df(path="out.csv")] all return
    normally.  The file written holds the header [,x] and the lines [0,1]
    and [1,2]; the table read back has the column [x] with the values
    [1, 2], next to a column [Unnamed: 0] that carries the row labels that
    were written. *)
Theorem csv_round_trip (s : state) :
  let r1 := create_df (Some [("x"%string, [VInt 1; VInt 2])]) None s in
  let r2 := save_df "out.csv" r1.2 in
  let r3 := create_df None (Some "out.csv"%string) r2.2 in
  r1.1 = Return tt ∧ r2.1 = Return tt ∧ r3.1 = Return tt ∧
  fs r2.2 !! "out.csv"%string
  = Some (TextFile (",x" +:+ newline +:+ "0,1" +:+ newline +:+ "1,2" +:+ newline)) ∧
  my_df r3.2 = {| columns := ["Unnamed: 0"; "x"]%string;
                  rows := [(0, [VInt 0; VInt 1]); (1, [VInt 1; VInt 2])] |} ∧
  getitem "x" (my_df r3.2) = Return (Series [VInt 1; VInt 2]).
Proof.
  cbv zeta.
  rewrite (create_df_from_dict s _
             {| columns := ["x"%string]; rows := [(0, [VInt 1]); (1, [VInt 2])] |})
    by reflexivity.
  cbn [fst snd]. rewrite save_df_csv by reflexivity. cbn [fst snd my_df fs].
  assert (read_csv (Some (TextFile (to_csv
            {| columns := ["x"%string]; rows := [(0, [VInt 1]); (1, [VInt 2])] |})))
          = Return {| columns := ["Unnamed: 0"; "x"]%string;
                      rows := [(0, [VInt 0; VInt 1]); (1, [VInt 1; VInt 2])] |})
    as Hread by (by vm_compute).
  rewrite (create_df_from_csv _ "out.csv" _ eq_refl eq_refl
             (eq_trans (f_equal read_csv (lookup_insert_eq _ _ _)) Hread)).
  cbn [fst snd my_df fs]. rewrite lookup_insert_eq.
  split_and!; try done; by vm_compute.
Qed.

(** ** recode(customized=...) *)

Lemma ndarray_contains_spec (k : value) (l : list value) :
  ndarray_contains k l = true ↔ k ≠ VNaN ∧ k ∈ l.
Proof.
  unfold ndarray_contains. rewrite existsb_exists. split.
  - intros (v & Hv%list_elem_of_In & Heq). unfold py_eq in Heq.
    destruct v, k; try done; apply bool_decide_eq_true in Heq as <-; done.
  - intros [Hk Hin]. exists k. split; [by apply list_elem_of_In|].
    unfold py_eq. destruct k; try done; by apply bool_decide_eq_true.
Qed.

Lemma bind_Return {A B} (m : M state A) (k : A → M state B) (s s' : state) (a : A) :
  m s = (Return a, s') → bind m k s = k a s'.
Proof. unfold bind. by intros ->. Qed.

Lemma bind_logger {B} lv m a (k : unit → M state B) (s : state) :
  bind (logger_log lv m a) k s = k tt (logged s [LogRecord lv m a]).
Proof. done. Qed.

Lemma bind_get {B} (k : state → M state B) (s : state) : bind get k s = k s s.
Proof. done. Qed.

Lemma bind_ret {A B} (a : A) (k : A → M state B) (s : state) : bind (ret a) k s = k a s.
Proof. done. Qed.

Lemma bind_set_my_df {B} df (k : unit → M state B) (s : state) :
  bind (set_my_df df) k s
  = k tt {| my_df := df; my_df_rows := my_df_rows s; log := log s; fs := fs s; env := env s |}.
Proof. done. Qed.

Lemma logged_logged (s : state) (l1 l2 : list log_record) :
  logged (logged s l1) l2 = logged s (l1 ++ l2).
Proof. unfold logged. cbn. by rewrite app_assoc. Qed.

Lemma logged_nil (s : state) : logged s [] = s.
Proof. unfold logged. rewrite app_nil_r. by destruct s. Qed.

Section customized.
Variables (c : string) (col : list value) (customized : dict value value).

Let pass (key : value) (plan : dict value value * Z) : M state (dict value value * Z) :=
  let '(corr_dict, my_counter) := plan in
  values <- unique_values c ;;
  if ndarray_contains key values then
    logger_debug "Unique value '{key}' is existent." [AVal key] ;;
    new <- lift (dict_getitem customized key) ;;
    ret (dict_set corr_dict key new, my_counter + 1)
  else
    logger_error "Unique value '{key}' is non-existent." [AVal key] ;;
    ret (corr_dict, my_counter).

Lemma unique_values_Series (s : state) :
  getitem c (my_df s) = Return (Series col) →
  unique_values c s = (Return (keep_first id [] col), s).
Proof. intros Hget. unfold unique_values. run. by rewrite Hget. Qed.

Lemma customized_pass (k w : value) (acc : dict value value) (n : Z) (s : state) :
  getitem c (my_df s) = Return (Series col) →
  dict_get customized k = Some w →
  k ∉ dict_keys acc →
  pass k (acc, n) s
  = (Return (acc ++ applied_entries col [(k, w)],
             n + Z.of_nat (length (applied_entries col [(k, w)]))),
     logged s [entry_record col (k, w)]).
Proof.
  intros Hget Hlook Hfresh. unfold pass.
  rewrite (bind_Return _ _ _ _ _ (unique_values_Series s Hget)).
  unfold applied_entries, entry_record. rewrite filter_cons, filter_nil.
  unfold found. cbn [fst].
  destruct (ndarray_contains k (keep_first id [] col)) eqn:Hfound.
  - rewrite decide_True by done. unfold dict_getitem. rewrite Hlook. run.
    by rewrite dict_set_fresh.
  - rewrite decide_False by done. run. by rewrite app_nil_r, Z.add_0_r.
Qed.

Lemma customized_loop (pairs : dict value value) (acc : dict value value) (n : Z)
    (s : state) :
  getitem c (my_df s) = Return (Series col) →
  (∀ kv, kv ∈ pairs → dict_get customized kv.1 = Some kv.2) →
  NoDup (dict_keys pairs) →
  (∀ k, k ∈ dict_keys pairs → k ∉ dict_keys acc) →
  for_fold (dict_keys pairs) (acc, n) pass s
  = (Return (acc ++ applied_entries col pairs,
             n + Z.of_nat (length (applied_entries col pairs))),
     logged s (entry_record col <$> pairs)).
Proof.
  revert acc n s.
  induction pairs as [|[k w] pairs IH]; intros acc n s Hget Hlook Hnd Hfresh.
  - cbn. unfold ret. by rewrite app_nil_r, Z.add_0_r, logged_nil.
  - cbn [dict_keys fmap list_fmap for_fold fst] in *.
    apply NoDup_cons in Hnd as [Hk Hnd].
    rewrite (bind_Return _ _ _ _ _
               (customized_pass k w acc n s Hget (Hlook (k, w) ltac:(left))
                  (Hfresh k ltac:(left)))).
    fold (dict_keys pairs). rewrite IH; try done.
    + rewrite logged_logged. unfold applied_entries.
      rewrite (filter_cons _ (k, w) pairs), !filter_cons, !filter_nil.
      destruct (decide (found col (k, w) = true)); cbn [length app];
        rewrite <- ?app_assoc, ?app_nil_r; do 2 f_equal;
        apply pair_equal_spec; (split; [done|lia]).
    + intros kv Hkv. apply Hlook. by right.
    + intros k' Hk'. unfold dict_keys. rewrite fmap_app, not_elem_of_app.
      split; [apply Hfresh; by right|].
      unfold applied_entries. rewrite filter_cons, filter_nil.
      destruct (decide (found col (k, w) = true)); cbn;
        [|apply not_elem_of_nil].
      rewrite not_elem_of_cons. split; [|apply not_elem_of_nil].
      intros ->. done.
Qed.

Lemma recode_customized_run (s : state) :
  bool_of customized = true →
  NoDup (dict_keys customized) →
  getitem c (my_df s) = Return (Series col) →
  recode c false (Some customized) s
  = (Return tt,
     {| my_df := replace c (applied_entries col customized) (my_df s);
        my_df_rows := my_df_rows s;
        log := log s ++ customized_recoding_log c col customized;
        fs := fs s; env := env s |}).
Proof.
  intros Htruthy Hnd Hget.
  pose proof (getitem_Series_in_columns _ _ _ Hget) as Hin.
  unfold recode. cbn [truthy if_truthy bool_of truthy_bool negb andb].
  rewrite Htruthy. cbn [negb andb]. unfold bool_of, truthy_bool.
  unfold logger_info, logger_debug, logger_error.
  rewrite bind_logger, bind_get. st_simpl. rewrite Hin.
  rewrite bind_logger, bind_ret, logged_logged.
  erewrite bind_Return by (apply unique_values_Series; exact Hget).
  rewrite bind_logger, logged_logged.
  fold pass.
  erewrite bind_Return;
    [|apply customized_loop;
      [exact Hget
      |intros [k w] Hkv; by apply dict_get_elem
      |exact Hnd
      |intros k _; apply not_elem_of_nil]].
  cbv beta iota.
  rewrite bind_get, bind_set_my_df, bind_logger. unfold logger_log.
  st_simpl. unfold emit, state_logging, customized_recoding_log. st_simpl.
  rewrite <- !app_assoc. cbn [app]. done.
Qed.

End customized.

Lemma found_spec (col : list value) (k w : value) :
  found col (k, w) = true ↔ k ≠ VNaN ∧ k ∈ col.
Proof.
  unfold found. cbn [fst].
  by rewrite ndarray_contains_spec, keep_first_first_occurrences,
    first_occurrences_elem.
Qed.

Lemma applied_entries_get (col : list value) (customized : dict value value)
    (k w : value) :
  NoDup (dict_keys customized) → (k, w) ∈ customized → k ≠ VNaN → k ∈ col →
  dict_get (applied_entries col customized) k = Some w.
Proof.
  intros Hnd Hin Hk Hcol. apply dict_get_elem.
  - apply (sublist_NoDup _ (dict_keys customized)); [exact Hnd|].
    apply fmap_sublist, sublist_filter.
  - apply list_elem_of_filter. split; [|done]. by apply found_spec.
Qed.

Lemma applied_entries_miss (col : list value) (customized : dict value value)
    (v : value) :
  v ∉ dict_keys customized ∨ v = VNaN →
  dict_get (applied_entries col customized) v = None.
Proof.
  intros Hv. apply dict_get_None. unfold dict_keys.
  intros ([k w] & Heq & [Hfound Hin]%list_elem_of_filter)%list_elem_of_fmap.
  cbn in Heq. subst v.
  apply found_spec in Hfound as [Hk _]. destruct Hv as [Hv|Hv]; [|done].
  apply Hv. apply list_elem_of_fmap. by exists (k, w).
Qed.

(** What holds of C7 on the code: for a non-empty dict [customized] and a
    column [c] with cells [col], the call returns normally; every entry
    whose key is not NaN and occurs in the column is applied to all the
    occurrences of the key; cells that are not a key, and missing cells,
    stay; and for every entry whose key does not occur, and for a NaN key,
    an error is logged. *)
Lemma recode_customized_entries (s : state) (c : string) (col : list value)
    (customized : dict value value) :
  bool_of customized = true →
  NoDup (dict_keys customized) →
  wf (my_df s) →
  getitem c (my_df s) = Return (Series col) →
  let r := recode c false (Some customized) s in
  r.1 = Return tt ∧
  ∃ col', getitem c (my_df r.2) = Return (Series col') ∧
    (∀ k w i, (k, w) ∈ customized → k ≠ VNaN → col !! i = Some k →
              col' !! i = Some w) ∧
    (∀ v i, v ∉ dict_keys customized ∨ v = VNaN → col !! i = Some v →
            col' !! i = Some v) ∧
    (∀ k w, (k, w) ∈ customized → k ∉ col ∨ k = VNaN →
            LogRecord ERROR "Unique value '{key}' is non-existent." [AVal k]
              ∈ log r.2).
Proof.
  intros Htruthy Hnd Hwf Hget. cbv zeta.
  rewrite recode_customized_run with (col := col) by done. cbn [fst snd my_df log].
  split; [done|]. eexists. split; [by apply getitem_replace|]. split_and!.
  - intros k w i Hin Hk Hi. rewrite list_lookup_fmap, Hi. cbn. f_equal.
    unfold replace_cell. rewrite (applied_entries_get col customized k w); try done.
    by apply list_elem_of_lookup_2 in Hi.
  - intros v i Hv Hi. rewrite list_lookup_fmap, Hi. cbn. f_equal.
    unfold replace_cell. by rewrite applied_entries_miss.
  - intros k w Hin Hk. unfold customized_recoding_log.
    rewrite !elem_of_app. right. right. left.
    apply list_elem_of_fmap. exists (k, w). split; [|done].
    unfold entry_record. destruct (found col (k, w)) eqn:Hfound; [|done].
    apply found_spec in Hfound as [? ?]. by destruct Hk.
Qed.

(** C7 on a NaN key.  The column holds a missing value and the mapping has
    an entry for it, so the key occurs among the values of the column; yet
    [key in pd.unique(...)] compares with [==], under which NaN equals
    nothing: the entry is reported as non-existent and is not applied.  The
    automatic recoding of the same column does replace the missing value. *)
Theorem recode_customized_nan_key_not_applied :
  let s := holding table_1_nan in
  let r := recode "c" false (Some [(VNaN, VInt 0)]) s in
  getitem "c" (my_df s) = Return (Series [VInt 1; VNaN]) ∧
  r.1 = Return tt ∧
  getitem "c" (my_df r.2) = Return (Series [VInt 1; VNaN]) ∧
  LogRecord ERROR "Unique value '{key}' is non-existent." [AVal VNaN] ∈ log r.2 ∧
  getitem "c" (my_df (recode "c" true None s).2) = Return (Series [VInt 0; VInt 1]).
Proof.
  cbv zeta. split_and!; try by vm_compute.
  vm_compute. apply list_elem_of_In. cbn. tauto.
Qed.

Create HintDb labels discriminated.

(** ** Labels stay distinct *)

Lemma mask_select_sublist {A} (mask : list bool) (l : list A) :
  sublist (mask_select mask l) l.
Proof.
  revert l. induction mask as [|b mask IH]; intros [|x l]; cbn; try done.
  - apply sublist_nil_l.
  - destruct b; [by apply sublist_skip|by apply sublist_cons].
Qed.

Lemma candidates_NoDup (name : string) (n : nat) :
  NoDup (map (λ k : nat, name +:+ "." +:+ pretty k) (seq 1 n)).
Proof.
  apply NoDup_fmap_2_strong; [|apply NoDup_seq].
  intros i j _ _ Heq. apply String.app_inj, String.app_inj in Heq.
  by apply (inj pretty).
Qed.

(** Among [length seen + 1] distinct candidates one is not in [seen]. *)
Lemma fresh_name_fresh (seen : list string) (name : string) :
  fresh_name seen name ∉ seen.
Proof.
  unfold fresh_name.
  set (cands := map _ (seq 1 (S (length seen)))).
  destruct (filter (λ c, c ∉ seen) cands) as [|c rest] eqn:Hf.
  - exfalso.
    assert (cands ⊆+ seen) as Hsub.
    { apply NoDup_submseteq; [apply candidates_NoDup|].
      intros x Hx. destruct (decide (x ∈ seen)) as [|Hn]; [done|].
      assert (x ∈ filter (λ c, c ∉ seen) cands) as Hin
        by (by apply list_elem_of_filter).
      rewrite Hf in Hin. by apply elem_of_nil in Hin. }
    apply submseteq_length in Hsub. unfold cands in Hsub.
    rewrite length_map, length_seq in Hsub. lia.
  - cbn. assert (c ∈ filter (λ c, c ∉ seen) cands) as Hin by (rewrite Hf; left).
    by apply list_elem_of_filter in Hin as [? _].
Qed.

Lemma length_mangle_at (st : list string * list string) (i : nat) :
  length (mangle_at st i).1 = length st.1.
Proof. unfold mangle_at. case_match; [|done]. cbn. by rewrite length_insert. Qed.

Lemma mangle_at_given (visited : list nat) (st : list string * list string) (i : nat) :
  given_at visited st → i ∉ visited → given_at (i :: visited) (mangle_at st i).
Proof.
  intros [Hg Hinj] Hi. unfold mangle_at.
  destruct (st.1 !! i) as [col|] eqn:Hcol.
  - set (col' := if decide (col ∈ st.2) then fresh_name st.1 col else col).
    assert (∀ j, j ∈ visited → st.1 !! j ≠ Some col') as Hfresh.
    { intros j Hj Hjc. unfold col' in Hjc. destruct (decide (col ∈ st.2)) as [|Hn].
      - apply (fresh_name_fresh st.1 col). by eapply list_elem_of_lookup_2.
      - apply Hn, Hg. eauto. }
    assert (<[i:=col']> st.1 !! i = Some col') as Hii
      by (apply list_lookup_insert_eq; by eapply lookup_lt_Some).
    assert (∀ j, j ∈ visited → <[i:=col']> st.1 !! j = st.1 !! j) as Hother.
    { intros j Hj. apply list_lookup_insert_ne. by intros ->. }
    split; cbn [fst snd].
    + intros x. rewrite elem_of_cons. split.
      * intros [->|Hx]; [exists i; split; [left|done]|].
        apply Hg in Hx as (j & Hj & Hjx). exists j. split; [by right|].
        by rewrite Hother.
      * intros (j & [->|Hj]%elem_of_cons & Hjx).
        -- left. congruence.
        -- right. apply Hg. exists j. split; [done|]. by rewrite <- Hother.
    + intros j k x [->|Hj]%elem_of_cons [->|Hk]%elem_of_cons Hjx Hkx; [done| | |].
      * exfalso. rewrite Hother in Hkx by done. apply (Hfresh k Hk). congruence.
      * exfalso. rewrite Hother in Hjx by done. apply (Hfresh j Hj). congruence.
      * rewrite Hother in Hjx, Hkx by done. by eapply Hinj.
  - split.
    + intros x. split.
      * intros (j & Hj & Hjx)%Hg. exists j. split; [by right|done].
      * intros (j & [->|Hj]%elem_of_cons & Hjx); [congruence|]. apply Hg. eauto.
    + intros j k x [->|Hj]%elem_of_cons [->|Hk]%elem_of_cons Hjx Hkx;
        try congruence. by eapply Hinj.
Qed.

Lemma fold_mangle_at_given (order visited : list nat) (st : list string * list string) :
  NoDup (order ++ visited) → given_at visited st →
  given_at (reverse order ++ visited) (fold_left mangle_at order st).
Proof.
  revert visited st. induction order as [|i order IH]; intros visited st Hnd Hst; [done|].
  cbn [fold_left]. rewrite reverse_cons, <- app_assoc. cbn [app].
  cbn [app] in Hnd. apply NoDup_cons in Hnd as [Hi Hnd].
  apply IH.
  - apply NoDup_app in Hnd as (H1 & H2 & H3). apply NoDup_app. split_and!; [done| |].
    + intros x Hx [->|Hv]%elem_of_cons; [|by eapply H2].
      apply Hi, elem_of_app. by left.
    + apply NoDup_cons. split; [|done]. intros Hv. apply Hi, elem_of_app. by right.
  - apply mangle_at_given; [done|]. intros Hv. apply Hi, elem_of_app. by right.
Qed.

Lemma length_fold_mangle_at (order : list nat) (st : list string * list string) :
  length (fold_left mangle_at order st).1 = length st.1.
Proof.
  revert st. induction order as [|i order IH]; intros st; [done|].
  cbn [fold_left]. by rewrite IH, length_mangle_at.
Qed.

Lemma visiting_order_NoDup (hdr : list string) : NoDup (visiting_order hdr).
Proof.
  unfold visiting_order. apply NoDup_app. split_and!.
  - apply NoDup_filter, NoDup_seq.
  - intros i [Hi _]%list_elem_of_filter [Hi' _]%list_elem_of_filter. done.
  - apply NoDup_filter, NoDup_seq.
Qed.

Lemma visiting_order_all (hdr : list string) (i : nat) :
  (i < length hdr)%nat → i ∈ visiting_order hdr.
Proof.
  intros Hi. unfold visiting_order. apply elem_of_app.
  assert (i ∈ seq 0 (length hdr)) by (apply elem_of_seq; lia).
  destruct (decide (hdr !! i = Some EmptyString)).
  - right. by apply list_elem_of_filter.
  - left. by apply list_elem_of_filter.
Qed.

Lemma length_header_names (hdr : list string) :
  length (header_names hdr) = length hdr.
Proof. unfold header_names. rewrite length_fold_mangle_at. apply length_imap. Qed.

Lemma header_names_NoDup (hdr : list string) : NoDup (header_names hdr).
Proof.
  pose proof (fold_mangle_at_given (visiting_order hdr) [] (imap placeholder hdr, [])) as H.
  rewrite app_nil_r in H. destruct H as [_ Hinj].
  - apply visiting_order_NoDup.
  - split; [|by intros i j x ?%elem_of_nil].
    intros x. split; [by intros ?%elem_of_nil|by intros (i & ?%elem_of_nil & _)].
  - apply NoDup_alt. intros i j x Hi Hj.
    assert (∀ k, header_names hdr !! k = Some x → k ∈ reverse (visiting_order hdr) ++ [])
      as Hin.
    { intros k Hk. rewrite app_nil_r. apply elem_of_reverse_2, visiting_order_all.
      rewrite <- length_header_names. by eapply lookup_lt_Some. }
    eapply Hinj; eauto.
Qed.

Lemma rename_one_columns (k new : string) (cols : list string) :
  NoDup cols → new ∉ cols →
  NoDup (map (λ c, default c (dict_get [(k, new)] c)) cols) ∧
  ∀ x, x ∈ map (λ c, default c (dict_get [(k, new)] c)) cols → x = new ∨ x ∈ cols.
Proof.
  intros Hnd Hnew.
  assert (∀ c, default c (dict_get [(k, new)] c) = if decide (k = c) then new else c)
    as Hf by (intros c; cbn; by destruct (decide (k = c))).
  split.
  - apply NoDup_fmap_2_strong; [|done].
    intros x y Hx Hy. rewrite !Hf.
    repeat case_decide; intros; subst; try done; by exfalso.
  - intros x (c & -> & Hc)%list_elem_of_fmap. rewrite Hf.
    case_decide; [by left|by right].
Qed.

Section distinct_labels.
Variables b r : bool.

Lemma default_index_distinct (cols : list string) (cs : list (list value)) :
  NoDup cols → distinct_labels b r {| columns := cols; rows := default_index cs |}.
Proof.
  intros Hcols. split; [done|]. intros _. unfold index. cbn.
  rewrite default_index_labels. apply range_NoDup.
Qed.

Lemma from_dict_distinct (d : dict string (list value)) (df : DataFrame) :
  NoDup (dict_keys d) → from_dict d = Return df → distinct_labels b r df.
Proof.
  intros Hnd. unfold from_dict. case_match; [|done].
  intros [= <-]. by apply default_index_distinct.
Qed.

Lemma read_csv_columns (content : option file) (df : DataFrame) :
  read_csv content = Return df → NoDup (columns df).
Proof.
  unfold read_csv, read_csv_text. repeat case_match; try done;
    intros [= <-]; apply header_names_NoDup.
Qed.

Lemma read_csv_distinct (content : option file) (df : DataFrame) :
  read_csv content = Return df → (r = true → NoDup (index df)) →
  distinct_labels b r df.
Proof. intros Hread Hrows. split; [|done]. intros _. by eapply read_csv_columns. Qed.

Lemma read_excel_distinct (content : option file) (df : DataFrame) :
  read_excel content = Return df → distinct_labels b r df.
Proof.
  unfold read_excel. repeat case_match; try done; intros [= <-].
  - split; constructor.
  - apply default_index_distinct, header_names_NoDup.
Qed.

Lemma select_columns_distinct (p : string → bool) (df : DataFrame) :
  distinct_labels b r df → distinct_labels b r (select_columns p df).
Proof.
  intros [Hc Hi]. split; cbn.
  - intros Hb. eapply sublist_NoDup; [exact (Hc Hb)|apply mask_select_sublist].
  - intros Hr. specialize (Hi Hr). unfold index in *. cbn.
    rewrite <- list_fmap_compose.
    by rewrite (list_fmap_ext _ fst (rows df)) by done.
Qed.

Lemma drop_columns_distinct (label : string) (df df' : DataFrame) :
  distinct_labels b r df → drop_columns label df = Return df' →
  distinct_labels b r df'.
Proof.
  intros Hu. unfold drop_columns. case_match; [|done].
  intros [= <-]. by apply select_columns_distinct.
Qed.

Lemma drop_duplicates_distinct (df : DataFrame) :
  distinct_labels b r df → distinct_labels b r (drop_duplicates df).
Proof.
  intros [Hc Hi]. unfold drop_duplicates. case_match; [done|].
  split; [done|]. intros _. unfold index. cbn.
  rewrite default_index_labels. apply range_NoDup.
Qed.

Lemma dropna_distinct (df : DataFrame) :
  distinct_labels b r df → distinct_labels b r (dropna df).
Proof.
  intros [Hc Hi]. split; [done|]. intros _. unfold index. cbn.
  rewrite default_index_labels. apply range_NoDup.
Qed.

Lemma drop_index_distinct (label : value) (df df' : DataFrame) :
  distinct_labels b r df → drop_index label df = Return df' →
  distinct_labels b r df'.
Proof.
  intros [Hc Hi]. unfold drop_index. case_match; [|done].
  intros [= <-]. split; [done|]. intros Hr. specialize (Hi Hr).
  unfold index in *. cbn.
  eapply sublist_NoDup; [exact Hi|]. apply fmap_sublist, sublist_filter.
Qed.

Lemma replace_distinct (c : string) (d : dict value value) (df : DataFrame) :
  distinct_labels b r df → distinct_labels b r (replace c d df).
Proof. intros [Hc Hi]. split; [done|]. by rewrite replace_index. Qed.

#[local] Hint Resolve from_dict_distinct read_csv_distinct read_excel_distinct
  drop_columns_distinct drop_duplicates_distinct dropna_distinct
  drop_index_distinct replace_distinct : labels.

Ltac wp_labels :=
  repeat first
    [ progress wp_run
    | lazymatch goal with
      | |- match ?r with Return _ => _ | Raise _ => _ end => destruct r eqn:?
      | |- wp (if ?c then _ else _) _ _ _ => destruct c eqn:?
      | |- wp (let '(_, _) := ?p in _) _ _ _ => destruct p
      end ];
  unfold labelled in *; st_simpl; eauto with labels.

Lemma create_df_labelled (s : state) dictionary (path : option string) :
  proper_dicts (CreateDf dictionary path) →
  (r = true → loads_distinct_rows (CreateDf dictionary path) s) →
  labelled b r s →
  wp (create_df dictionary path) (λ _, labelled b r) (labelled b r) s.
Proof.
  intros Hd Hl Hs. unfold create_df. cbn [loads_distinct_rows] in Hl.
  destruct dictionary as [[|kc d]|], path as [[|a p]|];
    cbn [truthy bool_of truthy_list truthy_string negb andb if_truthy];
    wp_labels.
Qed.

Lemma save_df_labelled (s : state) (path : string) :
  labelled b r s → wp (save_df path) (λ _, labelled b r) (labelled b r) s.
Proof. intros Hs. unfold save_df. wp_labels. Qed.

Lemma drop_cols_labelled (s : state) (labels : list string) :
  labelled b r s → wp (drop_cols labels) (λ _, labelled b r) (labelled b r) s.
Proof.
  intros Hs. unfold drop_cols. wp_run.
  apply (wp_for (labelled b r)); [done| |done].
  intros x s' _ Hs'. wp_labels.
Qed.

Lemma drop_rows_labelled (s : state) (dupl na : bool) labels :
  labelled b r s →
  wp (drop_rows dupl na labels) (λ _, labelled b r) (labelled b r) s.
Proof.
  intros Hs. unfold drop_rows.
  assert (∀ (l : list value) s0 (Q : unit → state → Prop),
            labelled b r s0 → (∀ s', labelled b r s' → Q tt s') →
            wp (for_ l (λ label,
                  s <- get ;;
                  if in_index label (my_df s) then
                    logger_debug "Label '{label}' is existent." [AVal label] ;;
                    df <- lift (drop_index label (my_df s)) ;;
                    set_my_df df ;;
                    logger_info "Dropped row '{label}'." [AVal label]
                  else
                    logger_error "Row '{label}' is non-existent." [AVal label]))
               Q (labelled b r) s0) as Hloop.
  { intros l s0 Q Hs0 HQ. apply (wp_for (labelled b r)); [done| |done].
    intros x s' _ Hs'. wp_labels. }
  destruct dupl, na, labels as [[|x l]|];
    cbn [if_truthy bool_of truthy_list]; wp_run;
    try (apply Hloop; [|intros s' Hs']); wp_labels.
Qed.

Lemma unique_values_labelled (c : string) (Q : list value → state → Prop) s :
  labelled b r s → (∀ values, Q values s) →
  wp (unique_values c) Q (labelled b r) s.
Proof. intros Hs HQ. unfold unique_values. wp_labels. Qed.

Lemma recode_labelled (s : state) (col_name : string) (auto : bool) customized :
  labelled b r s →
  wp (recode col_name auto customized) (λ _, labelled b r) (labelled b r) s.
Proof.
  intros Hs. unfold recode. wp_run.
  destruct (in_columns col_name (my_df s)); [|wp_labels].
  wp_run.
  destruct customized as [[|kv d]|], auto;
    cbn [truthy bool_of truthy_list truthy_bool negb andb if_truthy];
    try (wp_labels; fail).
  - wp_run. apply unique_values_labelled; [done|]. intros values. wp_run.
    apply unique_values_labelled; [done|]. intros values'. wp_labels.
  - wp_run. apply unique_values_labelled; [done|]. intros values. wp_run.
    apply (wp_for_fold (labelled b r)); [done| |].
    + intros key [corr_dict my_counter] s' _ Hs'. wp_run.
      apply unique_values_labelled; [done|]. intros values'. wp_labels.
    + intros [corr_dict my_counter] s' Hs'. wp_labels.
  - wp_run. apply unique_values_labelled; [done|]. intros values. wp_run.
    apply unique_values_labelled; [done|]. intros values'. wp_labels.
Qed.

(** Renaming never touches the rows. *)
Lemma rename_cols_rows_labelled (s : state) (labels : dict string string) :
  labelled false r s →
  wp (rename_cols labels) (λ _, labelled false r) (labelled false r) s.
Proof.
  intros Hs. unfold rename_cols. wp_run.
  apply (wp_for (labelled false r)); [done| |done].
  intros key s' _ [_ Hi]. wp_run. destruct (in_columns key (my_df s')).
  - wp_run. destruct (dict_getitem labels key); wp_run; by split.
  - wp_run. by split.
Qed.

(** Renaming to new labels keeps the column labels distinct. *)
Lemma rename_loop_labelled (labels pairs : dict string string) (s : state) :
  (∀ kv, kv ∈ pairs → dict_get labels kv.1 = Some kv.2) →
  NoDup pairs.*2 →
  (∀ new, new ∈ pairs.*2 → new ∉ columns (my_df s)) →
  labelled true r s →
  wp (for_ (dict_keys pairs) (λ key,
        s <- get ;;
        if in_columns key (my_df s) then
          logger_debug "Column '{key}' is existent." [AStr key] ;;
          new <- lift (dict_getitem labels key) ;;
          set_my_df (rename_columns [(key, new)] (my_df s)) ;;
          logger_info "Renamed column '{key}' to '{labels[key]}'." [AStr key; AStr new]
        else
          logger_error "Column '{key}' is non-existent." [AStr key]))
     (λ _, labelled true r) (labelled true r) s.
Proof.
  revert s. induction pairs as [|[k new] pairs IH]; intros s Hlook Hnd Hnew Hs.
  - done.
  - cbn [dict_keys fmap list_fmap for_ fst snd] in *.
    apply NoDup_cons in Hnd as [Hn Hnd].
    assert (∀ kv, kv ∈ pairs → dict_get labels kv.1 = Some kv.2) as Hlook'
      by (intros kv Hkv; apply Hlook; by right).
    wp_run. destruct (in_columns k (my_df s)).
    + wp_run. unfold dict_getitem.
      pose proof (Hlook (k, new) ltac:(left)) as Hk. cbn in Hk. rewrite Hk. wp_run.
      destruct Hs as [Hc Hi]. specialize (Hc eq_refl).
      destruct (rename_one_columns k new (columns (my_df s)) Hc) as [Hc' Hin'].
      { apply Hnew. left. }
      apply IH; [done|done| |]; st_simpl.
      * intros n Hn' [->|Hin]%Hin'; [done|]. apply (Hnew n); [by right|done].
      * by split.
    + wp_run. apply IH; [done|done| |done]; st_simpl.
      intros n Hn'. apply Hnew. by right.
Qed.

Lemma rename_cols_labelled (s : state) (labels : dict string string) :
  proper_dicts (RenameCols labels) → renames_to_new_labels (RenameCols labels) s →
  labelled true r s →
  wp (rename_cols labels) (λ _, labelled true r) (labelled true r) s.
Proof.
  intros Hkeys [Hnd Hnew] Hs. unfold rename_cols. wp_run.
  apply rename_loop_labelled; try done.
  intros [k new] Hkv. by apply dict_get_elem.
Qed.

Lemma init_labelled (l : list log_record) (files : gmap string file)
    (e : environment) :
  labelled b r (init l files e).
Proof. split; constructor. Qed.

End distinct_labels.

(** Every call keeps what it finds of distinct labels: the column labels,
    if it is no renaming onto labels in use; the row labels, if it loads
    no file that brings its own. *)
Lemma exec_labelled (b r : bool) (c : call) (s : state) :
  proper_dicts c →
  (b = true → renames_to_new_labels c s) →
  (r = true → loads_distinct_rows c s) →
  labelled b r s →
  wp (exec c) (λ _, labelled b r) (labelled b r) s.
Proof.
  intros Hd Hr Hl Hs. destruct c; cbn [exec].
  - by apply create_df_labelled.
  - by apply save_df_labelled.
  - by apply drop_cols_labelled.
  - destruct b; [apply rename_cols_labelled; auto|by apply rename_cols_rows_labelled].
  - by apply drop_rows_labelled.
  - by apply recode_labelled.
Qed.

Lemma reachable_labelled (b r : bool) (admitted : call → state → Prop) (s : state) :
  (∀ c s, admitted c s →
          proper_dicts c ∧ (b = true → renames_to_new_labels c s)
          ∧ (r = true → loads_distinct_rows c s)) →
  reachable admitted s → labelled b r s.
Proof.
  intros Hadm Hs. induction Hs as [l files e|s c _ IH Hc]; [apply init_labelled|].
  apply Hadm in Hc as (Hd & Hr & Hl).
  apply (wp_always _ (labelled b r)). by apply exec_labelled.
Qed.

(** A renaming of one column onto the label of another leaves that label
    on both. *)
Lemma rename_onto_label_in_use (s : state) (a b : string) :
  a ≠ b → a ∈ columns (my_df s) → b ∈ columns (my_df s) →
  ¬ NoDup (columns (my_df (rename_cols [(a, b)] s).2)).
Proof.
  intros Hab Ha Hb.
  assert (in_columns a (my_df s) = true) as Hin by (by apply bool_decide_eq_true_2).
  assert (columns (my_df (rename_cols [(a, b)] s).2)
          = map (λ c, default c (dict_get [(a, b)] c)) (columns (my_df s))) as ->.
  { unfold rename_cols. cbn [dict_keys fmap list_fmap for_ fst]. run.
    rewrite Hin. unfold dict_getitem. cbn [dict_get]. rewrite decide_True by done.
    run. done. }
  apply list_elem_of_lookup in Ha as [i Hi], Hb as [j Hj].
  intros Hnd. apply Hab.
  assert (i = j) as ->; [|congruence].
  eapply (NoDup_lookup _ i j b); [exact Hnd| |].
  - rewrite list_lookup_fmap, Hi. cbn. by rewrite decide_True.
  - rewrite list_lookup_fmap, Hj. cbn. by rewrite decide_False.
Qed.

(** A csv file whose first data line has no more fields than its header
    line brings no row labels: the rows are labelled 0, 1, 2, ... *)
Lemma read_csv_text_fresh_labels (text : string) (df : DataFrame) :
  (∀ hdr line lines, records text = Some (hdr :: line :: lines) →
                     (length line ≤ length hdr)%nat) →
  read_csv_text text = Return df → index df = range (length (rows df)).
Proof.
  intros Hfirst. unfold read_csv_text.
  destruct (records text) as [[|hdr recs]|] eqn:Hrecs; [done| |done].
  assert ((length hdr `max` from_option length 0 (head recs))%nat = length hdr) as ->.
  { destruct recs as [|line lines]; cbn; [lia|].
    specialize (Hfirst hdr line lines eq_refl). lia. }
  case_match; [|done]. rewrite decide_True by done.
  intros [= <-]. unfold index. cbn [rows].
  rewrite default_index_labels. unfold default_index. by rewrite length_imap.
Qed.

(** C4, as stated, fails: pandas accepts a renaming onto a label that
    another column carries.  After [create_df] of the columns [a] and [b],
    [rename_cols({"a": "b"})] leaves two columns labelled [b]. *)
Lemma rename_onto_existing_label :
  reachable (λ c _, proper_dicts c) state_ab_renamed ∧
  columns (my_df state_ab_renamed) = ["b"; "b"]%string ∧
  ¬ unique_labels (my_df state_ab_renamed).
Proof.
  split_and!.
  - apply reachable_call; [apply reachable_call; [apply reachable_init|]|];
      cbn; apply (bool_decide_unpack _); by vm_compute.
  - by vm_compute.
  - intros [Hc _]. specialize (Hc eq_refl).
    change (columns (my_df state_ab_renamed)) with ["b"; "b"]%string in Hc.
    apply NoDup_cons in Hc as [Hb _]. apply Hb. left.
Qed.

(** The row labels fail to be distinct as well: pandas takes them from a
    csv file whose first data line is longer than its header line.
    Loading the lines [a], [1,2], [1,3] gives two rows labelled 1. *)
Lemma load_takes_row_labels_from_file :
  reachable (λ c _, proper_dicts c) state_rows_of_file ∧
  my_df state_rows_of_file
  = {| columns := ["a"%string]; rows := [(1, [VInt 2]); (1, [VInt 3])] |} ∧
  ¬ NoDup (index (my_df state_rows_of_file)).
Proof.
  assert (my_df state_rows_of_file
          = {| columns := ["a"%string]; rows := [(1, [VInt 2]); (1, [VInt 3])] |})
    as Hdf by (by vm_compute).
  split_and!; [|done|].
  - apply reachable_call; [apply reachable_init|]. exact I.
  - rewrite Hdf. cbn. intros [Hn _]%NoDup_cons. apply Hn. left.
Qed.

(** C4, amended.  In every state a Preprocessor reaches through its public
    operations, called with dicts,
    - the row labels of the table are pairwise distinct, if every csv file
      loaded on the way gave a table with pairwise distinct row labels;
    - the column labels are pairwise distinct, if every [rename_cols] on
      the way used replacement labels that are pairwise distinct and that
      no column carried at the time of the call.
    Every single call, under these two conditions, keeps both kinds of
    labels distinct.  The conditions are needed: [rename_cols({a: b})]
    leaves two columns labelled [b] whenever [a] and [b] are the labels of
    two columns.  A csv file whose first data line is no longer than its
    header line loads with the row labels 0, 1, 2, ..., which are pairwise
    distinct; the column labels a csv file loads with are pairwise
    distinct in every case. *)
Theorem labels_distinct_in_reachable_states :
  (∀ s : state,
     reachable (λ c s, proper_dicts c ∧ loads_distinct_rows c s) s →
     NoDup (index (my_df s))) ∧
  (∀ s : state,
     reachable (λ c s, proper_dicts c ∧ renames_to_new_labels c s) s →
     NoDup (columns (my_df s))) ∧
  (∀ (s : state) (c : call),
     proper_dicts c → renames_to_new_labels c s → loads_distinct_rows c s →
     unique_labels (my_df s) → unique_labels (my_df (exec c s).2)) ∧
  (∀ (s : state) (a b : string),
     a ≠ b → a ∈ columns (my_df s) → b ∈ columns (my_df s) →
     ¬ NoDup (columns (my_df (exec (RenameCols [(a, b)]) s).2))) ∧
  (∀ (text : string) (df : DataFrame),
     (∀ hdr line lines, records text = Some (hdr :: line :: lines) →
                        (length line ≤ length hdr)%nat) →
     read_csv (Some (TextFile text)) = Return df →
     index df = range (length (rows df)) ∧ NoDup (index df)) ∧
  (∀ (content : option file) (df : DataFrame),
     read_csv content = Return df → NoDup (columns df)).
Proof.
  split_and!.
  - intros s Hs. apply (reachable_labelled false true) in Hs as [_ Hi]; [by apply Hi|].
    intros c s' [Hd Hl]. by split_and!.
  - intros s Hs. apply (reachable_labelled true false) in Hs as [Hc _]; [by apply Hc|].
    intros c s' [Hd Hr]. by split_and!.
  - intros s c Hd Hr Hl Hs.
    apply (wp_always (exec c) (labelled true true)). by apply exec_labelled.
  - intros s a b. apply rename_onto_label_in_use.
  - intros text df Hfirst Hread.
    pose proof (read_csv_text_fresh_labels text df Hfirst Hread) as Hindex.
    split; [done|]. rewrite Hindex. apply range_NoDup.
  - apply read_csv_columns.
Qed.

Lemma labels_distinct_in_reachable_states_witness :
  NoDup (index (my_df state_ac)) ∧ NoDup (columns (my_df state_ac)) ∧
  unique_labels (my_df state_ac) ∧
  ¬ NoDup (columns (my_df state_ab_renamed)).
Proof.
  assert (proper_dicts (CreateDf (Some [("a"%string, [VInt 1]); ("b"%string, [VInt 2])])
                                 None)) as Hab
    by (cbn; apply (bool_decide_unpack _); by vm_compute).
  assert (proper_dicts (RenameCols [("a"%string, "c"%string)])) as Hac
    by (cbn; apply (bool_decide_unpack _); by vm_compute).
  assert (renames_to_new_labels (RenameCols [("a"%string, "c"%string)]) state_ab) as Hnew.
  { split; [apply (bool_decide_unpack _); by vm_compute|].
    intros new ->%list_elem_of_singleton. apply (bool_decide_unpack _). by vm_compute. }
  split_and!.
  - apply (proj1 labels_distinct_in_reachable_states state_ac).
    apply reachable_call; [apply reachable_call; [apply reachable_init|]|]; by split.
  - apply (proj1 (proj2 labels_distinct_in_reachable_states) state_ac).
    apply reachable_call; [apply reachable_call; [apply reachable_init|]|]; by split.
  - apply (proj1 (proj2 (proj2 labels_distinct_in_reachable_states))
             state_ab (RenameCols [("a"%string, "c"%string)]) Hac Hnew I).
    split; intros _; apply (bool_decide_unpack _); by vm_compute.
  - apply (proj1 (proj2 (proj2 (proj2 labels_distinct_in_reachable_states)))
             state_ab "a"%string "b"%string);
      [done|apply (bool_decide_unpack _); by vm_compute..].
Defined.

(** ** Every table the Preprocessor holds is well formed *)

Lemma wf_cells (df : DataFrame) :
  wf df ↔ Forall (λ cs, length cs = length (columns df)) (cells df).
Proof. unfold wf, cells. by rewrite Forall_fmap. Qed.

Lemma wf_default_index (cols : list string) (cs : list (list value)) :
  Forall (λ r, length r = length cols) cs →
  wf {| columns := cols; rows := default_index cs |}.
Proof. intros Hcs. apply wf_cells. unfold cells. cbn. by rewrite default_index_cells. Qed.

Lemma transpose_rows {A} (dflt : A) (n : nat) (cols : list (list A)) :
  Forall (λ r, length r = length cols) (transpose dflt n cols).
Proof.
  unfold transpose. apply Forall_fmap, Forall_forall. intros i _.
  cbn. by rewrite length_map.
Qed.

Lemma from_dict_wf (d : dict string (list value)) (df : DataFrame) :
  from_dict d = Return df → wf df.
Proof.
  unfold from_dict. case_match; [|done]. intros [= <-].
  apply wf_default_index. unfold dict_keys.
  rewrite length_fmap, <- (length_fmap snd d). apply transpose_rows.
Qed.

Lemma read_csv_wf (content : option file) (df : DataFrame) :
  read_csv content = Return df → wf df.
Proof.
  unfold read_csv, read_csv_text.
  destruct content as [[text|]|]; try done.
  destruct (records text) as [[|hdr recs]|]; [done| |done].
  set (f := (length hdr `max` from_option length 0 (head recs))%nat).
  set (cols := map convert_column (transpose EmptyString f recs)).
  assert (length cols = f) as Hcols
    by (unfold cols, transpose; by rewrite !length_map, length_seq).
  case_match; [|done]. destruct (decide (f = length hdr)) as [Hf|Hf].
  - intros [= <-]. apply wf_default_index. rewrite length_header_names.
    eapply Forall_impl; [apply transpose_rows|].
    intros r ->. cbv beta. congruence.
  - destruct (integers (default [] (head cols))) as [labels|]; [|done].
    case_match; [|done]. intros [= <-]. unfold wf. cbn [rows columns].
    rewrite length_header_names. apply Forall_forall. intros [z r] Hr.
    apply elem_of_zip_r in Hr. cbn [snd].
    pose proof (transpose_rows VNaN (length recs) (drop 1 cols)) as Hall.
    rewrite Forall_forall in Hall. rewrite (Hall r Hr), length_drop. lia.
Qed.

Lemma read_excel_wf (content : option file) (df : DataFrame) :
  read_excel content = Return df → wf df.
Proof.
  unfold read_excel. repeat case_match; try done; intros [= <-].
  - constructor.
  - apply wf_default_index. rewrite length_header_names, length_map.
    eapply Forall_impl; [apply transpose_rows|].
    intros r ->. unfold transpose. by rewrite !length_map, length_seq.
Qed.

Lemma select_columns_wf (p : string → bool) (df : DataFrame) :
  wf df → wf (select_columns p df).
Proof.
  unfold wf, select_columns. cbn. intros Hwf.
  apply Forall_fmap. eapply Forall_impl; [exact Hwf|].
  intros [i cs] Hlen. cbn in *. by apply length_mask_select.
Qed.

Lemma drop_columns_wf (label : string) (df df' : DataFrame) :
  wf df → drop_columns label df = Return df' → wf df'.
Proof.
  intros Hwf. unfold drop_columns. case_match; [|done].
  intros [= <-]. by apply select_columns_wf.
Qed.

Lemma rename_columns_wf (mapper : dict string string) (df : DataFrame) :
  wf df → wf (rename_columns mapper df).
Proof. unfold wf, rename_columns. cbn. by rewrite length_map. Qed.

Lemma keep_first_sublist {A B} `{EqDecision B} (key : A → B) (seen : list B)
    (l : list A) :
  sublist (keep_first key seen l) l.
Proof.
  revert seen. induction l as [|x l IH]; intros seen; cbn; [done|].
  destruct (decide (key x ∈ seen)); [by apply sublist_cons|by apply sublist_skip].
Qed.

Lemma Forall_sublist_of {A} (P : A → Prop) (l k : list A) :
  Forall P k → sublist l k → Forall P l.
Proof.
  rewrite !Forall_forall. intros Hk Hsub x Hx. apply Hk.
  by eapply elem_of_sublist.
Qed.

Lemma drop_duplicates_wf (df : DataFrame) : wf df → wf (drop_duplicates df).
Proof.
  intros Hwf. unfold drop_duplicates. case_match; [done|].
  apply wf_default_index, Forall_fmap.
  eapply Forall_sublist_of; [exact Hwf|apply keep_first_sublist].
Qed.

Lemma dropna_wf (df : DataFrame) : wf df → wf (dropna df).
Proof.
  intros Hwf. apply wf_default_index, Forall_fmap.
  eapply Forall_sublist_of; [exact Hwf|apply sublist_filter].
Qed.

Lemma drop_index_wf (label : value) (df df' : DataFrame) :
  wf df → drop_index label df = Return df' → wf df'.
Proof.
  intros Hwf. unfold drop_index. case_match; [|done]. intros [= <-].
  unfold wf. cbn. eapply Forall_sublist_of; [exact Hwf|apply sublist_filter].
Qed.

Lemma replace_wf (c : string) (d : dict value value) (df : DataFrame) :
  wf df → wf (replace c d df).
Proof.
  unfold wf, replace. cbn. intros Hwf.
  apply Forall_fmap. eapply Forall_impl; [exact Hwf|].
  intros [i cs] Hlen. cbn in *. rewrite length_zip_with. lia.
Qed.

Create HintDb frames discriminated.
#[local] Hint Resolve from_dict_wf read_csv_wf read_excel_wf drop_columns_wf
  rename_columns_wf drop_duplicates_wf dropna_wf drop_index_wf replace_wf : frames.

Ltac wp_frames :=
  repeat first
    [ progress wp_run
    | lazymatch goal with
      | |- match ?r with Return _ => _ | Raise _ => _ end => destruct r eqn:?
      | |- wp (if ?c then _ else _) _ _ _ => destruct c eqn:?
      | |- wp (let '(_, _) := ?p in _) _ _ _ => destruct p
      | |- wp (unique_values _) _ _ _ => unfold unique_values
      end ];
  unfold well_formed in *; st_simpl; eauto with frames.

Lemma exec_well_formed (c : call) (s : state) :
  well_formed s → wp (exec c) (λ _, well_formed) well_formed s.
Proof.
  intros Hs.
  destruct c as [dictionary path| path | labels | labels | dupl na labels
                | col_name auto customized]; cbn [exec].
  - unfold create_df.
    destruct dictionary as [[|kc d]|], path as [[|a p]|];
      cbn [truthy bool_of truthy_list truthy_string negb andb if_truthy];
      wp_frames.
  - unfold save_df. wp_frames.
  - unfold drop_cols. wp_run.
    apply (wp_for well_formed); [done| |done].
    intros x s' _ Hs'. wp_frames.
  - unfold rename_cols. wp_run.
    apply (wp_for well_formed); [done| |done].
    intros x s' _ Hs'. wp_frames.
  - unfold drop_rows.
    destruct dupl, na, labels as [[|x l]|];
      cbn [if_truthy bool_of truthy_list]; wp_run;
      try (apply (wp_for well_formed); [| |intros s' Hs']);
      try (intros y s' _ Hs'); wp_frames.
  - unfold recode. wp_run.
    destruct (in_columns col_name (my_df s)); [|wp_frames].
    wp_run.
    destruct customized as [[|kv d]|], auto;
      cbn [truthy bool_of truthy_list truthy_bool negb andb if_truthy];
      try (wp_frames; fail).
    wp_frames.
    apply (wp_for_fold well_formed); [done| |].
    + intros key [corr_dict my_counter] s' _ Hs'. wp_frames.
    + intros [corr_dict my_counter] s' Hs'. wp_frames.
Qed.

(** Whatever calls are made, the table held has one cell per column in
    every row. *)
Lemma reachable_well_formed (admitted : call → state → Prop) (s : state) :
  reachable admitted s → wf (my_df s).
Proof.
  induction 1 as [l|s c _ IH _]; [constructor|].
  apply (wp_always _ well_formed). by apply exec_well_formed.
Qed.

(** * Further properties of the code *)

(** ** WebAPI *)

Section webapi_extras.
Import requests WebAPI.

(** X1.  Whatever the stored response, [data_import] first logs that it was
    invoked; what it returns is None unless the status code is 200 and
    [json()] returned that very object; and the only exceptions that leave
    it are those of [json()] on a 200 response that do not derive from
    [Exception]. *)
Theorem data_import_outcomes (self : WebAPI.t) (l : logs) :
  (∃ l', (data_import self l).2
         = l ++ LogRecord INFO "Method 'data_import' invoked." [] :: l') ∧
  match (data_import self l).1 with
  | Return body =>
      body = JNull ∨
      (status_code (my_data self) = 200 ∧ json (my_data self) = Return body)
  | Raise e =>
      isinstance_Exception e = false ∧
      status_code (my_data self) = 200 ∧ json (my_data self) = Raise e
  end.
Proof.
  unfold data_import, try_except_Exception, bind, lift, raise, ret, logger_info,
    logger_debug, logger_error, logger_log, emit, logs_logging; simpl.
  destruct (decide (status_code (my_data self) = 200)) as [Hcode|Hcode].
  - rewrite bool_decide_eq_false_2 by (intros H; apply H, Hcode). simpl.
    destruct (json (my_data self)) as [body|e] eqn:Hjson; simpl.
    + split; [|by right]. rewrite <- app_assoc. eauto.
    + destruct (isinstance_Exception e) eqn:He; simpl.
      * split; [|by left]. rewrite <- !app_assoc. eauto.
      * split; [|done]. rewrite <- app_assoc. eauto.
  - rewrite bool_decide_eq_true_2 by done. simpl.
    split; [|by left]. rewrite <- !app_assoc. eauto.
Qed.

Lemma data_import_not_200 (self : WebAPI.t) (l : logs) :
  status_code (my_data self) ≠ 200 →
  data_import self l = (Return JNull, l ++ failure_log self "Connection failed.").
Proof.
  intros Hcode.
  unfold data_import, try_except_Exception, bind, raise, ret, logger_info,
    logger_debug, logger_error, logger_log, emit, logs_logging; simpl.
  rewrite bool_decide_eq_true_2 by done.
  simpl. by rewrite <- !app_assoc.
Qed.

(** X2.  A request that cannot be completed is not handled by the class:
    the exception of [requests.get] leaves the constructor, also when it
    derives from [Exception], after the creation record and without any
    error record; [data_import] is not reached.  A response of any status
    is stored as it is, so a request answered with a status other than 200
    gives None with the two error records. *)
Theorem fetch_connection_failure (net : network) (url : string)
    (headers : dict string string) (l : logs) :
  (∀ e, net url headers = Raise e →
        fetch net url headers l
        = (Raise e, l ++ [LogRecord INFO "WebAPI class instance created." []])) ∧
  (∀ response, net url headers = Return response →
        status_code response ≠ 200 →
        fetch net url headers l
        = (Return JNull,
           l ++ LogRecord INFO "WebAPI class instance created." []
             :: failure_log {| my_data := response |} "Connection failed.")).
Proof.
  split.
  - intros e Hnet. unfold fetch, init, bind, lift, logger_info, logger_log.
    simpl. by rewrite Hnet.
  - intros response Hnet Hcode.
    unfold fetch, init, bind, lift, ret, logger_info, logger_log.
    cbv beta iota. rewrite Hnet. cbv beta iota.
    rewrite data_import_not_200 by done.
    unfold emit, logs_logging. by rewrite <- app_assoc.
Qed.

Lemma fetch_connection_failure_witness :
  fetch (λ _ _, Raise Exception) "http://localhost" [] []
  = (Raise Exception, [LogRecord INFO "WebAPI class instance created." []]) ∧
  (fetch (λ _ _, Return response_404) "http://localhost" [] []).1 = Return JNull.
Proof.
  split.
  - apply (proj1 (fetch_connection_failure (λ _ _, Raise Exception)
                    "http://localhost" [] [])). reflexivity.
  - rewrite (proj2 (fetch_connection_failure (λ _ _, Return response_404)
                      "http://localhost" [] []) response_404); [done|done|].
    simpl. lia.
Defined.

End webapi_extras.

(** ** File extensions, saving and loading *)

Lemma list_ascii_of_string_app (a b : string) :
  list_ascii_of_string (a +:+ b) = list_ascii_of_string a ++ list_ascii_of_string b.
Proof. induction a as [|c a IH]; [done|]. cbn. by rewrite <- IH. Qed.

Lemma rsplit_without_separator (sep : ascii) (cs : list ascii) :
  sep ∉ cs → rsplit sep cs = [cs].
Proof.
  induction cs as [|c cs IH]; [done|].
  rewrite not_elem_of_cons. intros [Hne Hcs]. cbn.
  rewrite decide_False by done. by rewrite IH.
Qed.

Lemma rsplit_at_separator (sep : ascii) (a b : list ascii) :
  ∃ p pre, rsplit sep (a ++ sep :: b) = (p :: pre) ++ rsplit sep b.
Proof.
  induction a as [|c a (p & pre & IH)]; cbn.
  - rewrite decide_True by done. by exists [], [].
  - destruct (decide (c = sep)).
    + exists [], (p :: pre). by rewrite IH.
    + rewrite IH. by exists (c :: p), pre.
Qed.

(** X3.  The extension of a path is what follows its last dot, and a path
    without any dot is its own extension (so [save_df(path="csv")] writes a
    csv file named [csv]). *)
Theorem file_extension_after_last_dot :
  (∀ stem ext : string,
     dotless ext → file_extension (stem +:+ "." +:+ ext) = ext) ∧
  (∀ path : string, dotless path → file_extension path = path).
Proof.
  unfold dotless, file_extension. split.
  - intros stem ext Hext. rewrite !list_ascii_of_string_app. cbn [list_ascii_of_string app].
    destruct (rsplit_at_separator "."%char (list_ascii_of_string stem)
                (list_ascii_of_string ext)) as (p & pre & ->).
    rewrite rsplit_without_separator by done.
    rewrite last_app. cbn. apply string_of_list_ascii_of_string.
  - intros path Hpath. rewrite rsplit_without_separator by done.
    cbn. apply string_of_list_ascii_of_string.
Qed.

Lemma file_extension_after_last_dot_witness :
  file_extension ("./archive.v2/my_data" +:+ "." +:+ "csv") = "csv"%string ∧
  file_extension "csv" = "csv"%string.
Proof.
  split.
  - apply (proj1 file_extension_after_last_dot). unfold dotless.
    apply (bool_decide_unpack _). by vm_compute.
  - apply (proj2 file_extension_after_last_dot). unfold dotless.
    apply (bool_decide_unpack _). by vm_compute.
Defined.



(** ** create_df(dictionary=...) *)

Lemma mask_select_fmap {A B C} (p : B → bool) (f : A → B) (g : A → C) (d : list A) :
  mask_select (map p (f <$> d)) (g <$> d) = g <$> filter (λ x, p (f x) = true) d.
Proof.
  induction d as [|x d IH]; [done|]. rewrite filter_cons.
  cbn [mask_select map fmap list_fmap]. destruct (p (f x)) eqn:Hp.
  - rewrite decide_True by done. cbn [fmap list_fmap]. by rewrite <- IH.
  - rewrite decide_False by (by intros ?). apply IH.
Qed.

Lemma filter_none {A} (P : A → Prop) `{∀ x, Decision (P x)} (l : list A) :
  (∀ x, x ∈ l → ¬ P x) → filter P l = [].
Proof.
  induction l as [|x l IH]; [done|]. intros Hl.
  rewrite filter_cons, decide_False by (apply Hl; left).
  apply IH. intros y Hy. apply Hl. by right.
Qed.

Lemma filter_key (d : dict string (list value)) (k : string) (col : list value) :
  NoDup (dict_keys d) → (k, col) ∈ d →
  filter (λ kc : string * list value, bool_decide (kc.1 = k) = true) d = [(k, col)].
Proof.
  induction d as [|[k' c'] d IH]; [by intros _ ?%elem_of_nil|].
  cbn [dict_keys fmap list_fmap fst]. rewrite NoDup_cons, elem_of_cons, filter_cons.
  intros [Hk' Hnd] [Heq|Hin]; cbn [fst].
  - injection Heq as <- <-. rewrite decide_True by (by apply bool_decide_eq_true).
    f_equal. apply filter_none. intros [k2 c2] Hin Hk2%bool_decide_eq_true.
    cbn in Hk2. subst k2. apply Hk'. apply list_elem_of_fmap. by exists (k, c2).
  - rewrite decide_False; [by apply IH|].
    intros Hk%bool_decide_eq_true. subst k'. apply Hk'.
    apply list_elem_of_fmap. by exists (k, col).
Qed.

Lemma lookup_all (col : list value) :
  map (λ i, default VNaN (col !! i)) (seq 0 (length col)) = col.
Proof.
  apply list_eq. intros i. rewrite list_lookup_fmap.
  destruct (decide (i < length col)%nat) as [Hi|Hi].
  - rewrite lookup_seq_lt by done. cbn.
    destruct (lookup_lt_is_Some_2 col i Hi) as [v Hv]. by rewrite Hv.
  - rewrite lookup_seq_ge by lia. cbn. symmetry. apply lookup_ge_None. lia.
Qed.

Lemma from_dict_equal_lengths (d : dict string (list value)) (n : nat) :
  d ≠ [] → (∀ kc, kc ∈ d → length kc.2 = n) →
  from_dict d = Return {| columns := dict_keys d;
                          rows := default_index (transpose VNaN n d.*2) |}.
Proof.
  intros Hd Hlen. unfold from_dict. destruct d as [|kc d]; [done|].
  rewrite (Hlen kc) by left.
  rewrite (proj2 (forallb_forall _ _)); [done|].
  intros x Hx%list_elem_of_In. apply bool_decide_eq_true. by apply Hlen.
Qed.

Lemma from_dict_column (d : dict string (list value)) (n : nat) (k : string)
    (col : list value) :
  NoDup (dict_keys d) → (k, col) ∈ d → length col = n →
  getitem k {| columns := dict_keys d;
               rows := default_index (transpose VNaN n d.*2) |}
  = Return (Series col).
Proof.
  intros Hnd Hin Hlen. unfold getitem, select_columns. cbn [columns rows].
  rewrite mask_select_present; [|done|apply list_elem_of_fmap; by exists (k, col)].
  do 2 f_equal. rewrite <- list_fmap_compose.
  rewrite (list_fmap_ext _ ((λ cs, default VNaN (head (mask_select
             (map (λ c' : string, bool_decide (c' = k)) (dict_keys d)) cs))) ∘ snd)
             (default_index (transpose VNaN n d.*2))) by done.
  rewrite list_fmap_compose, default_index_cells. unfold transpose.
  rewrite <- list_fmap_compose. rewrite <- Hlen.
  etransitivity; [|apply (lookup_all col)].
  apply list_fmap_ext. intros _ i _. cbn. unfold dict_keys.
  rewrite <- list_fmap_compose.
  pose proof (mask_select_fmap (λ c', bool_decide (c' = k)) fst
                ((λ col0 : list value, default VNaN (col0 !! i)) ∘ snd) d) as E.
  cbv beta in E.
  rewrite (filter_key d k col), (list_fmap_compose snd) in E by done.
  rewrite (list_fmap_compose fst).
  transitivity (default VNaN (head [default VNaN (col !! i)])); [|done].
  do 2 f_equal. exact E.
Qed.

(** X5.  [create_df(dictionary=d)] for a non-empty dict of lists of one
    length [n] returns normally with a table whose column labels are the
    keys in their order, whose rows are labelled 0..n-1, and in which every
    key selects the list it came with; the counter and the files stay.
    When two of the lists differ in length the call raises ValueError and
    the table that was held stays. *)
Theorem create_df_dictionary (s : state) (d : dict string (list value)) :
  (∀ n : nat,
     d ≠ [] → NoDup (dict_keys d) → (∀ kc, kc ∈ d → length kc.2 = n) →
     let r := create_df (Some d) None s in
     r.1 = Return tt ∧
     columns (my_df r.2) = dict_keys d ∧
     index (my_df r.2) = range n ∧
     (∀ k col, (k, col) ∈ d → getitem k (my_df r.2) = Return (Series col)) ∧
     my_df_rows r.2 = my_df_rows s ∧ fs r.2 = fs s) ∧
  (∀ kc1 kc2,
     kc1 ∈ d → kc2 ∈ d → length kc1.2 ≠ length kc2.2 →
     let r := create_df (Some d) None s in
     r.1 = Raise ValueError ∧ my_df r.2 = my_df s ∧ my_df_rows r.2 = my_df_rows s).
Proof.
  split.
  - intros n Hd Hnd Hlen. cbv zeta.
    rewrite (create_df_from_dict s d _ ltac:(by destruct d)
               (from_dict_equal_lengths d n Hd Hlen)).
    cbn [fst snd my_df my_df_rows fs]. split_and!; try done.
    + unfold index. cbn [rows]. rewrite default_index_labels.
      unfold transpose. by rewrite length_map, length_seq.
    + intros k col Hin. apply from_dict_column; [done..|]. by apply (Hlen (k, col)).
  - intros kc1 kc2 H1 H2 Hne. cbv zeta.
    assert (from_dict d = Raise ValueError) as Hfd.
    { unfold from_dict. case_match eqn:Hall; [|done]. exfalso.
      rewrite forallb_forall in Hall.
      pose proof (Hall kc1 ltac:(by apply list_elem_of_In)) as E1.
      pose proof (Hall kc2 ltac:(by apply list_elem_of_In)) as E2.
      apply bool_decide_eq_true in E1, E2. congruence. }
    unfold create_df. destruct d as [|kc d]; [by apply elem_of_nil in H1|].
    cbn [truthy if_truthy bool_of truthy_list negb andb]. rewrite Hfd. by run.
Qed.

Lemma create_df_dictionary_witness :
  getitem "x" (my_df (create_df (Some [("x"%string, [VInt 1; VInt 2]);
                                      ("y"%string, [VStr "a"; VNaN])]) None
                        (holding table_babc)).2)
  = Return (Series [VInt 1; VInt 2]) ∧
  (create_df (Some [("x"%string, [VInt 1; VInt 2]); ("y"%string, [VStr "a"])]) None
     (holding table_babc)).1 = Raise ValueError.
Proof.
  split.
  - apply (proj1 (create_df_dictionary (holding table_babc) _) 2%nat).
    + done.
    + apply (bool_decide_unpack _). by vm_compute.
    + intros kc Hkc. apply (bool_decide_unpack _) in Hkc || idtac.
      repeat (apply elem_of_cons in Hkc as [->|Hkc]; [done|]).
      by apply elem_of_nil in Hkc.
    + left.
  - apply (proj2 (create_df_dictionary (holding table_babc) _)
             ("x"%string, [VInt 1; VInt 2]) ("y"%string, [VStr "a"])).
    + left.
    + right. left.
    + cbn. lia.
Defined.

(** ** create_df: a load that fails *)

Lemma from_dict_raises (d : dict string (list value)) (e : exn) :
  from_dict d = Raise e → e = ValueError.
Proof. unfold from_dict. case_match; congruence. Qed.

Lemma read_csv_raises (content : option file) (e : exn) :
  read_csv content = Raise e →
  e ∈ [FileNotFoundError; UnicodeDecodeError; EmptyDataError; ParserError].
Proof.
  unfold read_csv, read_csv_text. intros H.
  repeat case_match; simplify_eq; set_solver.
Qed.

Lemma read_excel_raises (content : option file) (e : exn) :
  read_excel content = Raise e → e ∈ [FileNotFoundError; ValueError].
Proof.
  unfold read_excel. intros H. repeat case_match; simplify_eq; set_solver.
Qed.

(** X6.  [create_df] has no handler of its own: when it raises, the
    exception is the one of the pandas constructor or reader it called, the
    table, the counter and the files are as they were found, and nothing
    was logged at level ERROR. *)
Theorem create_df_failed_load (s : state) dictionary (path : option string) (e : exn) :
  (create_df dictionary path s).1 = Raise e →
  let s' := (create_df dictionary path s).2 in
  e ∈ [ValueError; FileNotFoundError; UnicodeDecodeError; EmptyDataError; ParserError] ∧
  my_df s' = my_df s ∧ my_df_rows s' = my_df_rows s ∧ fs s' = fs s ∧
  ∃ l, log s' = log s ++ l ∧ Forall (λ r, levelname r ≠ ERROR) l.
Proof.
  cbv zeta. unfold create_df.
  destruct dictionary as [[|kc d]|], path as [[|a p]|];
    cbn [truthy bool_of truthy_list truthy_string negb andb if_truthy];
    try (run; discriminate).
  2,3: destruct (from_dict (kc :: d)) as [df|e'] eqn:Hfd; run;
     [discriminate|intros [= <-]; apply from_dict_raises in Hfd as ->].
  1,4: destruct (decide (file_extension (String a p) = "csv")) as [Hcsv|Hcsv];
       [destruct (read_csv (fs s !! String a p)) as [df|e'] eqn:Hrd
       |destruct (decide (file_extension (String a p) = "xlsx")) as [Hx|Hx];
        [destruct (read_excel (fs s !! String a p)) as [df|e'] eqn:Hrd|]];
       run; rewrite ?Hrd; run; try discriminate; intros [= <-];
       [apply read_csv_raises in Hrd|apply read_excel_raises in Hrd].
  all: (split; [set_solver|]); split_and!; try done;
       eexists; (split; [by rewrite <- app_assoc|]);
       repeat constructor; done.
Qed.

Lemma create_df_failed_load_witness :
  my_df (create_df None (Some "gone.csv"%string) (holding table_babc)).2 = table_babc.
Proof.
  apply (create_df_failed_load (holding table_babc) None (Some "gone.csv"%string)
           FileNotFoundError).
  by vm_compute.
Defined.

(** ** drop_cols *)

Lemma mask_select_nil_r {A} (mask : list bool) : mask_select mask (@nil A) = [].
Proof. by destruct mask as [|[] ?]. Qed.

Lemma mask_select_twice {A B} (p q : A → bool) (cols : list A) (cs : list B) :
  mask_select (map p (mask_select (map q cols) cols)) (mask_select (map q cols) cs)
  = mask_select (map (λ c, q c && p c) cols) cs.
Proof.
  revert cs. induction cols as [|c cols IH]; intros [|x cs]; try done.
  - cbn [map mask_select]. by rewrite !mask_select_nil_r.
  - cbn [map mask_select]. destruct (q c); cbn [map mask_select andb]; [|apply IH].
    destruct (p c); by rewrite IH.
Qed.

Lemma select_columns_twice (p q : string → bool) (df : DataFrame) :
  select_columns p (select_columns q df) = select_columns (λ c, q c && p c) df.
Proof.
  unfold select_columns. cbn [columns rows]. f_equal.
  - apply mask_select_twice.
  - rewrite <- list_fmap_compose. apply list_fmap_ext. intros _ r _. cbn.
    f_equal. apply mask_select_twice.
Qed.

Lemma select_columns_ext (p q : string → bool) (df : DataFrame) :
  (∀ c, c ∈ columns df → p c = q c) → select_columns p df = select_columns q df.
Proof.
  intros Hpq. unfold select_columns.
  assert (map p (columns df) = map q (columns df)) as ->; [|done].
  apply list_fmap_ext. intros _ c ?%list_elem_of_lookup_2. by apply Hpq.
Qed.

Lemma mask_select_all {A B} (cols : list A) (l : list B) :
  length l = length cols → mask_select (map (λ _, true) cols) l = l.
Proof.
  revert l. induction cols as [|c cols IH]; intros [|x l]; try done.
  cbn. intros [= Hl]. f_equal. by apply IH.
Qed.

Lemma select_columns_all (df : DataFrame) :
  wf df → select_columns (λ _, true) df = df.
Proof.
  intros Hwf. unfold select_columns. destruct df as [cols rws].
  unfold wf in Hwf. cbn [columns rows] in *. f_equal.
  - by apply mask_select_all.
  - induction Hwf as [|[i cs] rws Hcs _ IH]; [done|].
    cbn [map fst snd] in *. by rewrite IH, mask_select_all.
Qed.

Lemma drop_cols_loop (labels : list string) (s : state) :
  wf (my_df s) →
  wp (for_ labels (λ label,
        s <- get ;;
        if in_columns label (my_df s) then
          logger_debug "Column '{label}' is existent." [AStr label] ;;
          df <- lift (drop_columns label (my_df s)) ;;
          set_my_df df ;;
          logger_info "Dropped column '{label}'." [AStr label]
        else
          logger_error "Column '{label}' is non-existent." [AStr label]))
     (λ _ s', my_df s' = select_columns (λ c, bool_decide (c ∉ labels)) (my_df s) ∧
              my_df_rows s' = my_df_rows s ∧ fs s' = fs s)
     never s.
Proof.
  revert s. induction labels as [|label labels IH]; intros s Hwf.
  - cbn [for_]. wp_run. split; [|done].
    rewrite <- (select_columns_all (my_df s)) at 1 by done.
    apply select_columns_ext. intros c _. symmetry.
    apply bool_decide_eq_true_2, not_elem_of_nil.
  - cbn [for_]. wp_run. unfold drop_columns.
    destruct (in_columns label (my_df s)) eqn:Hin; wp_run.
    + eapply wp_mono; [apply IH| |done].
      * st_simpl. by apply select_columns_wf.
      * intros [] s' (-> & -> & ->). st_simpl. split; [|done].
        rewrite select_columns_twice. apply select_columns_ext. intros c _.
        rewrite <- bool_decide_and. apply bool_decide_ext.
        by rewrite not_elem_of_cons.
    + eapply wp_mono; [apply IH| |done].
      * done.
      * intros [] s' (-> & -> & ->). st_simpl. split; [|done].
        apply select_columns_ext. intros c Hc. apply bool_decide_ext.
        rewrite not_elem_of_cons.
        apply bool_decide_eq_false in Hin. naive_solver.
Qed.

(** X7.  On a well-formed table [drop_cols(labels)] returns normally and
    leaves exactly the columns whose label is not in [labels], in their
    order and with their cells; labels that name no column change nothing.
    Row labels, counter and files stay. *)
Theorem drop_cols_removes_listed (s : state) (labels : list string) :
  wf (my_df s) →
  let r := drop_cols labels s in
  r.1 = Return tt ∧
  my_df r.2 = select_columns (λ c, bool_decide (c ∉ labels)) (my_df s) ∧
  columns (my_df r.2) = filter (λ c, c ∉ labels) (columns (my_df s)) ∧
  index (my_df r.2) = index (my_df s) ∧
  my_df_rows r.2 = my_df_rows s ∧ fs r.2 = fs s.
Proof.
  intros Hwf. cbv zeta.
  cut (wp (drop_cols labels)
          (λ _ s', my_df s' = select_columns (λ c, bool_decide (c ∉ labels)) (my_df s) ∧
                   my_df_rows s' = my_df_rows s ∧ fs s' = fs s) never s).
  { intros [Hret (Hdf & Hrows & Hfs)]%wp_returns. split_and!; try done.
    - rewrite Hdf. unfold select_columns. cbn [columns].
      induction (columns (my_df s)) as [|c cols IHc]; [done|].
      cbn [map mask_select]. rewrite filter_cons.
      destruct (decide (c ∉ labels)) as [Hc|Hc].
      + rewrite bool_decide_eq_true_2 by done. by rewrite IHc.
      + rewrite bool_decide_eq_false_2 by done. apply IHc.
    - rewrite Hdf. unfold index, select_columns. cbn [rows].
      rewrite <- list_fmap_compose. by apply list_fmap_ext. }
  unfold drop_cols. wp_run. eapply wp_mono; [by apply drop_cols_loop| |done].
  intros [] s' ?. done.
Qed.

Lemma drop_cols_removes_listed_witness :
  columns (my_df (drop_cols ["q"; "z"]%string (holding table_122134)).2) = ["p"%string].
Proof.
  destruct (drop_cols_removes_listed (holding table_122134) ["q"; "z"]%string)
    as (_ & _ & -> & _); [|by vm_compute].
  repeat constructor.
Defined.

(** ** rename_cols *)

Lemma dict_get_key {K V} `{EqDecision K} (d : dict K V) (k : K) :
  k ∈ dict_keys d → is_Some (dict_get d k).
Proof.
  induction d as [|[k' v'] d IH]; [by intros ?%elem_of_nil|].
  cbn. rewrite elem_of_cons. intros Hk.
  destruct (decide (k' = k)); [done|]. apply IH. naive_solver.
Qed.

Lemma rename_absent (k new : string) (df : DataFrame) :
  k ∉ columns df → rename_columns [(k, new)] df = df.
Proof.
  intros Hk. unfold rename_columns. destruct df as [cols rws]. cbn [columns rows] in *.
  f_equal. rewrite <- (list_fmap_id cols) at 2.
  apply list_fmap_ext. intros _ c Hc%list_elem_of_lookup_2. cbn.
  rewrite decide_False; [done|]. by intros ->.
Qed.

Lemma rename_head (k new : string) (pairs : dict string string) (df : DataFrame) :
  new ∉ dict_keys pairs →
  rename_columns pairs (rename_columns [(k, new)] df)
  = rename_columns ((k, new) :: pairs) df.
Proof.
  intros Hnew. unfold rename_columns. cbn [columns rows]. f_equal.
  rewrite <- list_fmap_compose. apply list_fmap_ext. intros _ c _. cbn.
  destruct (decide (k = c)); cbn; [|done].
  by rewrite dict_get_None.
Qed.

Lemma rename_cols_loop (labels pairs : dict string string) (s : state) :
  (∀ kv, kv ∈ pairs → dict_get labels kv.1 = Some kv.2) →
  (∀ new, new ∈ pairs.*2 → new ∉ dict_keys pairs) →
  wp (for_ (dict_keys pairs) (λ key,
        s <- get ;;
        if in_columns key (my_df s) then
          logger_debug "Column '{key}' is existent." [AStr key] ;;
          new <- lift (dict_getitem labels key) ;;
          set_my_df (rename_columns [(key, new)] (my_df s)) ;;
          logger_info "Renamed column '{key}' to '{labels[key]}'." [AStr key; AStr new]
        else
          logger_error "Column '{key}' is non-existent." [AStr key]))
     (λ _ s', my_df s' = rename_columns pairs (my_df s))
     never s.
Proof.
  revert s. induction pairs as [|[k new] pairs IH]; intros s Hlook Hnew.
  - cbn [dict_keys fmap list_fmap for_]. wp_run.
    unfold rename_columns. destruct (my_df s) as [cols rws]. cbn [columns rows].
    f_equal. symmetry. apply list_fmap_id.
  - cbn [dict_keys fmap list_fmap for_ fst snd] in *.
    assert (∀ kv, kv ∈ pairs → dict_get labels kv.1 = Some kv.2) as Hlook'
      by (intros kv Hkv; apply Hlook; by right).
    assert (∀ new', new' ∈ pairs.*2 → new' ∉ dict_keys pairs) as Hnew'.
    { intros n Hn Hk. apply (Hnew n); by right. }
    assert (new ∉ dict_keys pairs) as Hfresh.
    { intros Hk. apply (Hnew new); [left|by right]. }
    wp_run. destruct (in_columns k (my_df s)) eqn:Hin.
    + wp_run. unfold dict_getitem.
      pose proof (Hlook (k, new) ltac:(left)) as Hk. cbn in Hk. rewrite Hk. wp_run.
      eapply wp_mono; [by apply IH| |done].
      intros [] s' ->. st_simpl. by apply rename_head.
    + wp_run. eapply wp_mono; [by apply IH| |done].
      intros [] s' ->. st_simpl. rewrite <- rename_head by done.
      rewrite (rename_absent k new); [done|].
      by apply bool_decide_eq_false in Hin.
Qed.

(** X8.  [rename_cols(labels)] always returns normally ([labels[key]] is
    looked up for keys of [labels] only) and changes nothing but column
    labels: the rows, the number of columns, the counter and the files
    stay.  When no replacement label is itself a key of [labels], the
    renamings made one key after the other amount to the single
    [rename(columns=labels)]: every column whose label is a key gets the
    label stored for it, every other column keeps its label. *)
Theorem rename_cols_as_one_rename (s : state) (labels : dict string string) :
  let r := rename_cols labels s in
  r.1 = Return tt ∧
  rows (my_df r.2) = rows (my_df s) ∧
  length (columns (my_df r.2)) = length (columns (my_df s)) ∧
  my_df_rows r.2 = my_df_rows s ∧ fs r.2 = fs s ∧
  (NoDup (dict_keys labels) →
   (∀ new, new ∈ labels.*2 → new ∉ dict_keys labels) →
   my_df r.2 = rename_columns labels (my_df s)).
Proof.
  cbv zeta.
  assert (wp (rename_cols labels)
             (λ _ s', rows (my_df s') = rows (my_df s) ∧
                      length (columns (my_df s')) = length (columns (my_df s)) ∧
                      my_df_rows s' = my_df_rows s ∧ fs s' = fs s) never s) as Hframe.
  { unfold rename_cols. wp_run.
    apply (wp_for (λ s', rows (my_df s') = rows (my_df s) ∧
                         length (columns (my_df s')) = length (columns (my_df s)) ∧
                         my_df_rows s' = my_df_rows s ∧ fs s' = fs s));
      [done| |done].
    intros key s' Hkey (Hr & Hc & Hn & Hf). wp_run.
    destruct (in_columns key (my_df s')); wp_run; [|done].
    unfold dict_getitem. destruct (dict_get_key labels key Hkey) as [new ->].
    wp_run. unfold rename_columns. cbn [rows columns].
    by rewrite length_map. }
  apply wp_returns in Hframe as (Hret & Hr & Hc & Hn & Hf).
  split_and!; try done.
  intros Hnd Hnew.
  apply (wp_returns _ (λ s', my_df s' = rename_columns labels (my_df s))).
  unfold rename_cols. wp_run.
  eapply wp_mono; [apply (rename_cols_loop labels labels); [|done]| |done].
  - intros [k new] Hkv. by apply dict_get_elem.
  - by intros [] s' ->.
Qed.

Lemma rename_cols_as_one_rename_witness :
  my_df (rename_cols [("p"%string, "u"%string); ("q"%string, "v"%string)]
           (holding table_122134)).2
  = rename_columns [("p"%string, "u"%string); ("q"%string, "v"%string)] table_122134.
Proof.
  apply (rename_cols_as_one_rename (holding table_122134)
           [("p"%string, "u"%string); ("q"%string, "v"%string)]).
  - apply (bool_decide_unpack _). by vm_compute.
  - intros new Hnew. apply (bool_decide_unpack _).
    cbn in Hnew. repeat (apply elem_of_cons in Hnew as [->|Hnew]; [by vm_compute|]).
    by apply elem_of_nil in Hnew.
Defined.

(** X9.  The renamings are made one after the other, each on the labels
    the previous ones left: with [labels = {a: b, b: c}] a column [a] ends
    up labelled [c], as does a column [b], where the single
    [rename(columns=labels)] of pandas would give [b] and [c]. *)
Theorem rename_cols_chain (s : state) (a b c : string) :
  a ≠ b → a ∈ columns (my_df s) →
  let r := rename_cols [(a, b); (b, c)] s in
  r.1 = Return tt ∧
  columns (my_df r.2)
  = map (λ x, if decide (x = a ∨ x = b) then c else x) (columns (my_df s)) ∧
  (c ≠ b →
   columns (my_df r.2) ≠ columns (rename_columns [(a, b); (b, c)] (my_df s))).
Proof.
  intros Hab Ha. cbv zeta.
  assert (in_columns b (rename_columns [(a, b)] (my_df s)) = true) as Hb.
  { apply bool_decide_eq_true. unfold rename_columns. cbn [columns].
    apply list_elem_of_fmap. exists a. split; [|done]. cbn. by rewrite decide_True. }
  assert ((rename_cols [(a, b); (b, c)] s).1 = Return tt ∧
          my_df (rename_cols [(a, b); (b, c)] s).2
          = rename_columns [(b, c)] (rename_columns [(a, b)] (my_df s))) as [Hret Hdf].
  { apply (wp_returns _ (λ s', my_df s' = _)).
    unfold rename_cols. cbn [dict_keys fmap list_fmap for_ fst]. wp_run.
    assert (in_columns a (my_df s) = true) as -> by (by apply bool_decide_eq_true).
    wp_run.
    unfold dict_getitem. cbn [dict_get]. rewrite decide_True by done. wp_run.
    rewrite Hb. wp_run. rewrite decide_False by done. rewrite decide_True by done.
    by wp_run. }
  split; [done|]. rewrite Hdf. unfold rename_columns. cbn [columns rows].
  rewrite <- list_fmap_compose. split.
  - apply list_fmap_ext. intros _ x _. cbn.
    destruct (decide (a = x)) as [<-|Hax]; cbn.
    + rewrite decide_True by done. by rewrite decide_True by (by left).
    + destruct (decide (b = x)) as [<-|Hbx]; cbn.
      * by rewrite decide_True by (by right).
      * rewrite decide_False; [done|]. naive_solver.
  - intros Hcb Heq.
    apply list_elem_of_lookup_1 in Ha as [i Hi].
    apply (f_equal (λ l, l !! i)) in Heq.
    rewrite !list_lookup_fmap, Hi in Heq. cbn in Heq.
    destruct (decide (a = a)); [|done]. cbn in Heq.
    destruct (decide (b = b)); [|done]. cbn in Heq. by injection Heq.
Qed.

Lemma rename_cols_chain_witness :
  columns (my_df (rename_cols [("p"%string, "q"%string); ("q"%string, "r"%string)]
                    (holding table_122134)).2) = ["r"; "r"]%string.
Proof.
  destruct (rename_cols_chain (holding table_122134) "p" "q" "r") as (_ & -> & _).
  - by vm_compute.
  - apply (bool_decide_unpack _). by vm_compute.
  - by vm_compute.
Defined.

(** ** drop_rows *)

Lemma filter_ext_in {A} (P Q : A → Prop) `{∀ x, Decision (P x)} `{∀ x, Decision (Q x)}
    (l : list A) :
  (∀ x, x ∈ l → P x ↔ Q x) → filter P l = filter Q l.
Proof.
  induction l as [|x l IH]; [done|]. intros Hl.
  rewrite !filter_cons, IH by (intros y Hy; apply Hl; by right).
  destruct (decide (P x)) as [HP|HP], (decide (Q x)) as [HQ|HQ]; try done;
    exfalso; apply (Hl x ltac:(left)) in HP || apply (Hl x ltac:(left)) in HQ; done.
Qed.

Lemma filter_all {A} (P : A → Prop) `{∀ x, Decision (P x)} (l : list A) :
  (∀ x, x ∈ l → P x) → filter P l = l.
Proof.
  induction l as [|x l IH]; [done|]. intros Hl.
  rewrite filter_cons, decide_True by (apply Hl; left).
  f_equal. apply IH. intros y Hy. apply Hl. by right.
Qed.

(** The loop over the row labels removes the rows whose label is listed. *)
Lemma drop_rows_loop_rows (labels : list value) (s : state) :
  wp (for_ labels (λ label,
        s <- get ;;
        if in_index label (my_df s) then
          logger_debug "Label '{label}' is existent." [AVal label] ;;
          df <- lift (drop_index label (my_df s)) ;;
          set_my_df df ;;
          logger_info "Dropped row '{label}'." [AVal label]
        else
          logger_error "Row '{label}' is non-existent." [AVal label]))
     (λ _ s', columns (my_df s') = columns (my_df s) ∧
              rows (my_df s') = filter (λ r, VInt r.1 ∉ labels) (rows (my_df s)) ∧
              my_df_rows s' = my_df_rows s ∧ fs s' = fs s)
     never s.
Proof.
  revert s. induction labels as [|label labels IH]; intros s.
  - cbn [for_]. wp_run. split_and!; try done. symmetry. apply filter_all.
    intros r _. apply not_elem_of_nil.
  - cbn [for_]. wp_run. unfold drop_index.
    destruct (in_index label (my_df s)) eqn:Hin; wp_run.
    + eapply wp_mono; [apply IH| |done].
      intros [] s' (-> & -> & -> & ->). st_simpl. split_and!; try done.
      cbn [rows columns]. rewrite list_filter_filter. apply filter_ext_in.
      intros r _. rewrite not_elem_of_cons. naive_solver.
    + eapply wp_mono; [apply IH| |done].
      intros [] s' (-> & -> & -> & ->). st_simpl. split_and!; try done.
      apply filter_ext_in. intros r Hr. rewrite not_elem_of_cons.
      split; [|naive_solver]. intros Hl. split; [|done]. intros <-.
      unfold in_index in Hin. apply bool_decide_eq_false in Hin. apply Hin.
      unfold index. apply list_elem_of_fmap. by exists r.
Qed.

Lemma drop_duplicates_columns (df : DataFrame) :
  columns (drop_duplicates df) = columns df.
Proof. unfold drop_duplicates. by case_match. Qed.

(** The phases a call of [drop_rows] runs, as one function on tables. *)
Lemma drop_rows_run (s : state) (dupl na : bool) (labels : option (list value)) :
  wp (drop_rows dupl na labels)
     (λ _ s',
        columns (my_df s') = columns (my_df s) ∧
        rows (my_df s')
        = filter (λ r, VInt r.1 ∉ default [] labels)
            (rows (if na then dropna (if dupl then drop_duplicates (my_df s) else my_df s)
                   else if dupl then drop_duplicates (my_df s) else my_df s)) ∧
        fs s' = fs s ∧
        my_df_rows s' = if dupl || na || truthy labels then shape0 (my_df s')
                        else my_df_rows s)
     never s.
Proof.
  assert (∀ l : list (Z * list value), l = filter (λ r, VInt r.1 ∉ []) l) as Hall.
  { intros l. symmetry. apply filter_all. intros r _. apply not_elem_of_nil. }
  unfold drop_rows.
  destruct dupl, na, labels as [[|x l]|];
    cbn [if_truthy truthy bool_of truthy_list default orb]; wp_run;
    try (eapply wp_mono; [apply drop_rows_loop_rows| |done];
         intros [] s' (Hc & Hr & _ & Hf); st_simpl; wp_run;
         rewrite Hc, Hr, Hf);
    cbn [columns dropna]; rewrite ?drop_duplicates_columns; split_and!;
    first [done|lia].
Qed.

(** X10.  [drop_rows] never raises, keeps the columns and the files, and
    runs its three phases in the order duplicates, missing values, labels:
    the rows left are those of the table after [drop_duplicates] (when
    [dupl]) and then [dropna] (when [na]) whose label is not listed in
    [labels].  The labels are therefore matched against the row labels the
    earlier phases assigned, and the rows that stay keep theirs. *)
Theorem drop_rows_phases (s : state) (dupl na : bool) (labels : option (list value)) :
  let df1 := if dupl then drop_duplicates (my_df s) else my_df s in
  let df2 := if na then dropna df1 else df1 in
  let r := drop_rows dupl na labels s in
  r.1 = Return tt ∧
  columns (my_df r.2) = columns (my_df s) ∧
  rows (my_df r.2) = filter (λ r, VInt r.1 ∉ default [] labels) (rows df2) ∧
  fs r.2 = fs s.
Proof.
  cbv zeta.
  destruct (wp_returns _ _ _ (drop_rows_run s dupl na labels))
    as (Hret & Hc & Hr & Hf & _).
  done.
Qed.

(** ** drop_rows(na=True) *)

Lemma complete_rows_cells (l : list (Z * list value)) :
  (filter (λ r : Z * list value, VNaN ∉ r.2) l).*2
  = filter (λ cs : list value, VNaN ∉ cs) l.*2.
Proof.
  induction l as [|[i x] l IH]; [done|].
  cbn [fmap list_fmap snd]. rewrite !filter_cons. cbn [snd].
  destruct (decide (VNaN ∉ x)); cbn [fmap list_fmap snd]; by rewrite <- IH.
Qed.

Lemma dropna_spec (df : DataFrame) :
  cells (dropna df) = filter (λ cs, VNaN ∉ cs) (cells df) ∧
  index (dropna df) = range (length (filter (λ cs, VNaN ∉ cs) (cells df))).
Proof.
  unfold dropna, cells, index. cbn [rows].
  rewrite default_index_cells, default_index_labels.
  by rewrite complete_rows_cells.
Qed.

(** X11.  [drop_rows(na=True)] returns normally on every table, keeps the
    columns, keeps exactly the rows without a missing cell, in their order,
    and labels them 0, 1, 2, ...; no cell of the table left is missing, and
    the counter ends as the number of rows left. *)
Theorem drop_rows_na_complete_rows (s : state) :
  let r := drop_rows false true None s in
  r.1 = Return tt ∧
  columns (my_df r.2) = columns (my_df s) ∧
  cells (my_df r.2) = filter (λ cs, VNaN ∉ cs) (cells (my_df s)) ∧
  index (my_df r.2) = range (length (cells (my_df r.2))) ∧
  Forall (λ cs, VNaN ∉ cs) (cells (my_df r.2)) ∧
  my_df_rows r.2 = Z.of_nat (length (cells (my_df r.2))).
Proof.
  cbv zeta.
  destruct (wp_returns _ _ _ (drop_rows_run s false true None))
    as (Hret & Hc & Hr & Hf & Hn).
  cbn [default orb] in *.
  rewrite filter_all in Hr by (intros r _; apply not_elem_of_nil).
  destruct (dropna_spec (my_df s)) as [Hcells Hindex].
  assert (cells (my_df (drop_rows false true None s).2)
          = filter (λ cs, VNaN ∉ cs) (cells (my_df s))) as Hcs.
  { unfold cells at 1. by rewrite Hr. }
  split_and!; try done.
  - rewrite Hcs. unfold index. by rewrite Hr.
  - rewrite Hcs. apply Forall_forall. by intros cs [? _]%list_elem_of_filter.
  - rewrite Hn. unfold shape0, cells. by rewrite length_fmap.
Qed.

(** ** drop_rows, twice *)

Lemma first_occurrences_NoDup_id {A} `{EqDecision A} (l : list A) :
  NoDup l → first_occurrences l = l.
Proof.
  induction 1 as [|x l Hx _ IH]; [done|].
  cbn. rewrite IH. f_equal. apply filter_all. by intros y Hy ->.
Qed.

Lemma dropna_fixed (cols : list string) (C : list (list value)) :
  Forall (λ cs, VNaN ∉ cs) C →
  dropna {| columns := cols; rows := default_index C |}
  = {| columns := cols; rows := default_index C |}.
Proof.
  intros HC. unfold dropna. cbn [columns rows]. do 2 f_equal.
  rewrite complete_rows_cells, default_index_cells.
  apply filter_all. intros cs Hcs. by apply (proj1 (Forall_forall _ _) HC).
Qed.

Lemma drop_duplicates_fixed (cols : list string) (C : list (list value)) :
  cols = [] ∨ NoDup C →
  drop_duplicates {| columns := cols; rows := default_index C |}
  = {| columns := cols; rows := default_index C |}.
Proof.
  intros HC. unfold drop_duplicates, empty. cbn [columns rows].
  case_bool_decide as Hcols; [done|]. case_bool_decide; [done|]. cbn [orb].
  destruct HC as [?|HC]; [done|]. do 2 f_equal.
  rewrite keep_first_snd, default_index_cells, keep_first_first_occurrences.
  by apply first_occurrences_NoDup_id.
Qed.

Lemma drop_duplicates_shape (df : DataFrame) :
  drop_duplicates df = df ∨
  drop_duplicates df
  = {| columns := columns df; rows := default_index (first_occurrences (cells df)) |}.
Proof.
  unfold drop_duplicates. case_match; [by left|right].
  by rewrite keep_first_snd, keep_first_first_occurrences.
Qed.

Lemma drop_duplicates_cells_NoDup (df : DataFrame) :
  columns df = [] ∨ NoDup (cells (drop_duplicates df)).
Proof.
  unfold drop_duplicates, empty. case_bool_decide; [by left|].
  right. case_bool_decide as Hr; cbn [orb].
  - unfold cells. rewrite Hr. constructor.
  - unfold cells. cbn [rows].
    rewrite default_index_cells, keep_first_snd, keep_first_first_occurrences.
    apply first_occurrences_NoDup.
Qed.

Lemma drop_duplicates_twice (df : DataFrame) :
  drop_duplicates (drop_duplicates df) = drop_duplicates df.
Proof.
  destruct (drop_duplicates_shape df) as [H|H]; [by rewrite !H|rewrite H].
  apply drop_duplicates_fixed. right. apply first_occurrences_NoDup.
Qed.

Lemma dropna_twice (df : DataFrame) : dropna (dropna df) = dropna df.
Proof.
  unfold dropna at 2 3. apply dropna_fixed.
  rewrite complete_rows_cells.
  apply Forall_forall. by intros cs [? _]%list_elem_of_filter.
Qed.

Lemma dropna_drop_duplicates_fixed (df : DataFrame) :
  drop_duplicates (dropna (drop_duplicates df)) = dropna (drop_duplicates df).
Proof.
  unfold dropna. apply drop_duplicates_fixed.
  rewrite drop_duplicates_columns.
  destruct (drop_duplicates_cells_NoDup df) as [?|Hnd]; [by left|right].
  rewrite complete_rows_cells. by apply NoDup_filter.
Qed.

(** X12.  Without row labels [drop_rows] is idempotent: a second call with
    the same [dupl] and [na] returns normally and leaves the table and the
    counter as the first call left them. *)
Theorem drop_rows_twice (s : state) (dupl na : bool) :
  let r1 := drop_rows dupl na None s in
  let r2 := drop_rows dupl na None r1.2 in
  r2.1 = Return tt ∧ my_df r2.2 = my_df r1.2 ∧ my_df_rows r2.2 = my_df_rows r1.2.
Proof.
  cbv zeta.
  destruct (wp_returns _ _ _ (drop_rows_run s dupl na None))
    as (_ & Hc1 & Hr1 & _ & Hn1).
  destruct (wp_returns _ _ _
              (drop_rows_run (drop_rows dupl na None s).2 dupl na None))
    as (Hret & Hc2 & Hr2 & _ & Hn2).
  cbn [default truthy] in *.
  rewrite filter_all in Hr1, Hr2 by (intros r _; apply not_elem_of_nil).
  set (s1 := (drop_rows dupl na None s).2) in *.
  set (s2 := (drop_rows dupl na None s1).2) in *.
  assert (∀ df df', columns df = columns df' → rows df = rows df' → df = df') as Heta.
  { intros [] []. cbn. by intros -> ->. }
  assert (my_df s1 = if na then dropna (if dupl then drop_duplicates (my_df s)
                                        else my_df s)
                     else if dupl then drop_duplicates (my_df s) else my_df s) as H1.
  { apply Heta; [|done]. rewrite Hc1.
    destruct na, dupl; cbn [dropna columns]; by rewrite ?drop_duplicates_columns. }
  assert (my_df s2 = my_df s1) as H2.
  { apply Heta; [done|]. rewrite Hr2, H1. destruct na, dupl; try done.
    - by rewrite dropna_drop_duplicates_fixed, dropna_twice.
    - by rewrite dropna_twice.
    - by rewrite drop_duplicates_twice. }
  split_and!; try done.
  rewrite Hn2, Hn1. destruct (dupl || na || false); [by rewrite H2|done].
Qed.

(** ** What every call leaves in place *)

Section continues.

Ltac continues_solve :=
  unfold continues in *; st_simpl;
  repeat match goal with
         | H : _ ∧ _ |- _ => destruct H
         | H : ∃ _, _ |- _ => destruct H
         end;
  (split; [try done; try congruence|]);
  repeat match goal with H : log _ = _ |- _ => rewrite H end;
  rewrite <- ?app_assoc; cbn [app]; eauto.

Ltac wp_continues :=
  repeat first
    [ progress wp_run
    | lazymatch goal with
      | |- match ?r with Return _ => _ | Raise _ => _ end => destruct r eqn:?
      | |- wp (if ?c then _ else _) _ _ _ => destruct c eqn:?
      | |- wp (let '(_, _) := ?p in _) _ _ _ => destruct p
      | |- wp (unique_values _) _ _ _ => unfold unique_values
      end ];
  try continues_solve.

Lemma create_df_continues (s : state) dictionary (path : option string) :
  wp (create_df dictionary path)
     (λ _, continues true s (invoked (CreateDf dictionary path)))
     (continues true s (invoked (CreateDf dictionary path))) s.
Proof.
  unfold create_df.
  destruct dictionary as [[|kc d]|], path as [[|a p]|];
    cbn [truthy bool_of truthy_list truthy_string negb andb if_truthy];
    wp_continues.
Qed.

Lemma save_df_continues (s : state) (path : string) :
  wp (save_df path)
     (λ _, continues false s (invoked (SaveDf path)))
     (continues false s (invoked (SaveDf path))) s.
Proof. unfold save_df. wp_continues. Qed.

Lemma drop_cols_continues (s : state) (labels : list string) :
  wp (drop_cols labels)
     (λ _, continues true s (invoked (DropCols labels)))
     (continues true s (invoked (DropCols labels))) s.
Proof.
  unfold drop_cols. wp_run.
  apply (wp_for (continues true s (invoked (DropCols labels)))); [|
    intros x s' _ Hs'|done]; wp_continues.
Qed.

Lemma rename_cols_continues (s : state) (labels : dict string string) :
  wp (rename_cols labels)
     (λ _, continues true s (invoked (RenameCols labels)))
     (continues true s (invoked (RenameCols labels))) s.
Proof.
  unfold rename_cols. wp_run.
  apply (wp_for (continues true s (invoked (RenameCols labels)))); [|
    intros x s' _ Hs'|done]; wp_continues.
Qed.

Lemma drop_rows_continues (s : state) (dupl na : bool) labels :
  wp (drop_rows dupl na labels)
     (λ _, continues true s (invoked (DropRows dupl na labels)))
     (continues true s (invoked (DropRows dupl na labels))) s.
Proof.
  unfold drop_rows.
  destruct dupl, na, labels as [[|x l]|];
    cbn [if_truthy bool_of truthy_list]; wp_run;
    try (lazymatch goal with |- wp (for_ _ _) _ ?E _ => apply (wp_for E) end;
         [| |intros s' Hs']);
    try (intros y s' _ Hs'); wp_continues.
Qed.

Lemma recode_continues (s : state) (col_name : string) (auto : bool) customized :
  wp (recode col_name auto customized)
     (λ _, continues true s (invoked (Recode col_name auto customized)))
     (continues true s (invoked (Recode col_name auto customized))) s.
Proof.
  unfold recode. wp_run.
  destruct (in_columns col_name (my_df s)); [|wp_continues].
  wp_run.
  destruct customized as [[|kv d]|], auto;
    cbn [truthy bool_of truthy_list truthy_bool negb andb if_truthy];
    try (wp_continues; fail).
  wp_continues.
  apply (wp_for_fold (continues true s (invoked (Recode col_name false (Some (kv :: d))))));
    [| |].
  - continues_solve.
  - intros key [corr_dict my_counter] s' _ Hs'. wp_continues.
  - intros [corr_dict my_counter] s' Hs'. wp_continues.
Qed.

End continues.

(** X13.  Every call appends to the log and never rewrites it, and the
    first record it appends is the INFO record that names the method.  No
    method but [save_df] touches the files.  Both hold whether the call
    returns or raises. *)
Theorem exec_log_and_files (c : call) (s : state) :
  (∃ l, log (exec c s).2 = log s ++ invoked c :: l) ∧
  match c with
  | SaveDf _ => True
  | _ => fs (exec c s).2 = fs s
  end.
Proof.
  destruct c as [dictionary path| path | labels | labels | dupl na labels
                | col_name auto customized]; cbn [exec].
  - destruct (wp_always _ _ _ (create_df_continues s dictionary path)) as [Hf Hl].
    split; [done|by apply Hf].
  - by destruct (wp_always _ _ _ (save_df_continues s path)) as [_ Hl].
  - destruct (wp_always _ _ _ (drop_cols_continues s labels)) as [Hf Hl].
    split; [done|by apply Hf].
  - destruct (wp_always _ _ _ (rename_cols_continues s labels)) as [Hf Hl].
    split; [done|by apply Hf].
  - destruct (wp_always _ _ _ (drop_rows_continues s dupl na labels)) as [Hf Hl].
    split; [done|by apply Hf].
  - destruct (wp_always _ _ _ (recode_continues s col_name auto customized)) as [Hf Hl].
    split; [done|by apply Hf].
Qed.

(** ** recode: what it leaves in place, and when it raises *)

Lemma wp_raises {A} (m : M state A) Q (E : state → Prop) s e :
  wp m Q E s → (m s).1 = Raise e → E (m s).2.
Proof. unfold wp. destruct (m s) as [[a|e'] s']; [discriminate|done]. Qed.

Lemma wp_must_raise {A} (m : M state A) s :
  wp m (λ _ _, False) (λ _, True) s → ∃ e, (m s).1 = Raise e.
Proof. unfold wp. destruct (m s) as [[a|e'] s']; [done|eauto]. Qed.

Lemma mask_select_nonempty (c : string) (cols : list string) :
  c ∈ cols → mask_select (map (λ c', bool_decide (c' = c)) cols) cols ≠ [].
Proof.
  induction cols as [|x cols IH]; [by intros ?%elem_of_nil|].
  intros Hc. cbn. case_bool_decide; [done|].
  apply IH. apply elem_of_cons in Hc as [?|?]; [congruence|done].
Qed.

Lemma getitem_in_columns (c : string) (df : DataFrame) :
  in_columns c df = true ↔ ∃ sel, getitem c df = Return sel.
Proof.
  unfold in_columns, getitem, select_columns. cbn [columns rows].
  rewrite bool_decide_eq_true. split.
  - intros Hc%mask_select_nonempty.
    destruct (mask_select _ (columns df)) as [|x [|y l]]; [done|eauto..].
  - intros [sel Hsel]. destruct (decide (c ∈ columns df)) as [|Hc]; [done|].
    by rewrite mask_select_absent in Hsel.
Qed.

Section recode_frame.
Variables (s : state) (col_name : string).

Let untouched (s' : state) : Prop :=
  columns (my_df s') = columns (my_df s) ∧
  index (my_df s') = index (my_df s) ∧
  select_columns (λ c', bool_decide (c' ≠ col_name)) (my_df s')
  = select_columns (λ c', bool_decide (c' ≠ col_name)) (my_df s) ∧
  my_df_rows s' = my_df_rows s.

Ltac untouched_solve :=
  unfold untouched in *; st_simpl;
  repeat match goal with H : _ ∧ _ |- _ => destruct H end;
  rewrite ?replace_columns, ?replace_index, ?replace_other_columns;
  split_and!; done.

Ltac wp_untouched :=
  repeat first
    [ progress wp_run
    | lazymatch goal with
      | |- match ?r with Return _ => _ | Raise _ => _ end => destruct r eqn:?
      | |- wp (if ?c then _ else _) _ _ _ => destruct c eqn:?
      | |- wp (let '(_, _) := ?p in _) _ _ _ => destruct p
      | |- wp (unique_values _) _ _ _ => unfold unique_values
      end ];
  try untouched_solve.

Lemma recode_untouched (auto : bool) (customized : option (dict value value)) :
  wp (recode col_name auto customized) (λ _, untouched) untouched s.
Proof.
  unfold recode. wp_run.
  destruct (in_columns col_name (my_df s)); [|wp_untouched].
  wp_run.
  destruct customized as [[|kv d]|], auto;
    cbn [truthy bool_of truthy_list truthy_bool negb andb if_truthy];
    try (wp_untouched; fail).
  wp_untouched.
  apply (wp_for_fold untouched); [untouched_solve| |].
  - intros key [corr_dict my_counter] s' _ Hs'. wp_untouched.
  - intros [corr_dict my_counter] s' Hs'. wp_untouched.
Qed.

End recode_frame.

(** X14.  Whatever its arguments and whether it returns or raises,
    [recode] leaves the column labels, the row labels, the counter, and
    every cell of the columns not labelled [col_name] as they were. *)
Theorem recode_touches_one_column (s : state) (col_name : string) (auto : bool)
    (customized : option (dict value value)) :
  let s' := (recode col_name auto customized s).2 in
  columns (my_df s') = columns (my_df s) ∧
  index (my_df s') = index (my_df s) ∧
  select_columns (λ c', bool_decide (c' ≠ col_name)) (my_df s')
  = select_columns (λ c', bool_decide (c' ≠ col_name)) (my_df s) ∧
  my_df_rows s' = my_df_rows s.
Proof.
  cbv zeta. apply (wp_always (recode col_name auto customized)).
  apply recode_untouched.
Qed.

Section recode_raises.
Variables (s : state) (col_name : string).

Let as_found (s' : state) : Prop := my_df s' = my_df s ∧ env s' = env s.

Let shared_label (s' : state) : Prop :=
  my_df s' = my_df s ∧
  ∃ sub e, getitem col_name (my_df s) = Return (Frame sub) ∧
           unique_of_frame (env s) sub = Raise e.

Lemma unique_values_shared_label (Q : list value → state → Prop) (s' : state) :
  in_columns col_name (my_df s) = true →
  as_found s' →
  (∀ values, Q values s') →
  wp (unique_values col_name) Q shared_label s'.
Proof.
  intros Hin [Hdf He] HQ. unfold unique_values. wp_run. rewrite Hdf, He.
  apply getitem_in_columns in Hin as [[col|sub] Hsel]; rewrite Hsel; wp_run.
  - apply HQ.
  - cbn [unique]. destruct (unique_of_frame (env s) sub) as [values|e] eqn:Hu.
    + apply HQ.
    + split; [done|eauto].
Qed.

Lemma recode_raise_shared_label (auto : bool) (customized : option (dict value value)) :
  wp (recode col_name auto customized) (λ _ _, True) shared_label s.
Proof.
  unfold recode. wp_run.
  destruct (in_columns col_name (my_df s)) eqn:Hin; [|by wp_run].
  wp_run.
  destruct customized as [[|kv d]|], auto;
    cbn [truthy bool_of truthy_list truthy_bool negb andb if_truthy];
    wp_run; try done.
  1,3: apply unique_values_shared_label; [done..|]; intros values; wp_run;
       apply unique_values_shared_label; [done..|]; intros values';
       destruct (auto_plan values'); by wp_run.
  apply unique_values_shared_label; [done..|]. intros values. wp_run.
  apply (wp_for_fold as_found); [done| |].
  - intros key [corr_dict my_counter] s' Hkey Hs'. wp_run.
    apply unique_values_shared_label; [done..|]. intros values'.
    destruct (ndarray_contains key values'); wp_run; [|by destruct Hs'].
    unfold dict_getitem.
    destruct (dict_get_key (kv :: d) key Hkey) as [new ->]. wp_run. by destruct Hs'.
  - intros [corr_dict my_counter] s' Hs'. by wp_run.
Qed.

(** With one recoding scheme, the first thing [recode] does to an existing
    column is [pd.unique]. *)
Lemma recode_first_unique (auto : bool) (customized : option (dict value value))
    (sub : DataFrame) (e : exn) :
  getitem col_name (my_df s) = Return (Frame sub) →
  unique_of_frame (env s) sub = Raise e →
  xorb (truthy customized) auto = true →
  (recode col_name auto customized s).1 = Raise e.
Proof.
  intros Hsel Hu Hx.
  assert (in_columns col_name (my_df s) = true) as Hin
    by (apply getitem_in_columns; eauto).
  destruct customized as [[|kv d]|], auto; try discriminate Hx;
    run; rewrite Hin; run; rewrite Hsel; run; by rewrite Hu.
Qed.

End recode_raises.

(** X15.  [recode] catches nothing, and the one statement in it that can
    fail is [pd.unique(self.my_df[col_name])].  When [recode] raises, the
    table is as it was found, [col_name] labels several columns (the
    selection is a frame, not a column), and [pd.unique] raises on that
    selection.  Conversely, for such a label and exactly one recoding
    scheme, an exception that [pd.unique] raises on the selection leaves
    [recode].  On a table with pairwise distinct column labels [recode]
    returns normally, whatever its arguments. *)
Theorem recode_raises_on_shared_label (s : state) (col_name : string) (auto : bool)
    (customized : option (dict value value)) :
  let r := recode col_name auto customized s in
  (∀ e, r.1 = Raise e →
        my_df r.2 = my_df s ∧
        ∃ sub e', getitem col_name (my_df s) = Return (Frame sub) ∧
                  unique_of_frame (env s) sub = Raise e') ∧
  (∀ sub e, getitem col_name (my_df s) = Return (Frame sub) →
            unique_of_frame (env s) sub = Raise e →
            xorb (truthy customized) auto = true →
            r.1 = Raise e) ∧
  (NoDup (columns (my_df s)) → r.1 = Return tt).
Proof.
  cbv zeta.
  assert (∀ e, (recode col_name auto customized s).1 = Raise e →
               my_df (recode col_name auto customized s).2 = my_df s ∧
               ∃ sub e', getitem col_name (my_df s) = Return (Frame sub) ∧
                         unique_of_frame (env s) sub = Raise e') as Hraise.
  { intros e.
    apply (wp_raises (recode col_name auto customized) (λ _ _, True)
             (λ s', my_df s' = my_df s ∧
                    ∃ sub e', getitem col_name (my_df s) = Return (Frame sub) ∧
                              unique_of_frame (env s) sub = Raise e')).
    apply recode_raise_shared_label. }
  split_and!.
  - exact Hraise.
  - intros sub e Hsel Hu Hx. by apply (recode_first_unique _ _ _ _ sub).
  - intros Hnd.
    destruct (recode col_name auto customized s).1 as [[]|e] eqn:Hr; [done|].
    destruct (Hraise e eq_refl) as (_ & sub & e' & Hsel & _).
    assert (in_columns col_name (my_df s) = true) as Hin
      by (apply getitem_in_columns; eauto).
    apply bool_decide_eq_true in Hin.
    destruct (getitem_existing_column col_name (my_df s) Hnd Hin) as [col Hcol].
    congruence.
Qed.

Lemma recode_raises_on_shared_label_witness :
  (recode "b" true None state_ab_renamed).1 = Raise IndexError ∧
  (recode "c" true None (holding table_babc)).1 = Return tt.
Proof.
  split.
  - apply (proj1 (proj2 (recode_raises_on_shared_label state_ab_renamed "b" true None))
             {| columns := ["b"; "b"]%string; rows := [(0, [VInt 1; VInt 2])] |}).
    + by vm_compute.
    + reflexivity.
    + reflexivity.
  - apply (recode_raises_on_shared_label (holding table_babc) "c" true None).
    apply (bool_decide_unpack _). by vm_compute.
Defined.

(** ** recode(auto=True): the codes *)

(** The code of a value is its position among the distinct values. *)
Lemma code_position (col : list value) (v : value) :
  v ∈ col →
  ∃ i : nat, replace_cell (auto_plan (keep_first id [] col)).1 v = VInt (Z.of_nat i) ∧
             first_occurrences col !! i = Some v.
Proof.
  intros Hv. exists (length (first_occurrences (before_first v col))). split.
  - unfold replace_cell. rewrite auto_plan_code by done. cbn.
    unfold first_encounter_code. by rewrite length_first_occurrences.
  - destruct (first_occurrences_before_first v col Hv) as [rest ->].
    by rewrite list_lookup_middle.
Qed.

(** X16.  [recode(col_name=c, auto=True)] on a column [c] of a well-formed
    table returns normally and replaces the cells by codes such that two
    cells get the same code exactly when they held the same value (missing
    values counting as one value), and such that the codes in use are
    exactly 0, 1, ..., n-1 for the n distinct values of the column. *)
Theorem recode_auto_codes (s : state) (c : string) (col : list value) :
  wf (my_df s) →
  getitem c (my_df s) = Return (Series col) →
  let r := recode c true None s in
  r.1 = Return tt ∧
  ∃ col', getitem c (my_df r.2) = Return (Series col') ∧
    (∀ i j : nat, col' !! i = col' !! j ↔ col !! i = col !! j) ∧
    (∀ x, x ∈ col' ↔
          ∃ k : nat, x = VInt (Z.of_nat k) ∧ (k < length (remove_dups col))%nat).
Proof.
  intros Hwf Hget. cbv zeta.
  rewrite (recode_auto_run s c col None) by done. cbn [fst snd my_df].
  split; [done|]. eexists. split; [by apply getitem_replace|].
  set (plan := (auto_plan (keep_first id [] col)).1).
  split.
  - intros i j. rewrite !list_lookup_fmap. split; [|by intros ->].
    destruct (col !! i) as [v|] eqn:Hi, (col !! j) as [w|] eqn:Hj; cbn; try done.
    intros [= Heq]. f_equal.
    destruct (code_position col v) as (iv & Hv & Hpv);
      [by eapply list_elem_of_lookup_2|].
    destruct (code_position col w) as (iw & Hw & Hpw);
      [by eapply list_elem_of_lookup_2|].
    fold plan in Hv, Hw. rewrite Hv, Hw in Heq.
    assert (iv = iw) as -> by (injection Heq; lia). congruence.
  - intros x. rewrite <- length_first_occurrences. split.
    + intros (v & -> & Hv)%list_elem_of_fmap.
      destruct (code_position col v Hv) as (i & Hcode & Hpos).
      exists i. split; [done|]. by eapply lookup_lt_Some.
    + intros (k & -> & Hk).
      destruct (lookup_lt_is_Some_2 _ _ Hk) as [v Hpos].
      assert (v ∈ col) as Hv
        by (apply first_occurrences_elem; by eapply list_elem_of_lookup_2).
      destruct (code_position col v Hv) as (i & Hcode & Hpos').
      assert (i = k) as ->
        by (apply (NoDup_lookup (first_occurrences col) i k v);
            [apply first_occurrences_NoDup|done..]).
      apply list_elem_of_fmap. by exists v.
Qed.

Lemma recode_auto_codes_witness :
  ∃ col', getitem "c" (my_df (recode "c" true None (holding table_babc)).2)
          = Return (Series col') ∧
          (col' !! 0%nat = col' !! 2%nat ↔ Some (VStr "b") = Some (VStr "b")).
Proof.
  destruct (recode_auto_codes (holding table_babc) "c"
              [VStr "b"; VStr "a"; VStr "b"; VStr "c"])
    as (_ & col' & Hget & Hsame & _).
  - repeat constructor.
  - by vm_compute.
  - exists col'. split; [done|]. apply (Hsame 0%nat 2%nat).
Defined.

(** ** recode: undoing an automatic recoding *)

Lemma inverse_plan_numbering (u : list value) :
  NoDup u →
  prod_swap <$> (auto_plan u).1 = imap (λ i v, (VInt (Z.of_nat i), v)) u.
Proof.
  intros Hnd. rewrite auto_plan_numbering by done. cbn [fst].
  rewrite fmap_imap. by apply imap_ext.
Qed.

Lemma inverse_plan_keys (u : list value) :
  NoDup (dict_keys (imap (λ i v, (VInt (Z.of_nat i), v)) u)).
Proof.
  unfold dict_keys. rewrite fmap_imap. apply NoDup_alt. intros i j x.
  rewrite !list_lookup_imap.
  destruct (u !! i), (u !! j); cbn; try done.
  intros [= <-] [= Hij]. lia.
Qed.

Lemma recode_no_scheme (s : state) (c : string) :
  in_columns c (my_df s) = true →
  recode c false (Some []) s
  = (Return tt,
     logged s [ LogRecord INFO "Method 'recode' invoked." [];
                LogRecord DEBUG "Column '{col_name}' is existent." [AStr c];
                LogRecord ERROR "No recoding scheme specified." [] ]).
Proof. intros Hin. run. rewrite Hin. run. unfold logged. by rewrite <- !app_assoc. Qed.

(** X17.  An automatic recoding can be undone with the coding plan it
    logs: on a column [c] of a well-formed table, [recode(col_name=c,
    auto=True)] ends its log with the plan, and a following
    [recode(col_name=c, customized=inverse)], where [inverse] maps every
    code of the plan back to its value, returns normally and restores the
    cells of the column, missing values included. *)
Theorem recode_auto_undone (s : state) (c : string) (col : list value) :
  wf (my_df s) →
  getitem c (my_df s) = Return (Series col) →
  let r1 := recode c true None s in
  ∃ plan,
    last (log r1.2) = Some (LogRecord INFO "Coding plan: {auto_dict}" [ADict plan]) ∧
    let r2 := recode c false (Some (prod_swap <$> plan)) r1.2 in
    r2.1 = Return tt ∧ getitem c (my_df r2.2) = Return (Series col).
Proof.
  intros Hwf Hget. cbv zeta.
  rewrite (recode_auto_run s c col None) by done. cbn [fst snd].
  exists (auto_plan (keep_first id [] col)).1. split.
  { cbn [log]. unfold auto_recoding_log. by rewrite last_app. }
  set (plan := (auto_plan (keep_first id [] col)).1).
  set (s1 := {| my_df := replace c plan (my_df s); my_df_rows := my_df_rows s;
                log := log s ++ auto_recoding_log c col; fs := fs s; env := env s |}).
  assert (getitem c (my_df s1) = Return (Series (replace_cell plan <$> col))) as Hget1
    by (by apply getitem_replace).
  assert (wf (my_df s1)) as Hwf1 by (by apply replace_wf).
  assert (prod_swap <$> plan
          = imap (λ i v, (VInt (Z.of_nat i), v)) (first_occurrences col)) as ->.
  { unfold plan. rewrite keep_first_first_occurrences.
    apply inverse_plan_numbering, first_occurrences_NoDup. }
  destruct col as [|x col].
  - rewrite recode_no_scheme by (apply getitem_in_columns; eauto).
    by split.
  - rewrite (recode_customized_run c (replace_cell plan <$> x :: col)
               (imap (λ i v, (VInt (Z.of_nat i), v)) (first_occurrences (x :: col)))
               s1 eq_refl (inverse_plan_keys _) Hget1).
    cbn [fst snd my_df]. split; [done|].
    rewrite (getitem_replace c _ (my_df s1) _ Hwf1 Hget1).
    do 2 f_equal. rewrite <- list_fmap_compose.
    etransitivity; [|apply list_fmap_id].
    apply list_fmap_ext. intros _ v Hv%list_elem_of_lookup_2. unfold compose, id.
    destruct (code_position _ v Hv) as (i & Hcode & Hpos).
    fold plan in Hcode. rewrite Hcode. unfold replace_cell at 1.
    rewrite (applied_entries_get _ _ (VInt (Z.of_nat i)) v); [done| | |done|].
    + apply inverse_plan_keys.
    + apply list_elem_of_lookup. exists i. by rewrite list_lookup_imap, Hpos.
    + rewrite <- Hcode. apply list_elem_of_fmap. by exists v.
Qed.

Lemma recode_auto_undone_witness :
  ∃ plan,
    getitem "c" (my_df (recode "c" false (Some (prod_swap <$> plan))
                          (recode "c" true None (holding table_babc)).2).2)
    = Return (Series [VStr "b"; VStr "a"; VStr "b"; VStr "c"]).
Proof.
  destruct (recode_auto_undone (holding table_babc) "c"
              [VStr "b"; VStr "a"; VStr "b"; VStr "c"])
    as (plan & _ & _ & Hrestored).
  - repeat constructor.
  - by vm_compute.
  - by exists plan.
Defined.

(** ** recode(customized=...): the effect of the existence check *)

Lemma dict_get_filter {K V} `{EqDecision K} (P : K * V → Prop)
    `{∀ kv, Decision (P kv)} (d : dict K V) (k : K) :
  (∀ w, (k, w) ∈ d → P (k, w)) → dict_get (filter P d) k = dict_get d k.
Proof.
  induction d as [|[k' w'] d IH]; [done|]. intros HP.
  rewrite filter_cons. cbn [dict_get].
  destruct (decide (P (k', w'))) as [Hyes|Hno]; cbn [dict_get].
  - destruct (decide (k' = k)); [done|]. apply IH. intros w Hw. apply HP. by right.
  - rewrite decide_False.
    + apply IH. intros w Hw. apply HP. by right.
    + intros ->. apply Hno, HP. left.
Qed.

Lemma applied_entries_cell (col : list value) (customized : dict value value)
    (v : value) :
  v ∈ col →
  replace_cell (applied_entries col customized) v
  = replace_cell (filter (λ kv, kv.1 ≠ VNaN) customized) v.
Proof.
  intros Hv. unfold replace_cell. f_equal.
  destruct (decide (v = VNaN)) as [->|Hne].
  - rewrite applied_entries_miss by (by right). symmetry. apply dict_get_None.
    unfold dict_keys.
    intros ([k w] & Heq & [Hk _]%list_elem_of_filter)%list_elem_of_fmap.
    cbn in *. by subst.
  - unfold applied_entries. rewrite !dict_get_filter; [done| |].
    + by intros w _.
    + intros w _. by apply found_spec.
Qed.

(** X18.  For a non-empty dict [customized], [recode(col_name=c,
    customized=customized)] on a column [c] of a well-formed table returns
    normally, and the column it leaves is the one a single
    [replace(to_replace={c: customized})] gives once an entry with a
    missing-value key is taken out of [customized]: the existence check
    that fills [corr_dict] changes the result for that one key only, since
    the entries it drops for an absent key would replace nothing. *)
Theorem recode_customized_as_replace (s : state) (c : string) (col : list value)
    (customized : dict value value) :
  bool_of customized = true →
  NoDup (dict_keys customized) →
  wf (my_df s) →
  getitem c (my_df s) = Return (Series col) →
  let r := recode c false (Some customized) s in
  r.1 = Return tt ∧
  getitem c (my_df r.2)
  = getitem c (replace c (filter (λ kv, kv.1 ≠ VNaN) customized) (my_df s)) ∧
  getitem c (my_df r.2)
  = Return (Series (replace_cell (filter (λ kv, kv.1 ≠ VNaN) customized) <$> col)).
Proof.
  intros Htruthy Hnd Hwf Hget. cbv zeta.
  rewrite recode_customized_run with (col := col) by done. cbn [fst snd my_df].
  rewrite !(getitem_replace c _ (my_df s) col Hwf Hget).
  assert (replace_cell (applied_entries col customized) <$> col
          = replace_cell (filter (λ kv, kv.1 ≠ VNaN) customized) <$> col) as ->; [|done].
  apply list_fmap_ext. intros _ v Hv%list_elem_of_lookup_2.
  by apply applied_entries_cell.
Qed.

Lemma recode_customized_as_replace_witness :
  getitem "c" (my_df (recode "c" false (Some [(VStr "b", VInt 7); (VNaN, VInt 0)])
                        (holding table_babc)).2)
  = Return (Series [VInt 7; VStr "a"; VInt 7; VStr "c"]).
Proof.
  destruct (recode_customized_as_replace (holding table_babc) "c"
              [VStr "b"; VStr "a"; VStr "b"; VStr "c"]
              [(VStr "b", VInt 7); (VNaN, VInt 0)])
    as (_ & _ & ->).
  - reflexivity.
  - apply (bool_decide_unpack _). by vm_compute.
  - repeat constructor.
  - by vm_compute.
  - by vm_compute.
Defined.

(** ** Saving to a workbook and loading it again *)

Lemma save_df_xlsx (s : state) (path : string) (sheet : list (list value)) :
  file_extension path = "xlsx"%string →
  writable (env s) path = true →
  sheet_too_large (my_df s) = false →
  to_excel (my_df s) = (sheet, None) →
  save_df path s
  = (Return tt,
     {| my_df := my_df s; my_df_rows := my_df_rows s;
        log := log s ++ [ LogRecord INFO "Method 'save_df' invoked." [];
                          LogRecord DEBUG
                            "File extension '.{file_extension}' was identified."
                            [AStr "xlsx"];
                          LogRecord INFO "Data frame saved to '{path}'." [AStr path] ];
        fs := <[path := Workbook sheet]> (fs s);
        env := env s |}).
Proof.
  intros Hext Hw Hfits Hsheet. unfold save_df. rewrite Hext.
  rewrite decide_False by done. rewrite decide_True by done.
  run. rewrite Hfits. run. rewrite Hsheet. run. rewrite Hw. run.
  by rewrite <- !app_assoc.
Qed.

Lemma create_df_from_xlsx (s : state) (path : string) (df : DataFrame) :
  file_extension path = "xlsx"%string →
  read_excel (fs s !! path) = Return df →
  create_df None (Some path) s
  = (Return tt,
     {| my_df := df; my_df_rows := my_df_rows s;
        log := log s ++ [ LogRecord INFO "Method 'create_df' invoked." [];
                          LogRecord DEBUG
                            "File extension '.{file_extension}' was identified."
                            [AStr "xlsx"];
                          LogRecord INFO "Excel file read into data frame." [] ];
        fs := fs s; env := env s |}).
Proof.
  intros Hext Hdf.
  assert (bool_of path = true) as Hpath by (by destruct path).
  unfold create_df. cbn [truthy if_truthy].
  rewrite Hpath, Hext. rewrite decide_False by done. rewrite decide_True by done.
  run. rewrite Hdf. run. by rewrite <- !app_assoc.
Qed.

Lemma read_excel_workbook (sheet : list (list value)) :
  ∃ df, read_excel (Some (Workbook sheet)) = Return df ∧
        index df = range (length (rows df)).
Proof.
  unfold read_excel. destruct (sheet_data sheet) as [|hdr body]; eexists; (split; [done|]).
  - done.
  - unfold index. cbn [rows]. rewrite default_index_labels. unfold default_index.
    by rewrite length_imap.
Qed.



(** ** Every state a Preprocessor reaches *)

Lemma exec_counter_not_negative (c : call) (s : state) :
  0 ≤ my_df_rows s → 0 ≤ my_df_rows (exec c s).2.
Proof.
  intros Hs.
  assert (keeps_rows c → 0 ≤ my_df_rows (exec c s).2) as Hkeeps.
  { intros Hc.
    pose proof (wp_always _ _ _
      (keeps_rows_row_count (my_df_rows s) (shape0 (my_df s)) c s Hc
         (conj eq_refl eq_refl))) as [Hn _].
    by rewrite Hn. }
  destruct c as [dictionary path| | | |dupl na labels|]; try (by apply Hkeeps).
  - cbn [exec]. by rewrite create_df_keeps_counter.
  - cbn [exec].
    destruct (wp_returns _ _ _ (drop_rows_run s dupl na labels))
      as (_ & _ & _ & _ & ->).
    case_match; [unfold shape0; lia|done].
Qed.

(** X20.  In every state a fresh Preprocessor reaches through its methods,
    whatever the calls and their arguments and whether they returned or
    raised, the table held is rectangular (every row has one cell per
    column) and the counter [my_df_rows] is not negative. *)
Theorem reachable_table_and_counter (admitted : call → state → Prop) (s : state) :
  reachable admitted s → wf (my_df s) ∧ 0 ≤ my_df_rows s.
Proof.
  intros Hs. split; [by eapply reachable_well_formed|].
  induction Hs as [l|s c _ IH _]; [done|]. by apply exec_counter_not_negative.
Qed.

Lemma reachable_table_and_counter_witness :
  wf (my_df state_x112) ∧ 0 ≤ my_df_rows state_x112.
Proof.
  apply (reachable_table_and_counter (λ _ _, True)).
  apply (reachable_call _ (init [] ∅ plain)
           (CreateDf (Some [("x"%string, [VInt 1; VInt 1; VInt 2])]) None));
    [apply reachable_init|exact I].
Defined.
